(** * Forgerate: the schedule-of-rates row parsers

    A shallow embedding of the row classifiers and section builders of
    - storeToMongoDB.js, the file src/unnamed/part_000 ([parseExcel],
      module [Mongo]),
    - publichealth.js ([parsePublicHealthXLSX], module [PH]),
    - seed.js with models/labourRates.js ([importExcel], module [Seed]),
    - excel-to-json.js, the file src/unnamed/part_002 ([parseSheet],
      module [ExcelToJson]),
    followed by the properties of them that the specification states.

    Conventions of the embedding.
    - A JS string is a [string]; the code units 0..127 behave as in JS,
      the white space of [\s] and [trim] is TAB, LF, VT, FF, CR and SPACE.
    - A JS number is a signed decimal [Fin neg m d] (the value m / 10^d),
      [NaN] or an infinity. The numbers of the cells are taken as the
      sheet gives them; [parseFloat] rounds what it reads to binary64.
    - [null] and [undefined] are one value, [VNull] (the scripts only ever
      test them with [== null], [!x], or [=== undefined || === null]).
    - The arrays the builders mutate through their cursors are a store:
      [currentSection] is an index into [sections], [currentSubSection] an
      index into the current section's [sub_sections].
    - A property access or method call on [null] raises [TypeError]. *)

From Stdlib Require Import Ascii String NArith ZArith DecimalString.
From stdpp Require Import base option list strings gmap.

Set Default Proof Using "Type".
Open Scope string_scope.

(* ================================================================== *)
(** * JavaScript values *)
(* ================================================================== *)

Module JS.

(** ** Characters *)

Definition code (c : ascii) : N := N_of_ascii c.

(** [\s], and the characters [trim] strips. *)
Definition is_ws (c : ascii) : bool :=
  let n := code c in ((9 <=? n) && (n <=? 13) || (n =? 32))%N.

(** [\d] *)
Definition is_digit (c : ascii) : bool :=
  let n := code c in ((48 <=? n) && (n <=? 57))%N.

Definition is_upper (c : ascii) : bool :=
  let n := code c in ((65 <=? n) && (n <=? 90))%N.

Definition is_lower (c : ascii) : bool :=
  let n := code c in ((97 <=? n) && (n <=? 122))%N.

(** [[a-zA-Z]], which is also [[a-z]] under the [i] flag. *)
Definition is_letter (c : ascii) : bool := is_upper c || is_lower c.

(** [\w] *)
Definition is_word (c : ascii) : bool :=
  is_letter c || is_digit c || (code c =? 95)%N.

(** [.] : anything but a line terminator. *)
Definition is_dot_any (c : ascii) : bool :=
  negb ((code c =? 10)%N || (code c =? 13)%N).

Definition lower (c : ascii) : ascii :=
  if is_upper c then ascii_of_N (code c + 32) else c.

Definition upper (c : ascii) : ascii :=
  if is_lower c then ascii_of_N (code c - 32) else c.

Definition ascii_eqb (a b : ascii) : bool := (code a =? code b)%N.

(** A pattern character under the [i] flag. *)
Definition eq_ci (p c : ascii) : bool := ascii_eqb (lower p) (lower c).

(** ** Strings *)

Fixpoint smap (f : ascii -> ascii) (s : string) : string :=
  match s with
  | EmptyString => EmptyString
  | String c r => String (f c) (smap f r)
  end.

Fixpoint sfilter (p : ascii -> bool) (s : string) : string :=
  match s with
  | EmptyString => EmptyString
  | String c r => if p c then String c (sfilter p r) else sfilter p r
  end.

(** [s.toLowerCase()], [s.toUpperCase()] *)
Definition toLowerCase : string -> string := smap lower.
Definition toUpperCase : string -> string := smap upper.

(** The longest prefix of characters of a class, and the rest. *)
Fixpoint span (p : ascii -> bool) (s : string) : string * string :=
  match s with
  | EmptyString => (EmptyString, EmptyString)
  | String c r =>
      if p c then let '(a, b) := span p r in (String c a, b)
      else (EmptyString, s)
  end.

Fixpoint drop_while (p : ascii -> bool) (s : string) : string :=
  match s with
  | EmptyString => EmptyString
  | String c r => if p c then drop_while p r else s
  end.

Definition trimStart (s : string) : string := drop_while is_ws s.

(** Drops the white space at the end: a character stays when something
    that is not white space follows it. *)
Fixpoint trimEnd (s : string) : string :=
  match s with
  | EmptyString => EmptyString
  | String c r =>
      match trimEnd r with
      | EmptyString => if is_ws c then EmptyString else String c EmptyString
      | r' => String c r'
      end
  end.

(** [s.trim()] *)
Definition trim (s : string) : string := trimEnd (trimStart s).

(** [s.replace(/\s+/g, ' ')]: every maximal run of white space becomes
    one space. [in_run] says that the character before was white space,
    so that the match of [\s+] under way swallows this one too. *)
Fixpoint collapse_go (in_run : bool) (s : string) : string :=
  match s with
  | EmptyString => EmptyString
  | String c r =>
      if is_ws c then
        if in_run then collapse_go true r else String " " (collapse_go true r)
      else String c (collapse_go false r)
  end.

Definition collapse_ws (s : string) : string := collapse_go false s.

(** [s.replace(/[p]+/g, '')] for a character class [p]: every maximal
    run of the class is deleted, one match of [[p]+] per run. *)
Fixpoint delete_go (p : ascii -> bool) (in_run : bool) (s : string) : string :=
  match s with
  | EmptyString => EmptyString
  | String c r =>
      if p c then delete_go p true r
      else String c (delete_go p false r)
  end.

Definition delete_runs (p : ascii -> bool) (s : string) : string :=
  delete_go p false s.

(** [s.replace(/c\s*/g, '')] for one character [c] that is not white
    space: every [c] goes, with the white space after it. [after] says
    that a match is under way. *)
Fixpoint delete_with_ws (c0 : ascii) (after : bool) (s : string) : string :=
  match s with
  | EmptyString => EmptyString
  | String c r =>
      if ascii_eqb c c0 then delete_with_ws c0 true r
      else if after && is_ws c then delete_with_ws c0 true r
      else String c (delete_with_ws c0 false r)
  end.

(** [s.startsWith(p)] *)
Fixpoint startsWith (p s : string) : bool :=
  match p, s with
  | EmptyString, _ => true
  | String a p', String b s' => ascii_eqb a b && startsWith p' s'
  | String _ _, EmptyString => false
  end.

(** [s.includes(p)] *)
Fixpoint includes (p s : string) : bool :=
  startsWith p s ||
  match s with
  | EmptyString => false
  | String _ r => includes p r
  end.

(** [s.split(c).pop()]: what follows the last [c]. *)
Fixpoint after_last (c0 : ascii) (s : string) : string :=
  match s with
  | EmptyString => EmptyString
  | String c r =>
      if ascii_eqb c c0 then after_last c0 r
      else
        if includes (String c0 EmptyString) r then after_last c0 r else s
  end.

(** ** Numbers *)

(** [Fin neg m d] is the number (-1)^neg * m / 10^d. *)
Inductive number : Type :=
  | NaN
  | Inf (neg : bool)
  | Fin (neg : bool) (m : N) (d : nat).

(** The integer [z] as a number. *)
Definition of_Z (z : Z) : number := Fin (z <? 0)%Z (Z.abs_N z) 0.

Definition isNaN (n : number) : bool :=
  match n with NaN => true | _ => false end.

(** ToBoolean on a number: [0], [-0] and [NaN] are falsy. *)
Definition num_truthy (n : number) : bool :=
  match n with
  | NaN => false
  | Inf _ => true
  | Fin _ m _ => negb (m =? 0)%N
  end.

(** [Number.isInteger(n)] *)
Definition isInteger (n : number) : bool :=
  match n with
  | Fin _ m d => (m mod (10 ^ N.of_nat d) =? 0)%N
  | _ => false
  end.

(** *** [parseFloat] *)

Definition digit_val (c : ascii) : N := (code c - 48)%N.

Fixpoint digits_val (acc : N) (s : string) : N :=
  match s with
  | EmptyString => acc
  | String c r => digits_val (10 * acc + digit_val c)%N r
  end.

(** The exponent part [[eE][+-]?\d+] when the string starts with one,
    as its value; [0] when it does not. *)
Definition exponent_part (s : string) : Z :=
  match s with
  | String c r =>
      if eq_ci "e" c then
        let '(sg, r') :=
          match r with
          | String "-" t => (true, t)
          | String "+" t => (false, t)
          | _ => (false, r)
          end in
        let '(ds, _) := span is_digit r' in
        match ds with
        | EmptyString => 0%Z
        | _ => let v := Z.of_N (digits_val 0 ds) in if sg then (- v)%Z else v
        end
      else 0%Z
  | EmptyString => 0%Z
  end.

(** The number m * 10^e with m given by its integer digits and its
    fraction digits. *)
Definition scale (neg : bool) (m : N) (frac : nat) (e : Z) : number :=
  let d := (Z.of_nat frac - e)%Z in
  if (0 <=? d)%Z then Fin neg m (Z.to_nat d)
  else Fin neg (m * 10 ^ Z.to_N (- d)) 0.

(** The sign of a literal, and what follows it. *)
Definition sign_part (s : string) : bool * string :=
  match s with
  | String "-" r => (true, r)
  | String "+" r => (false, r)
  | _ => (false, s)
  end.

(** The digits after the point, when the string starts with a point,
    and what follows them. *)
Definition fraction_part (s : string) : string * string :=
  match s with
  | String "." r => span is_digit r
  | _ => (EmptyString, s)
  end.

(** *** Binary64 *)

(** The integer nearest to a / b, the even one when two are as near. *)
Definition div_nearest_even (a b : N) : N :=
  let q := (a / b)%N in
  match (2 * (a mod b) ?= b)%N with
  | Lt => q
  | Gt => (q + 1)%N
  | Eq => if N.even q then q else (q + 1)%N
  end.

(** 2^k for k >= 0, and 1 for k < 0: the factor that 2^k puts on one
    side of a fraction, 2^(-k) being on the other side. *)
Definition pow2 (k : Z) : N := (2 ^ Z.to_N k)%N.

(** floor (log2 (a / b)), for a and b not zero. *)
Definition log2_quot (a b : N) : Z :=
  let l := (Z.of_N (N.log2 a) - Z.of_N (N.log2 b))%Z in
  if (b * pow2 l <=? a * pow2 (- l))%N then l else (l - 1)%Z.

(** The binary64 number nearest to a / b, for a and b not zero, as its
    significand q and its exponent e: the number is q * 2^e, with
    q < 2^53 and e >= -1074, and q >= 2^52 unless e = -1074. Of two
    numbers as near, the one with the even significand is taken. The
    exponent is not bounded above here. *)
Definition nearest64 (a b : N) : N * Z :=
  let e := Z.max (log2_quot a b - 52) (-1074) in
  let q := div_nearest_even (a * pow2 (- e)) (b * pow2 e) in
  if (q =? 2 ^ 53)%N then ((2 ^ 52)%N, (e + 1)%Z) else (q, e).

(** m / 10^d without the zeros at the end of m, at most d of them. *)
Fixpoint reduce (d : nat) (m : N) : N * nat :=
  match d with
  | O => (m, O)
  | S d' => if (m mod 10 =? 0)%N then reduce d' (m / 10)%N else (m, d)
  end.

(** The number q * 2^e as a decimal: 2^(-k) is 5^k / 10^k. *)
Definition of_binary (neg : bool) (q : N) (e : Z) : number :=
  if (0 <=? e)%Z then Fin neg (q * 2 ^ Z.to_N e) 0
  else
    let '(m, d) := reduce (Z.to_nat (- e)) (q * 5 ^ Z.to_N (- e)) in
    Fin neg m d.

(** The Number value of a decimal: the binary64 number nearest to it,
    an infinity from 2^1024 on, a zero below half of 2^(-1074). *)
Definition to_binary64 (n : number) : number :=
  match n with
  | Fin neg m d =>
      if (m =? 0)%N then Fin neg 0 0
      else
        let '(q, e) := nearest64 m (10 ^ N.of_nat d) in
        if (971 <? e)%Z then Inf neg
        else if (q =? 0)%N then Fin neg 0 0
        else of_binary neg q e
  | _ => n
  end.

(** [parseFloat(s)]: the longest prefix of the string, leading white
    space apart, that is a decimal literal, as a Number value; [NaN]
    when there is none. *)
Definition parseFloat (s : string) : number :=
  let '(neg, s1) := sign_part (trimStart s) in
  if startsWith "Infinity" s1 then Inf neg
  else
    let '(ip, r1) := span is_digit s1 in
    let '(fp, r2) := fraction_part r1 in
    match ip, fp with
    | EmptyString, EmptyString => NaN
    | _, _ =>
        to_binary64
          (scale neg (digits_val 0 (ip +:+ fp)) (String.length fp)
             (exponent_part r2))
    end.

(** *** [String(n)] *)

Definition N_to_string (n : N) : string :=
  NilZero.string_of_uint (N.to_uint n).

Fixpoint zeros (k : nat) : string :=
  match k with
  | O => EmptyString
  | S k' => String "0" (zeros k')
  end.

Fixpoint stake (k : nat) (s : string) : string :=
  match k, s with
  | S k', String c r => String c (stake k' r)
  | _, _ => EmptyString
  end.

Fixpoint sdrop (k : nat) (s : string) : string :=
  match k, s with
  | S k', String _ r => sdrop k' r
  | _, _ => s
  end.

(** Strips the zeros at the end of a string of digits, and counts them. *)
Fixpoint strip_zeros (s : string) : string * nat :=
  match s with
  | EmptyString => (EmptyString, O)
  | String c r =>
      let '(r', z) := strip_zeros r in
      match r' with
      | EmptyString =>
          if ascii_eqb c "0" then (EmptyString, S z) else (String c EmptyString, z)
      | _ => (String c r', z)
      end
  end.

(** Number::toString for a non-zero finite number, sign apart: the
    digits [s] (no zero at the end, [k] of them) and [n] such that the
    value is 0.s * 10^n. *)
Definition digits_to_string (s : string) (n : Z) : string :=
  let k := Z.of_nat (String.length s) in
  if ((k <=? n) && (n <=? 21))%Z then
    s +:+ zeros (Z.to_nat (n - k))
  else if ((0 <? n) && (n <=? 21))%Z then
    stake (Z.to_nat n) s +:+ "." +:+ sdrop (Z.to_nat n) s
  else if ((-6 <? n) && (n <=? 0))%Z then
    "0." +:+ zeros (Z.to_nat (- n)) +:+ s
  else
    let e := (n - 1)%Z in
    let es := (if (e <? 0)%Z then "-" else "+") +:+ N_to_string (Z.abs_N e) in
    if (k =? 1)%Z then s +:+ "e" +:+ es
    else stake 1 s +:+ "." +:+ sdrop 1 s +:+ "e" +:+ es.

(** [String(n)] *)
Definition num_to_string (n : number) : string :=
  match n with
  | NaN => "NaN"
  | Inf neg => if neg then "-Infinity" else "Infinity"
  | Fin neg m d =>
      if (m =? 0)%N then "0"
      else
        let '(s, z) := strip_zeros (N_to_string m) in
        let n := (Z.of_nat (String.length s) + Z.of_nat z - Z.of_nat d)%Z in
        (if neg then "-" else EmptyString) +:+ digits_to_string s n
  end.

(** ** Values *)

(** What a cell of the sheet holds, and what a loosely typed variable
    of the scripts holds. *)
Inductive value : Type :=
  | VNull
  | VStr (s : string)
  | VNum (n : number).

(** [v == null] *)
Definition is_null (v : value) : bool :=
  match v with VNull => true | _ => false end.

(** [typeof v === 'number'] *)
Definition is_number (v : value) : bool :=
  match v with VNum _ => true | _ => false end.

(** ToBoolean *)
Definition truthy (v : value) : bool :=
  match v with
  | VNull => false
  | VStr s => negb (String.eqb s EmptyString)
  | VNum n => num_truthy n
  end.

(** [String(v)] *)
Definition to_string (v : value) : string :=
  match v with
  | VNull => "null"
  | VStr s => s
  | VNum n => num_to_string n
  end.

(** ToBoolean on a variable that is a string or [null]. *)
Definition truthy_s (o : option string) : bool :=
  match o with
  | None => false
  | Some s => negb (String.eqb s EmptyString)
  end.

(** [o == null] on such a variable. *)
Definition is_null_s (o : option string) : bool :=
  match o with None => true | Some _ => false end.

(** [a || b] on such variables. *)
Definition or_else (a b : option string) : option string :=
  if truthy_s a then a else b.

(** A row of the sheet, and [row[i]]. *)
Definition row : Type := list value.
Definition cell (r : row) (i : nat) : value := nth i r VNull.

(** ** Exceptions *)

Inductive result (A : Type) : Type :=
  | Ok (a : A)
  | TypeError.
Arguments Ok {A} a.
Arguments TypeError {A}.

Definition bind {A B : Type} (m : result A) (f : A -> result B) : result B :=
  match m with
  | Ok a => f a
  | TypeError => TypeError
  end.

(** A reference as a condition: [if (o)], [o && ...]. *)
Definition not_null {A : Type} (o : option A) : bool :=
  match o with Some _ => true | None => false end.

(** [o.f] and [o.m()]: a [TypeError] when [o] is [null]. *)
Definition deref {A : Type} (o : option A) : result A :=
  match o with
  | Some a => Ok a
  | None => TypeError
  end.

End JS.

#[global] Instance result_bind : MBind JS.result :=
  fun A B f m => JS.bind m f.

(* ================================================================== *)
(** * Regular expressions *)
(* ================================================================== *)

(** The patterns of the scripts, matched by derivatives. A pattern is
    written without its anchors; [test_full], [test_prefix] and
    [test_search] are [re.test(s)] for [/^r$/], [/^r/] and [/r/]. *)
Module Regex.
Import JS.

Inductive regex : Type :=
  | Void
  | Eps
  | Chr (p : ascii -> bool)
  | Cat (a b : regex)
  | Alt (a b : regex)
  | Star (a : regex).

Fixpoint nullable (r : regex) : bool :=
  match r with
  | Void => false
  | Eps => true
  | Chr _ => false
  | Cat a b => nullable a && nullable b
  | Alt a b => nullable a || nullable b
  | Star _ => true
  end.

Fixpoint deriv (c : ascii) (r : regex) : regex :=
  match r with
  | Void => Void
  | Eps => Void
  | Chr p => if p c then Eps else Void
  | Cat a b =>
      if nullable a then Alt (Cat (deriv c a) b) (deriv c b)
      else Cat (deriv c a) b
  | Alt a b => Alt (deriv c a) (deriv c b)
  | Star a => Cat (deriv c a) (Star a)
  end.

Fixpoint matches (r : regex) (s : string) : bool :=
  match s with
  | EmptyString => nullable r
  | String c t => matches (deriv c r) t
  end.

(** [r?], [r+], [[^]] *)
Definition Opt (r : regex) : regex := Alt Eps r.
Definition Plus (r : regex) : regex := Cat r (Star r).
Definition Any : regex := Chr (fun _ => true).

(** A literal under the [i] flag. *)
Fixpoint LitCI (s : string) : regex :=
  match s with
  | EmptyString => Eps
  | String c t => Cat (Chr (eq_ci c)) (LitCI t)
  end.

(** [\b] after a word character: the input ends, or goes on with a
    character that is not of [\w]. Only for the end of a prefix pattern. *)
Definition WordEnd : regex :=
  Alt Eps (Cat (Chr (fun c => negb (is_word c))) (Star Any)).

Definition test_full (r : regex) (s : string) : bool := matches r s.
Definition test_prefix (r : regex) (s : string) : bool :=
  matches (Cat r (Star Any)) s.
Definition test_search (r : regex) (s : string) : bool :=
  matches (Cat (Star Any) (Cat r (Star Any))) s.

(** [s.replace(/r$/, '')]: the match starts at the first position from
    which the rest of the string matches [r]. *)
Fixpoint strip_suffix (r : regex) (s : string) : string :=
  if matches r s then EmptyString
  else
    match s with
    | EmptyString => EmptyString
    | String c t => String c (strip_suffix r t)
    end.

(** The strings of a pattern. *)
Inductive lang : regex -> string -> Prop :=
  | lang_eps : lang Eps EmptyString
  | lang_chr p c : p c = true -> lang (Chr p) (String c EmptyString)
  | lang_cat a b s t : lang a s -> lang b t -> lang (Cat a b) (s +:+ t)
  | lang_alt_l a b s : lang a s -> lang (Alt a b) s
  | lang_alt_r a b s : lang b s -> lang (Alt a b) s
  | lang_star_nil a : lang (Star a) EmptyString
  | lang_star_cons a s t :
      lang a s -> lang (Star a) t -> lang (Star a) (s +:+ t).

End Regex.

(* ================================================================== *)
(** * storeToMongoDB.js *)
(* ================================================================== *)

Module Mongo.
Import JS Regex.

Definition CATEGORY_MAP : gmap string string :=
  list_to_map [
    ("1",   "Labour Rates");
    ("2",   "Earth Work");
    ("3",   "Rock Cutting & Blasting");
    ("3a",  "Rock Cutting & Blasting");
    ("3b",  "Rock Cutting & Blasting");
    ("3c",  "Rock Cutting & Blasting");
    ("3d",  "Rock Cutting & Blasting");
    ("3e",  "Rock Cutting & Blasting");
    ("3f",  "Rock Cutting & Blasting");
    ("4",   "Loading & Unloading");
    ("5",   "Loading & Unloading");
    ("6",   "Loading & Unloading");
    ("7",   "Loading & Unloading");
    ("8a",  "Pipe Laying");
    ("8b",  "Pipe Laying");
    ("9a",  "Pipe Jointing");
    ("9b",  "Pipe Jointing");
    ("10",  "Pipe Jointing");
    ("11a", "RCC Pipe Laying");
    ("11b", "RCC Pipe Laying");
    ("12",  "GI/PVC/HDPE Pipe Laying");
    ("13",  "AC Pressure Pipe Laying");
    ("14",  "AC Pressure Pipe Jointing");
    ("15",  "Stoneware Pipe Laying");
    ("16",  "PVC Pipe Laying & Testing");
    ("17",  "Valve Installation Labour");
    ("18a", "Air Valve Labour");
    ("18b", "Kinetic Air Valve Labour");
    ("19",  "Fire Hydrant Labour");
    ("20",  "CI/DI Pipe Uprooting");
    ("21",  "RCC Pipe Uprooting");
    ("22",  "GI/PVC/HDPE Pipe Removal");
    ("23",  "CI/DI Pipe Cutting");
    ("24",  "AC Pipe Cutting");
    ("25",  "Drilling & Tapping");
    ("26",  "Road Surface Cutting");
    ("27",  "Dewatering");
    ("28",  "Shoring & Strutting");
    ("29",  "Barricading & Watching");
    ("30",  "Underwater Trench Excavation");
    ("31",  "Infiltration Gallery");
    ("32",  "Infiltration Gallery");
    ("33",  "Centering & Scaffolding");
    ("34",  "Lift & Delift of Materials");
    ("35",  "Fixtures Labour");
    ("36",  "Sanitary Fixtures Labour");
    ("37",  "Sanitary Fixtures Labour");
    ("38",  "Sanitary Fixtures Labour");
    ("39",  "Sanitary Fixtures Labour");
    ("40",  "Trench Refilling");
    ("41a", "Isolated Scattered Works");
    ("41b", "Repairs to Mains");
    ("42",  "Silt & Sludge Removal");
    ("43",  "Pipe Conveyance");
    ("44",  "Pipe Conveyance");
    ("45",  "Pipe Conveyance");
    ("46",  "Pipe Conveyance");
    ("47",  "Pipe Conveyance");
    ("48",  "Well Sinking");
    ("49",  "Well Sinking");
    ("50",  "Open Well Excavation");
    ("51",  "OHSR/ELSR Rates (Kilo Litres)");
    ("52",  "OHSR/ELSR Rates (Litres)");
    ("53",  "Rapid Gravity Filtration Plant")
  ].

(** ** Helpers *)

(** [String(v).trim().replace(/\s+/g, ' ') || null] *)
Definition clean (v : value) : option string :=
  match v with
  | VNull => None
  | _ =>
      let s := collapse_ws (trim (to_string v)) in
      if String.eqb s EmptyString then None else Some s
  end.

Definition parseRate (v : value) : value :=
  match v with
  | VNull => VNull
  | VNum n => VNum n
  | VStr _ =>
      let s := trim (to_string v) in
      if String.eqb s EmptyString then VNull
      else
        let n := parseFloat s in
        if isNaN n then VStr s else VNum n
  end.

(** [[\s.]] *)
Definition ws_or_dot (c : ascii) : bool := is_ws c || ascii_eqb c ".".

Definition snoKey (sno : value) : option string :=
  match sno with
  | VNull => None
  | _ => Some (toLowerCase (delete_runs ws_or_dot (to_string sno)))
  end.

(** [\d+\s*\.?\s*[a-z]?\.?], flag [i] *)
Definition re_header : regex :=
  Cat (Plus (Chr is_digit))
   (Cat (Star (Chr is_ws))
    (Cat (Opt (Chr (ascii_eqb ".")))
     (Cat (Star (Chr is_ws))
      (Cat (Opt (Chr is_letter))
           (Opt (Chr (ascii_eqb "."))))))).

Definition isSectionHeader (sno : value) (unit : option string) (rate : value)
  : bool :=
  match sno with
  | VNull => false
  | VNum _ => is_null_s unit && is_null rate
  | VStr _ =>
      test_full re_header (trim (to_string sno))
      && is_null_s unit && is_null rate
  end.

(** [(8a|8b|9a|9b|11a|11b|18a|18b|41a|41b)], flag [i] *)
Definition re_compound : regex :=
  Alt (LitCI "8a") (Alt (LitCI "8b") (Alt (LitCI "9a") (Alt (LitCI "9b")
  (Alt (LitCI "11a") (Alt (LitCI "11b") (Alt (LitCI "18a") (Alt (LitCI "18b")
  (Alt (LitCI "41a") (LitCI "41b"))))))))).

Definition isSimpleCompound (sno : value) : bool :=
  if negb (truthy sno) then false
  else
    test_full re_compound
      (toLowerCase (delete_runs ws_or_dot (to_string sno))).

Definition isSubSection (sno : value) (unit : option string) (rate : value)
  : bool :=
  negb (is_null sno)
  && test_full (Chr is_letter) (trim (to_string sno))
  && is_null_s unit
  && is_null rate.

Definition isSkip (desc : option string) : bool :=
  match desc with
  | None => false
  | Some d =>
      if String.eqb d EmptyString then false
      else
        test_prefix (LitCI "DIAMETER OF PIPE") d
        || test_prefix (Cat (LitCI "DIA ") (Alt (LitCI "in") (LitCI "of"))) d
        || test_full (Cat (LitCI "NOTE") WordEnd) d
        || test_prefix
             (Cat (Chr is_ws) (Cat (Chr is_ws) (Cat (Chr is_ws)
               (Plus (Chr is_ws))))) d
  end.

(** [G\.I\. PIPES|PVC.HDPE pipes], flag [i] *)
Definition re_auto : regex :=
  Alt (LitCI "G.I. PIPES")
      (Cat (LitCI "PVC") (Cat (Chr is_dot_any) (LitCI "HDPE pipes"))).

(** ** The documents *)

Record RateItem : Type := {
  dimension : option string;
  unit : option string;
  rate : value;
  rate_type : string;
}.

Record SubSection : Type := {
  sub_id : string;
  description : option string;
  ss_items : list RateItem;       (* items *)
}.

Record Section : Type := {
  item_no : value;
  item_key : option string;
  category : option string;
  title : option string;
  s_unit : option string;         (* unit *)
  s_rate : value;                 (* rate *)
  s_rate_type : option string;    (* rate_type *)
  sub_sections : list SubSection;
  s_items : list RateItem;        (* items *)
}.

(** [CATEGORY_MAP[k]]; the property name of [null] is ["null"]. The
    keys [buildSection] is called with start with a digit or are the
    text of a number, so none of them names a property that the object
    inherits. *)
Definition category_of (k : option string) : option string :=
  CATEGORY_MAP !! (default "null" k).

Definition buildSection (sno : value) (key desc unit : option string)
  (rate : value) : Section :=
  {| item_no := if is_number sno then sno else VStr (to_string sno);
     item_key := key;
     category :=
       or_else (or_else (category_of key) (category_of (Some (to_string sno))))
               (Some "General");
     title := desc;
     s_unit := unit;
     s_rate := rate;
     s_rate_type :=
       if is_null rate then None
       else Some (if is_number rate then "numeric" else "formula");
     sub_sections := [];
     s_items := [] |}.

(** [\s*mm], flag [i] *)
Definition re_mm : regex := Cat (Star (Chr is_ws)) (LitCI "mm").

Definition buildRateItem (desc unit : option string) (rate : value)
  : RateItem :=
  {| dimension :=
       match desc with
       | Some d =>
           if truthy_s desc then Some (trim (strip_suffix re_mm d)) else None
       | None => None
       end;
     unit :=
       match unit with
       | Some u => if truthy_s unit then Some (trim u) else None
       | None => None
       end;
     rate := rate;
     rate_type := if is_number rate then "numeric" else "formula" |}.

(** ** The builder *)

(** [sections] is the output array. The cursors alias entries of it:
    [currentSection = Some i] is a reference to [sections[i]], and
    [currentSubSection = Some j] a reference to entry [j] of the
    [sub_sections] of that section. *)
Record State : Type := {
  sections : list Section;
  currentSection : option nat;
  currentSubSection : option nat;
}.

Definition init : State :=
  {| sections := []; currentSection := None; currentSubSection := None |}.

Definition with_sub_sections (sec : Section) (l : list SubSection) : Section :=
  {| item_no := item_no sec; item_key := item_key sec;
     category := category sec; title := title sec; s_unit := s_unit sec;
     s_rate := s_rate sec; s_rate_type := s_rate_type sec;
     sub_sections := l; s_items := s_items sec |}.

Definition with_items (sec : Section) (l : list RateItem) : Section :=
  {| item_no := item_no sec; item_key := item_key sec;
     category := category sec; title := title sec; s_unit := s_unit sec;
     s_rate := s_rate sec; s_rate_type := s_rate_type sec;
     sub_sections := sub_sections sec; s_items := l |}.

Definition with_ss_items (ss : SubSection) (l : list RateItem) : SubSection :=
  {| sub_id := sub_id ss; description := description ss; ss_items := l |}.

(** [it.rate = r] *)
Definition with_rate (it : RateItem) (r : value) : RateItem :=
  {| dimension := dimension it; unit := unit it; rate := r;
     rate_type := rate_type it |}.

(** The object [currentSection] refers to. *)
Definition the_section (st : State) : result Section :=
  i ← deref (currentSection st); deref (sections st !! i).

(** The object [currentSubSection] refers to. *)
Definition the_sub_section (st : State) : result SubSection :=
  sec ← the_section st;
  j ← deref (currentSubSection st);
  deref (sub_sections sec !! j).

(** A write through [currentSection]. *)
Definition set_section (st : State) (sec : Section) : result State :=
  i ← deref (currentSection st);
  Ok {| sections := <[i := sec]> (sections st);
        currentSection := currentSection st;
        currentSubSection := currentSubSection st |}.

(** [currentSection = sec; currentSubSection = null;
     sections.push(currentSection)] *)
Definition open_section (st : State) (sec : Section) : State :=
  {| sections := sections st ++ [sec];
     currentSection := Some (length (sections st));
     currentSubSection := None |}.

(** [currentSubSection = ss; currentSection.sub_sections.push(ss)] *)
Definition open_sub_section (st : State) (ss : SubSection) : result State :=
  i ← deref (currentSection st);
  sec ← deref (sections st !! i);
  Ok {| sections :=
          <[i := with_sub_sections sec (sub_sections sec ++ [ss])]> (sections st);
        currentSection := Some i;
        currentSubSection := Some (length (sub_sections sec)) |}.

(** [currentSubSection ? currentSubSection.items : currentSection.items] *)
Definition target (st : State) : result (list RateItem) :=
  match currentSubSection st with
  | Some _ => ss ← the_sub_section st; Ok (ss_items ss)
  | None => sec ← the_section st; Ok (s_items sec)
  end.

(** The state after that array has become [l]. *)
Definition set_target (st : State) (l : list RateItem) : result State :=
  sec ← the_section st;
  match currentSubSection st with
  | Some j =>
      ss ← deref (sub_sections sec !! j);
      set_section st
        (with_sub_sections sec (<[j := with_ss_items ss l]> (sub_sections sec)))
  | None => set_section st (with_items sec l)
  end.

(** [target.push(it)] *)
Definition push_item (st : State) (it : RateItem) : result State :=
  l ← target st; set_target st (l ++ [it]).

(** The rate-only rule, lines 215-222. *)
Definition rate_only (st : State) (d : option string) (r : value)
  : result State :=
  l ← target st;
  if truthy_s d && (length l =? 0)%nat then
    set_target st (l ++ [buildRateItem d None r])
  else if (0 <? length l)%nat then
    it ← deref (l !! (length l - 1)%nat);
    if is_null (rate it) then
      set_target st (<[(length l - 1)%nat := with_rate it r]> l)
    else set_target st (l ++ [buildRateItem d None r])
  else set_target st (l ++ [buildRateItem d None r]).

(** The normalised cells of a row, lines 159-165. *)
Record Cells : Type := {
  sno : value;
  desc : option string;
  c_unit : option string;         (* unit *)
  c_rate : value;                 (* rate *)
  key : option string;
}.

Definition normalise (r : row) : Cells :=
  let rawSno := cell r 1 in
  let sno := match rawSno with VStr s => VStr (trim s) | v => v end in
  {| sno := sno;
     desc := clean (cell r 2);
     c_unit := clean (cell r 3);
     c_rate := parseRate (cell r 4);
     key := snoKey sno |}.

(** The guards of the rules, in the order of the loop body. *)
Definition is_blank (c : Cells) : bool :=
  negb (truthy (sno c)) && negb (truthy_s (desc c))
  && negb (truthy_s (c_unit c)) && is_null (c_rate c).

Definition is_compound (c : Cells) : bool :=
  truthy (sno c) && isSimpleCompound (sno c).

Definition is_header (c : Cells) : bool :=
  isSectionHeader (sno c) (c_unit c) (c_rate c).

Definition is_sub (st : State) (c : Cells) : bool :=
  isSubSection (sno c) (c_unit c) (c_rate c)
  && not_null (currentSection st).

Definition is_auto_sub (st : State) (c : Cells) : bool :=
  not_null (currentSection st) && negb (truthy (sno c))
  && truthy_s (desc c) && negb (isSkip (desc c))
  && test_search re_auto (default "null" (desc c)).

Definition is_rate_item (st : State) (c : Cells) : bool :=
  not_null (currentSection st) && truthy_s (c_unit c)
  && negb (is_null (c_rate c)).

Definition is_rate_only (st : State) (c : Cells) : bool :=
  not_null (currentSection st) && negb (is_null (c_rate c))
  && negb (truthy_s (c_unit c)) && negb (truthy (sno c)).

(** The body of the loop of [parseExcel], lines 159-223. *)
Definition step (st : State) (r : row) : result State :=
  let c := normalise r in
  if is_blank c then Ok st
  else if is_compound c then
    Ok (open_section st
          (buildSection (sno c) (key c) (desc c) (c_unit c) (c_rate c)))
  else if is_header c then
    Ok (open_section st
          (buildSection (sno c) (key c) (desc c) (c_unit c) (c_rate c)))
  else if is_sub st c then
    open_sub_section st
      {| sub_id := trim (to_string (sno c)); description := desc c;
         ss_items := [] |}
  else if is_auto_sub st c then
    sec ← the_section st;
    open_sub_section st
      {| sub_id :=
           "auto_" +:+ N_to_string (N.of_nat (length (sub_sections sec) + 1));
         description := desc c; ss_items := [] |}
  else if is_rate_item st c then
    push_item st (buildRateItem (desc c) (c_unit c) (c_rate c))
  else if is_rate_only st c then rate_only st (desc c) (c_rate c)
  else Ok st.

Fixpoint run (st : State) (rows : list row) : result State :=
  match rows with
  | [] => Ok st
  | r :: rs => st' ← step st r; run st' rs
  end.

(** [parseExcel], on the rows of the sheet: the loop starts at the
    third row. *)
Definition parseExcel (rows : list row) : result (list Section) :=
  st ← run init (drop 2 rows); Ok (sections st).

(** ** Notions used in the statements *)

(** The cursors refer to objects that exist: what the assignments of the
    loop body maintain. *)
Definition wf (st : State) : Prop :=
  match currentSection st with
  | None => currentSubSection st = None
  | Some i =>
      exists sec, sections st !! i = Some sec /\
        forall j, currentSubSection st = Some j ->
          is_Some (sub_sections sec !! j)
  end.

Definition rated (it : RateItem) : Prop := rate it <> VNull.

Definition sub_rated (ss : SubSection) : Prop := Forall rated (ss_items ss).

Definition sec_rated (sec : Section) : Prop :=
  Forall rated (s_items sec) /\ Forall sub_rated (sub_sections sec).

(** Every item of the tree has a rate. *)
Definition all_rated (st : State) : Prop := Forall sec_rated (sections st).

(** A rule other than the blank rule takes the row. *)
Definition matches_rule (st : State) (c : Cells) : bool :=
  is_compound c || is_header c || is_sub st c || is_auto_sub st c
  || is_rate_item st c || is_rate_only st c.

(** The rows that come to the rate-only rule, line 214. *)
Definition reaches_rate_only (st : State) (c : Cells) : bool :=
  negb (is_blank c) && negb (is_compound c) && negb (is_header c)
  && negb (is_sub st c) && negb (is_auto_sub st c)
  && negb (is_rate_item st c) && is_rate_only st c.

(** The rows on which line 219 runs: the rate of an item is assigned. *)
Definition backfills (st : State) (r : row) : bool :=
  let c := normalise r in
  reaches_rate_only st c &&
  match target st with
  | Ok l =>
      negb (truthy_s (desc c) && (length l =? 0)%nat)
      && (0 <? length l)%nat
      && match l !! (length l - 1)%nat with
         | Some it => is_null (rate it)
         | None => false
         end
  | TypeError => false
  end.

(** The tree only grows: every list of items of [st'] starts with the
    items it had in [st], unchanged. *)
Definition items_kept (st st' : State) : Prop :=
  forall i sec, sections st !! i = Some sec ->
    exists sec', sections st' !! i = Some sec' /\
      s_items sec `prefix_of` s_items sec' /\
      forall j ss, sub_sections sec !! j = Some ss ->
        exists ss', sub_sections sec' !! j = Some ss' /\
          ss_items ss `prefix_of` ss_items ss'.

(** The three cases of lines 216-222, on the array [l] that becomes [l']. *)
Definition repaired (d : option string) (rt : value) (l l' : list RateItem)
  : Prop :=
  (l = [] /\ truthy_s d = true /\ l' = l ++ [buildRateItem d None rt])%list
  \/ (~ (l = [] /\ truthy_s d = true) /\
      exists l0 it, l = l0 ++ [it] /\ rate it = VNull
                    /\ l' = l0 ++ [with_rate it rt])%list
  \/ (~ (l = [] /\ truthy_s d = true) /\
      ~ (exists l0 it, l = l0 ++ [it] /\ rate it = VNull) /\
      l' = l ++ [buildRateItem d None rt])%list.

End Mongo.

(* ================================================================== *)
(** * publichealth.js *)
(* ================================================================== *)

Module PH.
Import JS Regex.

(** ** Helpers ([isDiameterRow] is never called) *)

Definition cleanStr (val : value) : option string :=
  match val with
  | VNull => None
  | _ =>
      let s := collapse_ws (trim (to_string val)) in
      if String.eqb s EmptyString then None else Some s
  end.

Definition parseRate (val : value) : value :=
  match val with
  | VNull => VNull
  | VNum n => VNum n
  | VStr _ =>
      let str := trim (to_string val) in
      if String.eqb str EmptyString || String.eqb str "-" then VNull
      else
        let num := parseFloat str in
        if isNaN num then VStr str else VNum num
  end.

Definition isNoteRow (desc : option string) : bool :=
  match desc with
  | None => false
  | Some d =>
      if String.eqb d EmptyString then false
      else startsWith "NOTE" (toUpperCase d) || startsWith "//" (trim d)
  end.

Definition isSectionHeader (sno : value) (desc unit : option string)
  (rate : value) : bool :=
  if negb (truthy sno) && negb (truthy_s desc) then false
  else if is_number sno
          && match sno with VNum n => isInteger n | _ => false end
          && negb (truthy_s unit) && is_null rate then true
  else if truthy sno
          && match sno with
             | VStr s => test_prefix (Plus (Chr is_digit)) (trim s)
             | _ => false
             end
          && negb (truthy_s unit) && is_null rate then true
  else false.

Definition isSubHeader (sno : value) (desc unit : option string)
  (rate : value) : bool :=
  truthy sno
  && match sno with
     | VStr s => test_full (Chr is_letter) (trim s)
     | _ => false
     end
  && negb (truthy_s unit) && is_null rate.

(** The property names of the object literal: [1] is ["1"]. The keys
    looked up start with a digit or are the text of an integer, so none
    of them names a property that the object inherits. *)
Definition SECTION_CATEGORIES : gmap string string :=
  list_to_map [
    ("1",  "Labour Rates");
    ("2",  "Earth Work");
    ("3",  "Rock Cutting & Blasting");
    ("4",  "Loading & Unloading");
    ("5",  "Loading & Unloading");
    ("6",  "Loading & Unloading");
    ("7",  "Loading & Unloading");
    ("8a", "Pipe Laying");
    ("8b", "Pipe Laying");
    ("9a", "Pipe Jointing");
    ("9b", "Pipe Jointing");
    ("10", "Pipe Jointing");
    ("11a", "RCC Pipe Laying");
    ("11b", "RCC Pipe Laying");
    ("12", "GI / PVC / HDPE Pipe Laying");
    ("13", "AC Pressure Pipe Laying");
    ("14", "AC Pressure Pipe Jointing");
    ("15", "Stoneware Pipe Laying");
    ("16", "PVC Pipe Laying & Testing");
    ("17", "Valve Labour");
    ("18a", "Air Valve Labour");
    ("18b", "Air Valve Labour");
    ("19", "Fire Hydrant Labour");
    ("20", "Pipe Uprooting");
    ("21", "RCC Pipe Uprooting");
    ("22", "GI/PVC/HDPE Pipe Removal");
    ("23", "Pipe Cutting");
    ("24", "Pipe Cutting");
    ("25", "Drilling & Tapping");
    ("26", "Road Cutting");
    ("27", "Dewatering");
    ("28", "Shoring & Strutting");
    ("29", "Barricading");
    ("30", "Underwater Excavation");
    ("31", "Infiltration Gallery");
    ("32", "Infiltration Gallery");
    ("33", "Centering & Scaffolding");
    ("34", "Lift & Delift");
    ("35", "Fixtures Labour");
    ("36", "Sanitary Fixtures Labour");
    ("37", "Sanitary Fixtures Labour");
    ("38", "Sanitary Fixtures Labour");
    ("39", "Sanitary Fixtures Labour");
    ("40", "Trench Refilling");
    ("41a", "Miscellaneous");
    ("41b", "Miscellaneous");
    ("42", "Silt Removal");
    ("43", "Pipe Conveyance");
    ("44", "Pipe Conveyance");
    ("45", "Pipe Conveyance");
    ("46", "Pipe Conveyance");
    ("47", "Pipe Conveyance");
    ("48", "Well Sinking");
    ("49", "Well Sinking");
    ("50", "Well Excavation");
    ("51", "OHSR / ELSR Rates (Kilo Litres)");
    ("52", "OHSR / ELSR Rates (Litres)");
    ("53", "Filtration Plant Construction")
  ].

(** ** The documents *)

Record Item : Type := {
  id : nat;
  section_item_no : value;
  dimension : option string;
  unit : option string;
  rate : value;
  rate_type : string;
}.

Record SubSection : Type := {
  sub_id : string;
  description : option string;
  ss_items : list Item;           (* items *)
}.

Record Section : Type := {
  s_id : nat;                     (* id *)
  item_no : value;
  item_key : string;
  category : option string;
  title : option string;
  s_unit : option string;         (* unit *)
  s_rate : value;                 (* rate *)
  sub_sections : list SubSection;
  s_items : list Item;            (* items *)
  notes : list string;
}.

Record Result : Type := {
  r_title : string;               (* title *)
  year : string;
  source_file : string;
  parsed_at : string;
  r_sections : list Section;      (* sections *)
}.

(** ** The builder *)

(** The cursors are references into [sections], as in [Mongo.State].
    ([pendingDesc] and [pendingDescTarget] are never used.) *)
Record State : Type := {
  sections : list Section;
  currentSection : option nat;
  currentSubSection : option nat;
  sectionIdCounter : nat;
  itemIdCounter : nat;
}.

Definition init : State :=
  {| sections := []; currentSection := None; currentSubSection := None;
     sectionIdCounter := 0; itemIdCounter := 0 |}.

Definition with_sub_sections (sec : Section) (l : list SubSection) : Section :=
  {| s_id := s_id sec; item_no := item_no sec; item_key := item_key sec;
     category := category sec; title := title sec; s_unit := s_unit sec;
     s_rate := s_rate sec; sub_sections := l; s_items := s_items sec;
     notes := notes sec |}.

Definition with_items (sec : Section) (l : list Item) : Section :=
  {| s_id := s_id sec; item_no := item_no sec; item_key := item_key sec;
     category := category sec; title := title sec; s_unit := s_unit sec;
     s_rate := s_rate sec; sub_sections := sub_sections sec; s_items := l;
     notes := notes sec |}.

Definition with_ss_items (ss : SubSection) (l : list Item) : SubSection :=
  {| sub_id := sub_id ss; description := description ss; ss_items := l |}.

(** [it.rate = r] *)
Definition with_rate (it : Item) (r : value) : Item :=
  {| id := id it; section_item_no := section_item_no it;
     dimension := dimension it; unit := unit it; rate := r;
     rate_type := rate_type it |}.

Definition the_section (st : State) : result Section :=
  i ← deref (currentSection st); deref (sections st !! i).

Definition set_section (st : State) (sec : Section) : result State :=
  i ← deref (currentSection st);
  Ok {| sections := <[i := sec]> (sections st);
        currentSection := currentSection st;
        currentSubSection := currentSubSection st;
        sectionIdCounter := sectionIdCounter st;
        itemIdCounter := itemIdCounter st |}.

(** [sectionIdCounter++; currentSection = mk(sectionIdCounter);
     currentSubSection = null; result.sections.push(currentSection)] *)
Definition open_section (st : State) (mk : nat -> Section) : State :=
  {| sections := sections st ++ [mk (S (sectionIdCounter st))];
     currentSection := Some (length (sections st));
     currentSubSection := None;
     sectionIdCounter := S (sectionIdCounter st);
     itemIdCounter := itemIdCounter st |}.

Definition open_sub_section (st : State) (ss : SubSection) : result State :=
  i ← deref (currentSection st);
  sec ← deref (sections st !! i);
  Ok {| sections :=
          <[i := with_sub_sections sec (sub_sections sec ++ [ss])]> (sections st);
        currentSection := Some i;
        currentSubSection := Some (length (sub_sections sec));
        sectionIdCounter := sectionIdCounter st;
        itemIdCounter := itemIdCounter st |}.

(** [itemIdCounter++] *)
Definition next_item (st : State) : State :=
  {| sections := sections st; currentSection := currentSection st;
     currentSubSection := currentSubSection st;
     sectionIdCounter := sectionIdCounter st;
     itemIdCounter := S (itemIdCounter st) |}.

(** [currentSubSection.items.push(it)] or [currentSection.items.push(it)],
    lines 238-242. *)
Definition push_item (st : State) (it : Item) : result State :=
  sec ← the_section st;
  match currentSubSection st with
  | Some j =>
      ss ← deref (sub_sections sec !! j);
      set_section st
        (with_sub_sections sec
           (<[j := with_ss_items ss (ss_items ss ++ [it])]> (sub_sections sec)))
  | None => set_section st (with_items sec (s_items sec ++ [it]))
  end.

Record Cells : Type := {
  sno : value;
  desc : option string;
  c_unit : option string;         (* unit *)
  c_rate : value;                 (* rate *)
}.

Definition normalise (r : row) : Cells :=
  {| sno := match cell r 1 with VStr s => VStr (trim s) | v => v end;
     desc := cleanStr (cell r 2);
     c_unit := cleanStr (cell r 3);
     c_rate := parseRate (cell r 4) |}.

(** [String(sno).replace(/\.\s*/g, '').replace(/\s+/g, '').toLowerCase()] *)
Definition header_key (sno : value) : string :=
  toLowerCase (delete_runs is_ws (delete_with_ws "." false (to_string sno))).

(** [String(sno).replace(/[\s.]/g, '')] *)
Definition simple_key (sno : value) : string :=
  sfilter (fun c => negb (is_ws c || ascii_eqb c ".")) (to_string sno).

(** [(11[ab]|41[ab]|18[ab])], flag [i] *)
Definition re_simple : regex :=
  let ab := Alt (Chr (eq_ci "a")) (Chr (eq_ci "b")) in
  Alt (Cat (LitCI "11") ab) (Alt (Cat (LitCI "41") ab) (Cat (LitCI "18") ab)).

(** [DIA (in|of) (mm|pipe)], flag [i] *)
Definition re_dia : regex :=
  Cat (LitCI "DIA ") (Cat (Alt (LitCI "in") (LitCI "of"))
    (Cat (LitCI " ") (Alt (LitCI "mm") (LitCI "pipe")))).

(** The guards of the rules, in the order of the loop body. *)
Definition is_blank (c : Cells) : bool :=
  negb (truthy (sno c)) && negb (truthy_s (desc c))
  && negb (truthy_s (c_unit c)) && is_null (c_rate c).

Definition is_note (c : Cells) : bool :=
  negb (truthy (sno c)) && is_null_s (c_unit c) && is_null (c_rate c)
  && isNoteRow (desc c).

Definition is_continuation (c : Cells) : bool :=
  negb (truthy (sno c)) && is_null_s (c_unit c) && is_null (c_rate c)
  && truthy_s (desc c) && startsWith " " (default "null" (desc c)).

Definition is_header (c : Cells) : bool :=
  isSectionHeader (sno c) (desc c) (c_unit c) (c_rate c).

Definition is_sub (st : State) (c : Cells) : bool :=
  isSubHeader (sno c) (desc c) (c_unit c) (c_rate c)
  && not_null (currentSection st).

Definition is_simple_item (c : Cells) : bool :=
  truthy (sno c) && test_full re_simple (simple_key (sno c)).

Definition is_rate_item (st : State) (c : Cells) : bool :=
  not_null (currentSection st) && truthy_s (c_unit c)
  && negb (is_null (c_rate c)).

Definition is_rate_only (st : State) (c : Cells) : bool :=
  not_null (currentSection st) && negb (is_null (c_rate c))
  && negb (truthy_s (c_unit c)).

Definition is_descriptive (st : State) (c : Cells) : bool :=
  not_null (currentSection st) && truthy_s (desc c)
  && negb (truthy (sno c)).

Definition is_diameter_header (d : string) : bool :=
  test_search (LitCI "DIAMETER OF PIPE") d || test_search re_dia d.

Definition is_pipes_header (d : string) : bool :=
  test_search (LitCI "G.I. PIPES") d || test_search (LitCI "PVC/HDPE pipes") d.

(** The section of a section-header row, lines 176-189; [n] is the
    counter after [sectionIdCounter++]. *)
Definition header_section (c : Cells) (n : nat) : Section :=
  let snoKey := header_key (sno c) in
  {| s_id := n; item_no := sno c; item_key := snoKey;
     category :=
       or_else (or_else (SECTION_CATEGORIES !! to_string (sno c))
                        (SECTION_CATEGORIES !! snoKey))
               (Some "General");
     title := desc c;
     s_unit := or_else (c_unit c) None;
     s_rate := c_rate c;
     sub_sections := []; s_items := []; notes := [] |}.

(** The section of a simple-item row, lines 209-221. *)
Definition simple_section (c : Cells) (n : nat) : Section :=
  let snoKey := toLowerCase (simple_key (sno c)) in
  {| s_id := n; item_no := sno c; item_key := snoKey;
     category := or_else (SECTION_CATEGORIES !! snoKey) (Some "General");
     title := desc c;
     s_unit := c_unit c;
     s_rate := c_rate c;
     sub_sections := []; s_items := []; notes := [] |}.

(** The item of a row with a rate and no unit, lines 254-261; [n] is
    the counter after [itemIdCounter++]. *)
Definition flat_item (c : Cells) (sec : Section) (n : nat) : Item :=
  {| id := n; section_item_no := item_no sec;
     dimension := desc c; unit := None; rate := c_rate c;
     rate_type := if is_number (c_rate c) then "numeric" else "formula" |}.

(** The body of the loop of [parsePublicHealthXLSX], lines 158-281. *)
Definition step (st : State) (r : row) : result State :=
  let c := normalise r in
  if is_blank c then Ok st
  else if is_note c then Ok st
  else if is_continuation c then Ok st
  else if is_header c then Ok (open_section st (header_section c))
  else if is_sub st c then
    open_sub_section st
      {| sub_id := trim (to_string (sno c)); description := desc c;
         ss_items := [] |}
  else if is_simple_item c then Ok (open_section st (simple_section c))
  else if is_rate_item st c then
    let st1 := next_item st in
    sec ← the_section st1;
    u ← deref (c_unit c);
    push_item st1
      {| id := itemIdCounter st1;
         section_item_no := item_no sec;
         dimension :=
           match desc c with
           | Some d =>
               if truthy_s (desc c)
               then Some (trim (strip_suffix (LitCI "mm") d)) else None
           | None => None
           end;
         unit := Some (trim u);
         rate := c_rate c;
         rate_type := if is_number (c_rate c) then "numeric" else "formula" |}
  else if is_rate_only st c then
    sec ← the_section st;
    let lastItem := s_items sec !! (length (s_items sec) - 1)%nat in
    match lastItem with
    | Some it =>
        if negb (truthy (rate it)) then
          set_section st
            (with_items sec
               (<[(length (s_items sec) - 1)%nat := with_rate it (c_rate c)]>
                  (s_items sec)))
        else
          let st1 := next_item st in
          set_section st1
            (with_items sec
               (s_items sec ++ [flat_item c sec (itemIdCounter st1)]))
    | None =>
        let st1 := next_item st in
        set_section st1
          (with_items sec
             (s_items sec ++ [flat_item c sec (itemIdCounter st1)]))
    end
  else if is_descriptive st c then
    d ← deref (desc c);
    if is_diameter_header d then Ok st
    else if is_pipes_header d then
      sec ← the_section st;
      open_sub_section st
        {| sub_id :=
             "auto_" +:+ N_to_string (N.of_nat (length (sub_sections sec) + 1));
           description := desc c; ss_items := [] |}
    else Ok st
  else Ok st.

Fixpoint run (st : State) (rows : list row) : result State :=
  match rows with
  | [] => Ok st
  | r :: rs => st' ← step st r; run st' rs
  end.

(** [parsePublicHealthXLSX(filePath)] on the rows of the sheet; [now] is
    what [new Date().toISOString()] returns. *)
Definition parsePublicHealthXLSX (filePath now : string) (rows : list row)
  : result Result :=
  st ← run init (drop 2 rows);
  Ok {| r_title := "Public Health Items - Schedule of Standard Rates";
        year := "2005-06";
        source_file := after_last "/" filePath;
        parsed_at := now;
        r_sections := sections st |}.

(** ** Notions used in the statements *)

(** The cursors refer to objects that exist. *)
Definition wf (st : State) : Prop :=
  match currentSection st with
  | None => currentSubSection st = None
  | Some i =>
      exists sec, sections st !! i = Some sec /\
        forall j, currentSubSection st = Some j ->
          is_Some (sub_sections sec !! j)
  end.

(** The two cases of lines 249-262, on the items [l] of the current
    section, which become [l'], and the counter [n] of the items, which
    becomes [n']. *)
Definition repaired (c : Cells) (sec : Section) (n : nat) (l l' : list Item)
  (n' : nat) : Prop :=
  (exists l0 it, l = l0 ++ [it] /\ truthy (rate it) = false
                 /\ l' = l0 ++ [with_rate it (c_rate c)] /\ n' = n)%list
  \/ (~ (exists l0 it, l = l0 ++ [it] /\ truthy (rate it) = false) /\
      l' = l ++ [flat_item c sec (S n)] /\ n' = S n)%list.

(** The free-text rows that open a sub-section, lines 268-279. *)
Definition is_auto_sub (st : State) (c : Cells) : bool :=
  is_descriptive st c
  && negb (is_diameter_header (default "null" (desc c)))
  && is_pipes_header (default "null" (desc c)).

(** A rule that changes the state takes the row. *)
Definition matches_rule (st : State) (c : Cells) : bool :=
  negb (is_blank c) && negb (is_note c) && negb (is_continuation c)
  && (is_header c || is_sub st c || is_simple_item c || is_rate_item st c
      || is_rate_only st c || is_auto_sub st c).

End PH.

(* ================================================================== *)
(** * seed.js and models/labourRates.js *)
(* ================================================================== *)

Module Seed.
Import JS.

(** What [importExcel] hands to [LabourRate.insertMany]. *)
Record LabourRate : Type := {
  year : string;
  category : option string;
  subCategory : option string;
  description : string;
  unit : string;
  rate : value;
}.

(** The [enum] of [category] in [labourRateSchema]. *)
Definition category_enum : list string :=
  ["Skilled"; "Semi-Skilled"; "Unskilled"; "Conveyance"].

Record State : Type := {
  currentSection : option string;
  currentSubSection : option string;
  finalData : list LabourRate;
}.

Definition init : State :=
  {| currentSection := None; currentSubSection := None; finalData := [] |}.

Definition set_section (st : State) (s : string) : State :=
  {| currentSection := Some s; currentSubSection := None;
     finalData := finalData st |}.

Definition set_sub_section (st : State) (s : string) : State :=
  {| currentSection := currentSection st; currentSubSection := Some s;
     finalData := finalData st |}.

(** [v ? String(v).trim() : ''], with [''] the empty text *)
Definition text_of (v : value) : string :=
  if truthy v then trim (to_string v) else EmptyString.

(** The body of the loop of [importExcel], lines 78-140. *)
Definition step (st : State) (r : row) : State :=
  let description := text_of (cell r 2) in
  let unit := text_of (cell r 3) in
  let rate := cell r 4 in
  if String.eqb description EmptyString then st
  else
    let lowerDesc := toLowerCase description in
    if includes "skilled workmen" lowerDesc then set_section st "Skilled"
    else if includes "semi-skilled" lowerDesc then set_section st "Semi-Skilled"
    else if includes "unskilled" lowerDesc then set_section st "Unskilled"
    else if includes "other conveyance" lowerDesc then set_section st "Conveyance"
    else if includes "first class" lowerDesc then set_sub_section st "First Class"
    else if includes "second class" lowerDesc then set_sub_section st "Second Class"
    else if includes "operator" lowerDesc then set_sub_section st "Operator"
    else if negb (truthy_s (currentSection st)) then st
    else if is_null rate then st
    else if negb (is_number rate) then st
    else
      {| currentSection := currentSection st;
         currentSubSection := currentSubSection st;
         finalData := finalData st ++ [
           {| year := "2005-06";
              category := currentSection st;
              subCategory := or_else (currentSubSection st) None;
              description := description;
              unit := unit;
              rate := rate |}] |}.

(** The records [importExcel] inserts, on the rows of the sheet. *)
Definition importExcel (rows : list row) : list LabourRate :=
  finalData (fold_left step rows init).

(** ** Notions used in the statements *)

(** What [labourRateSchema] requires of [year], [category],
    [description] and [rate]: present, of the type of the field, and
    for [category] one of the [enum]. *)
Definition valid (rec : LabourRate) : Prop :=
  year rec = "2005-06"
  /\ (exists c, category rec = Some c /\ c ∈ category_enum)
  /\ description rec <> EmptyString
  /\ is_number (rate rec) = true.

(** [currentSection] is [null] or one of the [enum]. *)
Definition section_ok (st : State) : Prop :=
  match currentSection st with
  | None => True
  | Some c => c ∈ category_enum
  end.

End Seed.

(* ================================================================== *)
(** * The words of the specification *)
(* ================================================================== *)

Module Spec.
Import JS.

(** The canonical key as the specification words it: absent for an
    absent item number, otherwise its text with all white space and
    all ['.'] removed, in lower case. *)
Definition canonicalKey (itemNo : value) : option string :=
  match itemNo with
  | VNull => None
  | _ =>
      Some (toLowerCase
              (sfilter (fun c => negb (is_ws c) && negb (ascii_eqb c "."))
                 (to_string itemNo)))
  end.

(** The category resolver as the specification words it: the canonical
    key first, then the raw item number as a string, then ["General"]. *)
Definition resolve (table : gmap string string) (key raw : string) : string :=
  match table !! key with
  | Some c => c
  | None =>
      match table !! raw with
      | Some c => c
      | None => "General"
      end
  end.

(** The category of a section is the one the resolver of the
    specification gives for its key and its item number. *)
Definition sec_cat (sec : Mongo.Section) : Prop :=
  exists k, Mongo.item_key sec = Some k /\
    Mongo.category sec
    = Some (Spec.resolve Mongo.CATEGORY_MAP k (JS.to_string (Mongo.item_no sec))).

(** The shape of the item number of a section header as the
    specification words it: digits, an optional dot, an optional single
    letter, an optional dot, with the white space that the example
    ["3 a."] has after the digits and after the first dot. *)
Fixpoint all_of (p : ascii -> bool) (s : string) : Prop :=
  match s with
  | EmptyString => True
  | String c r => p c = true /\ all_of p r
  end.

Definition optional (p : ascii -> bool) (s : string) : Prop :=
  s = EmptyString \/ exists c, p c = true /\ s = String c EmptyString.

Definition header_shape (s : string) : Prop :=
  exists ds w1 d1 w2 l d2,
    s = ds +:+ w1 +:+ d1 +:+ w2 +:+ l +:+ d2
    /\ ds <> EmptyString /\ all_of is_digit ds
    /\ all_of is_ws w1 /\ optional (ascii_eqb ".") d1
    /\ all_of is_ws w2 /\ optional is_letter l
    /\ optional (ascii_eqb ".") d2.

End Spec.

(* ================================================================== *)
(** * Further notions used in the statements *)
(* ================================================================== *)

Module Text.
Import JS.

(** A text without white space at its ends, whose only white space is
    single spaces between other characters; [after_space] says that the
    character before was a space, or that the text starts here. The
    empty text is not of this form. *)
Fixpoint tidy_from (after_space : bool) (s : string) : bool :=
  match s with
  | EmptyString => negb after_space
  | String c r =>
      if ascii_eqb c " " then negb after_space && tidy_from true r
      else negb (is_ws c) && tidy_from false r
  end.

Definition tidy (s : string) : bool := tidy_from true s.

(** The last character is not white space; [b] says whether the
    character before the text is. *)
Fixpoint ends_ok (b : bool) (s : string) : bool :=
  match s with
  | EmptyString => negb b
  | String c r => ends_ok (is_ws c) r
  end.

(** A character of a canonical key: no white space, no dot, no
    upper-case letter. *)
Definition key_char (c : ascii) : bool :=
  negb (is_ws c) && negb (ascii_eqb c ".") && negb (is_upper c).

End Text.

(** The rows of the sheet as the loop of [parseExcel] sorts them. *)
Module Rows.
Import JS Regex Mongo.

(** The rows that open a section, lines 167-183. *)
Definition opens (c : Cells) : bool :=
  negb (is_blank c) && (is_compound c || is_header c).

(** The section such a row opens. *)
Definition opened (c : Cells) : Section :=
  buildSection (sno c) (key c) (desc c) (c_unit c) (c_rate c).

(** A section as it was opened: without its sub-sections and items. *)
Definition bare (sec : Section) : Section :=
  with_sub_sections (with_items sec []) [].

(** The free-text rows of line 193 that name a kind of pipes. *)
Definition auto_text (c : Cells) : bool :=
  negb (truthy (sno c)) && truthy_s (desc c) && negb (isSkip (desc c))
  && test_search re_auto (default "null" (desc c)).

(** Inside a section, the rows that open a sub-section, lines 186-203, *)
Definition opens_sub (c : Cells) : bool :=
  negb (is_blank c) && negb (is_compound c) && negb (is_header c)
  && (isSubSection (sno c) (c_unit c) (c_rate c) || auto_text c).

(** and the rows that come to one of the two rules for rates, lines
    206-223. *)
Definition adds_item (c : Cells) : bool :=
  negb (is_blank c) && negb (is_compound c) && negb (is_header c)
  && negb (isSubSection (sno c) (c_unit c) (c_rate c)) && negb (auto_text c)
  && negb (is_null (c_rate c))
  && (truthy_s (c_unit c) || negb (truthy (sno c))).

(** The list from its first element of a kind on. *)
Fixpoint from_first {A : Type} (p : A -> bool) (l : list A) : list A :=
  match l with
  | [] => []
  | x :: r => if p x then l else from_first p r
  end.

(** The index of the last element of a list, if it has one. *)
Definition last_index {A : Type} (l : list A) : option nat :=
  match l with
  | [] => None
  | _ => Some (length l - 1)%nat
  end.

(** The cursors refer to the section that was opened last and to the
    sub-section of it that was opened last: [currentSection] is null
    only when there is no section, [currentSubSection] only when the
    last section has no sub-section. *)
Definition at_end (st : State) : Prop :=
  currentSection st = last_index (sections st)
  /\ currentSubSection st
     = match last (sections st) with
       | Some sec => last_index (sub_sections sec)
       | None => None
       end.

(** The type of the rate of an item is the one its [rate_type] names,
    and a rate that is a text does not start with a number. *)
Definition typed (it : RateItem) : Prop :=
  match rate it with
  | VNull => False
  | VNum _ => rate_type it = "numeric"
  | VStr s =>
      rate_type it = "formula" /\ s <> EmptyString /\ parseFloat s = NaN
  end.

(** Every item of the section, its own or of a sub-section, is typed. *)
Definition sec_typed (sec : Section) : Prop :=
  Forall typed (s_items sec)
  /\ Forall (fun ss => Forall typed (ss_items ss)) (sub_sections sec).

(** The items of a section, its own and then those of its
    sub-sections, and the items of all sections. *)
Definition items_of (sec : Section) : list RateItem :=
  (s_items sec ++ concat (map ss_items (sub_sections sec)))%list.

Definition all_items (secs : list Section) : list RateItem :=
  concat (map items_of secs).

End Rows.

(** The counts of the metadata document of [storeToMongoDB], lines
    306-310. *)
Module Meta.
Import Mongo.

Definition total_sections (sections : list Section) : nat := length sections.

Definition total_items (sections : list Section) : nat :=
  fold_left
    (fun sum s =>
       sum + length (s_items s)
       + fold_left (fun a ss => a + length (ss_items ss)) (sub_sections s) 0)
    sections 0.

(** The items of one section: what [total_items] adds up. *)
Definition items_in (s : Section) : nat :=
  length (s_items s)
  + list_sum (map (fun ss => length (ss_items ss)) (sub_sections s)).

(** The sub-sections of all sections, counted in the same way. *)
Definition total_sub_sections (sections : list Section) : nat :=
  list_sum (map (fun s => length (sub_sections s)) sections).

End Meta.

(** The rows of the sheet as the loop of [parsePublicHealthXLSX] sorts
    them, and the items of its result. *)
Module PHRows.
Import JS PH.

(** The rows that open a section, lines 166-225. *)
Definition opens (c : Cells) : bool :=
  negb (is_blank c) && negb (is_note c) && negb (is_continuation c)
  && (is_header c || is_simple_item c).

(** The section such a row opens when the counter of the sections has
    become [n]: lines 175-189 for a header, lines 208-221 otherwise. *)
Definition opened (c : Cells) (n : nat) : Section :=
  if is_header c then header_section c n else simple_section c n.

(** A section as it was opened: without its sub-sections and items. *)
Definition bare (sec : Section) : Section :=
  with_sub_sections (with_items sec []) [].

(** The items of a section, its own and then those of its
    sub-sections, and the items of all sections. *)
Definition items_of (sec : Section) : list Item :=
  (s_items sec ++ concat (map ss_items (sub_sections sec)))%list.

Definition all_items (secs : list Section) : list Item :=
  concat (map items_of secs).

(** What ties an item to its place: its number and the item number of
    its section. *)
Definition stamp (it : Item) : nat * value := (id it, section_item_no it).

(** Every item of the section names the section. *)
Definition refers (sec : Section) : Prop :=
  Forall (fun it => section_item_no it = item_no sec) (items_of sec).

(** What a row does that neither opens a section nor leaves the state
    as it is: the current section [sec] becomes [sec'], with no new
    item or with one, which gets the next number. *)
Definition grows (st st' : State) : Prop :=
  exists i sec sec' added,
    currentSection st = Some i /\ sections st !! i = Some sec
    /\ sections st' = <[i := sec']> (sections st)
    /\ sectionIdCounter st' = sectionIdCounter st
    /\ bare sec' = bare sec
    /\ Permutation (map stamp (items_of sec'))
         (added ++ map stamp (items_of sec))
    /\ ((added = [] /\ itemIdCounter st' = itemIdCounter st)
        \/ (added = [(S (itemIdCounter st), item_no sec)]
            /\ itemIdCounter st' = S (itemIdCounter st))).

(** The sections are numbered from 1 on in their order, the items
    carry the numbers from 1 to the counter, each once, and every item
    names its section. *)
Definition numbered (st : State) : Prop :=
  map s_id (sections st) = seq 1 (sectionIdCounter st)
  /\ Permutation (map fst (map stamp (all_items (sections st))))
       (seq 1 (itemIdCounter st))
  /\ Forall refers (sections st).

(** Inside a section, the rows that come to the rule for the rows with
    a unit and a rate, lines 228-244, *)
Definition rate_item_row (c : Cells) : bool :=
  negb (is_blank c) && negb (is_note c) && negb (is_continuation c)
  && negb (is_header c)
  && negb (isSubHeader (sno c) (desc c) (c_unit c) (c_rate c))
  && negb (is_simple_item c)
  && truthy_s (c_unit c) && negb (is_null (c_rate c)).

(** and the rows that come to the rule for the rows with a rate and no
    unit, lines 247-264. *)
Definition rate_only_row (c : Cells) : bool :=
  negb (is_blank c) && negb (is_note c) && negb (is_continuation c)
  && negb (is_header c)
  && negb (isSubHeader (sno c) (desc c) (c_unit c) (c_rate c))
  && negb (is_simple_item c)
  && negb (truthy_s (c_unit c)) && negb (is_null (c_rate c)).

(** The test of line 250: the current section has a last item, and its
    rate is falsy. *)
Definition overwrites (st : State) : bool :=
  match the_section st with
  | Ok sec =>
      match s_items sec !! (length (s_items sec) - 1)%nat with
      | Some it => negb (truthy (rate it))
      | None => false
      end
  | TypeError => false
  end.

(** The items of [l] whose rate is not falsy are in [l'], each at its
    place and as it was. *)
Definition keeps (l l' : list Item) : Prop :=
  forall k it, l !! k = Some it -> truthy (rate it) = true -> l' !! k = Some it.

(** Every section of [st] is in [st'] at its place, with what it was
    opened with, and so is every sub-section and every item whose rate
    is not falsy. *)
Definition rates_kept (st st' : State) : Prop :=
  forall i sec, sections st !! i = Some sec ->
    exists sec', sections st' !! i = Some sec' /\ bare sec' = bare sec /\
      keeps (s_items sec) (s_items sec') /\
      forall j ss, sub_sections sec !! j = Some ss ->
        exists ss', sub_sections sec' !! j = Some ss' /\
          keeps (ss_items ss) (ss_items ss').

End PHRows.

(** What publichealth.js prints after the parse, lines 299-305. *)
Module Tail.
Import PH.

Definition sections_found (parsed : Result) : nat :=
  length (r_sections parsed).

Definition totalItems (parsed : Result) : nat :=
  fold_left
    (fun sum s =>
       let direct := length (s_items s) in
       let nested :=
         fold_left (fun a ss => a + length (ss_items ss)) (sub_sections s) 0 in
       sum + direct + nested)
    (r_sections parsed) 0.

End Tail.

(** The rows of the sheet as the loop of [importExcel] sorts them. *)
Module SeedRows.
Import JS Seed.

(** The descriptions, in lower case, that name a section or a
    sub-section, lines 87-125. *)
Definition names_group (lowerDesc : string) : bool :=
  includes "skilled workmen" lowerDesc
  || includes "semi-skilled" lowerDesc
  || includes "unskilled" lowerDesc
  || includes "other conveyance" lowerDesc
  || includes "first class" lowerDesc
  || includes "second class" lowerDesc
  || includes "operator" lowerDesc.

(** What a record takes from its row. *)
Definition of_row (r : row) : string * string * value :=
  (text_of (cell r 2), text_of (cell r 3), cell r 4).

Definition taken (rec : LabourRate) : string * string * value :=
  (description rec, unit rec, rate rec).

(** The values of [subCategory]. *)
Definition sub_categories : list (option string) :=
  [None; Some "First Class"; Some "Second Class"; Some "Operator"].

End SeedRows.

(* ================================================================== *)
(** * excel-to-json.js *)
(* ================================================================== *)

Module ExcelToJson.
Import JS Regex.

(** ** Helpers *)

(** [String(raw).replace(/\s+/g, ...).replace(/\./g, ...).toLowerCase()],
    both replacements by the empty text *)
Definition normaliseItemNo (raw : value) : string :=
  toLowerCase
    (sfilter (fun c => negb (ascii_eqb c "."))
       (delete_runs is_ws (to_string raw))).

(** [\d+\.\s*[a-z]\.] *)
Definition re_lettered : regex :=
  Cat (Plus (Chr is_digit))
   (Cat (Chr (ascii_eqb "."))
    (Cat (Star (Chr is_ws))
     (Cat (Chr is_lower) (Chr (ascii_eqb "."))))).

Definition isItemNo (v : value) : bool :=
  match v with
  | VNull => false
  | _ =>
      let s := trim (to_string v) in
      if test_full (Plus (Chr is_digit)) s then true
      else if test_full re_lettered (toLowerCase s) then true
      else false
  end.

Definition isDiameterHeader (v : value) : bool :=
  match v with
  | VStr s => startsWith "DIAMETER OF PIPE" (toUpperCase (trim s))
  | _ => false
  end.

(** [typeof v === "string"] *)
Definition is_string (v : value) : bool :=
  match v with VStr _ => true | _ => false end.

Definition isDataRow (col1 col2 col3 col4 : value) : bool :=
  is_null col1 && is_number col2 && is_string col3 && is_number col4.

Definition isSectionHeader (col1 col2 col3 col4 : value) : bool :=
  isItemNo col1 && negb (is_null col2) && is_null col3 && is_null col4.

(** ** The items *)

Record Rate : Type := {
  diameter : number;
  rate : number;
}.

Record Item : Type := {
  itemNo : string;
  title : string;
  unit : option string;
  rates : list Rate;
}.

(** ** The parser *)

(** [items] is the output array; [current] is the item under way, which
    is not in the array before it is pushed. *)
Record State : Type := {
  items : list Item;
  current : option Item;
}.

Definition init : State := {| items := []; current := None |}.

(** [items] after [if (current) items.push(current)] *)
Definition flush (st : State) : list Item :=
  match current st with
  | Some cur => items st ++ [cur]
  | None => items st
  end.

Section Rounding.

(** [n.toFixed(2)]: the text of [n] rounded to two decimals. What is
    proved of the parser holds for every such function. *)
Variable toFixed2 : number -> string.

(** The body of the loop of [parseSheet], lines 107-143. *)
Definition step (st : State) (r : row) : State :=
  let col1 := cell r 0 in
  let col2 := cell r 1 in
  let col3 := cell r 2 in
  let col4 := cell r 3 in
  if isSectionHeader col1 col2 col3 col4 then
    {| items := flush st;
       current :=
         Some {| itemNo := normaliseItemNo col1;
                 title := trim (to_string col2);
                 unit := None;
                 rates := [] |} |}
  else if isDiameterHeader col2 then st
  else if isDataRow col1 col2 col3 col4 && not_null (current st) then
    match col2, col3, col4, current st with
    | VNum d, VStr u, VNum n, Some cur =>
        {| items := items st;
           current :=
             Some {| itemNo := itemNo cur;
                     title := title cur;
                     unit :=
                       match unit cur with
                       | None => Some (trim u)
                       | Some _ => unit cur
                       end;
                     rates :=
                       rates cur
                       ++ [{| diameter := d;
                              rate := parseFloat (toFixed2 n) |}] |} |}
    | _, _, _, _ => st
    end
  else st.

(** [parseSheet], on the rows of the sheet. *)
Definition parseSheet (rows : list row) : list Item :=
  flush (fold_left step rows init).

End Rounding.

(** The counts that [main] writes and prints, lines 224 and 241. *)
Definition totalItems (items : list Item) : nat := length items.

Definition totalEntries (items : list Item) : nat :=
  fold_left (fun sum i => sum + length (rates i)) items 0.

(** ** Notions used in the statements *)

(** The rows that open an item, and the rows that hold a rate. *)
Definition header_row (r : row) : bool :=
  isSectionHeader (cell r 0) (cell r 1) (cell r 2) (cell r 3).

Definition data_row (r : row) : bool :=
  isDataRow (cell r 0) (cell r 1) (cell r 2) (cell r 3).

(** The item that a row opens. *)
Definition opened (r : row) : Item :=
  {| itemNo := normaliseItemNo (cell r 0);
     title := trim (to_string (cell r 1));
     unit := None;
     rates := [] |}.

(** An item as it was opened: without its unit and rates. *)
Definition bare (it : Item) : Item :=
  {| itemNo := itemNo it; title := title it; unit := None; rates := [] |}.

(** The unit of an item is there when one of its rates is. *)
Definition unit_with_rates (it : Item) : Prop :=
  unit it = None <-> rates it = [].

End ExcelToJson.

(* ================================================================== *)
(** * The scenarios of the specification *)
(* ================================================================== *)

Example parseFloat_ex1 : JS.parseFloat "245.50" = JS.Fin false 2455 1.
Proof. reflexivity. Qed.

Example parseFloat_ex2 : JS.parseFloat "  -1.5e3xyz" = JS.Fin true 1500 0.
Proof. vm_compute. reflexivity. Qed.

Example num_to_string_ex :
  map JS.num_to_string
    [JS.of_Z 120; JS.Fin false 24550 2; JS.Fin true 35 1; JS.Fin false 1 7;
     JS.Fin false 1 0; JS.NaN]
  = ["120"; "245.5"; "-3.5"; "1e-7"; "1"; "NaN"].
Proof. vm_compute. reflexivity. Qed.

(** The end-to-end scenario: a header row, then a row with a unit and
    a rate. *)
Example end_to_end :
  Mongo.parseExcel
    [[]; [];
     [JS.VNull; JS.VNum (JS.of_Z 1); JS.VStr "RATES OF LABOUR"; JS.VNull; JS.VNull];
     [JS.VNull; JS.VNull; JS.VStr "80"; JS.VStr "rm"; JS.VNum (JS.of_Z 120)]]
  = JS.Ok
      [{| Mongo.item_no := JS.VNum (JS.of_Z 1);
          Mongo.item_key := Some "1";
          Mongo.category := Some "Labour Rates";
          Mongo.title := Some "RATES OF LABOUR";
          Mongo.s_unit := None; Mongo.s_rate := JS.VNull;
          Mongo.s_rate_type := None;
          Mongo.sub_sections := [];
          Mongo.s_items :=
            [{| Mongo.dimension := Some "80"; Mongo.unit := Some "rm";
                Mongo.rate := JS.VNum (JS.of_Z 120);
                Mongo.rate_type := "numeric" |}] |}].
Proof. vm_compute. reflexivity. Qed.

(* ================================================================== *)
(** * Properties of the store of storeToMongoDB.js *)
(* ================================================================== *)

Section MongoStore.
Import JS Mongo.

Lemma wf_init : wf init.
Proof. reflexivity. Qed.

Lemma wf_open_section st sec : wf (open_section st sec).
Proof.
  unfold wf, open_section; simpl.
  exists sec. split; [apply list_lookup_middle; reflexivity | intros j Hj; discriminate].
Qed.

Lemma the_section_some st i sec :
  currentSection st = Some i -> sections st !! i = Some sec ->
  the_section st = Ok sec.
Proof. intros Hi Hs. unfold the_section. rewrite Hi. simpl. rewrite Hs. reflexivity. Qed.

Lemma open_sub_section_ok st ss :
  wf st -> not_null (currentSection st) = true ->
  exists st', open_sub_section st ss = Ok st' /\ wf st'.
Proof.
  unfold wf, open_sub_section. destruct (currentSection st) as [i|]; [|discriminate].
  intros (sec & Hs & _) _. simpl. rewrite Hs. simpl.
  eexists; split; [reflexivity|]. simpl.
  exists (with_sub_sections sec (sub_sections sec ++ [ss])). split.
  - apply list_lookup_insert_eq. eapply lookup_lt_Some; eassumption.
  - intros j [= <-]. simpl. exists ss. apply list_lookup_middle. reflexivity.
Qed.

Lemma target_ok st :
  wf st -> not_null (currentSection st) = true ->
  exists l, target st = Ok l.
Proof.
  unfold wf, target, the_sub_section, the_section.
  destruct (currentSection st) as [i|]; [|discriminate].
  intros (sec & Hs & Hsub) _. simpl. rewrite Hs. simpl.
  destruct (currentSubSection st) as [j|]; simpl.
  - destruct (Hsub j eq_refl) as [ss ->]. simpl. eauto.
  - eauto.
Qed.

Lemma set_target_ok st l :
  wf st -> not_null (currentSection st) = true ->
  exists st', set_target st l = Ok st' /\ wf st' /\ target st' = Ok l
    /\ currentSection st' = currentSection st
    /\ currentSubSection st' = currentSubSection st.
Proof.
  destruct st as [secs [i|] cs]; [|discriminate].
  unfold wf, set_target, target, the_sub_section, the_section, set_section; simpl.
  intros (sec & Hs & Hsub) _. rewrite Hs. simpl.
  assert (Hlt : i < length secs) by (eapply lookup_lt_Some; eassumption).
  destruct cs as [j|]; simpl.
  - destruct (Hsub j eq_refl) as [ss Hss]. rewrite Hss. simpl.
    assert (Hjlt : j < length (sub_sections sec)) by (eapply lookup_lt_Some; eassumption).
    eexists; split; [reflexivity|]. simpl.
    rewrite list_lookup_insert_eq by assumption. simpl.
    rewrite list_lookup_insert_eq by assumption. simpl.
    repeat split; try reflexivity.
    eexists; split; [reflexivity|]. intros j' [= <-]. simpl.
    rewrite list_lookup_insert_eq by assumption. eauto.
  - eexists; split; [reflexivity|]. simpl.
    rewrite list_lookup_insert_eq by assumption. simpl.
    repeat split; try reflexivity.
    eexists; split; [reflexivity|]. intros j' [=].
Qed.

Lemma push_item_ok st it :
  wf st -> not_null (currentSection st) = true ->
  exists st', push_item st it = Ok st' /\ wf st'.
Proof.
  intros Hwf Hc. unfold push_item.
  destruct (target_ok st Hwf Hc) as [l ->]. simpl.
  destruct (set_target_ok st (l ++ [it]) Hwf Hc) as (st' & -> & Hwf' & _). eauto.
Qed.

Lemma rate_only_ok st d r :
  wf st -> not_null (currentSection st) = true ->
  exists st', rate_only st d r = Ok st' /\ wf st'.
Proof.
  intros Hwf Hc. unfold rate_only.
  destruct (target_ok st Hwf Hc) as [l ->]. simpl.
  destruct (truthy_s d && (length l =? 0)%nat).
  { destruct (set_target_ok st (l ++ [buildRateItem d None r]) Hwf Hc) as (st' & -> & ? & _); eauto. }
  destruct (0 <? length l)%nat eqn:Hlen.
  - apply Nat.ltb_lt in Hlen.
    destruct (lookup_lt_is_Some_2 l (length l - 1) ltac:(lia)) as [it ->]. simpl.
    destruct (is_null (rate it)).
    + destruct (set_target_ok st (<[length l - 1 := with_rate it r]> l) Hwf Hc) as (st' & -> & ? & _); eauto.
    + destruct (set_target_ok st (l ++ [buildRateItem d None r]) Hwf Hc) as (st' & -> & ? & _); eauto.
  - destruct (set_target_ok st (l ++ [buildRateItem d None r]) Hwf Hc) as (st' & -> & ? & _); eauto.
Qed.

(** The loop body never raises, and keeps the cursors valid. *)
Lemma step_ok st r : wf st -> exists st', step st r = Ok st' /\ wf st'.
Proof.
  intros Hwf. unfold step.
  destruct (is_blank _); [eauto|].
  destruct (is_compound _); [eauto using wf_open_section|].
  destruct (is_header _); [eauto using wf_open_section|].
  destruct (is_sub _ _) eqn:Hsub.
  { unfold is_sub in Hsub. apply andb_true_iff in Hsub as [_ Hc].
    apply open_sub_section_ok; assumption. }
  destruct (is_auto_sub _ _) eqn:Hauto.
  { unfold is_auto_sub in Hauto. repeat (apply andb_true_iff in Hauto as [Hauto ?]).
    assert (Hc := Hauto).
    unfold wf in Hwf. destruct (currentSection st) as [i|] eqn:Hi; [|discriminate].
    destruct Hwf as (sec & Hs & Hss).
    rewrite (the_section_some st i sec Hi Hs). simpl.
    apply open_sub_section_ok; [|rewrite Hi; reflexivity].
    unfold wf. rewrite Hi. eauto. }
  destruct (is_rate_item _ _) eqn:Hitem.
  { unfold is_rate_item in Hitem. repeat (apply andb_true_iff in Hitem as [Hitem ?]).
    apply push_item_ok; assumption. }
  destruct (is_rate_only _ _) eqn:Honly.
  { unfold is_rate_only in Honly. repeat (apply andb_true_iff in Honly as [Honly ?]).
    apply rate_only_ok; assumption. }
  eauto.
Qed.

Lemma run_ok rows : forall st, wf st -> exists st', run st rows = Ok st' /\ wf st'.
Proof.
  induction rows as [|r rows IH]; intros st Hwf; simpl; [eauto|].
  destruct (step_ok st r Hwf) as (st1 & -> & Hwf1). simpl. apply IH, Hwf1.
Qed.

(** An invariant of the loop body is an invariant of the loop. *)
Lemma run_invariant (P : State -> Prop) rows :
  (forall st r st', P st -> step st r = Ok st' -> P st') ->
  forall st st', P st -> run st rows = Ok st' -> P st'.
Proof.
  intros Hstep. induction rows as [|r rows IH]; intros st st' HP; simpl.
  - intros [= <-]. exact HP.
  - destruct (step st r) as [st1|] eqn:E; simpl; [|discriminate].
    intros Hrun. eapply IH; [|exact Hrun]. eapply Hstep; eassumption.
Qed.

End MongoStore.

(* ================================================================== *)
(** * The rates of the items of storeToMongoDB.js *)
(* ================================================================== *)

Section MongoRates.
Import JS Mongo.

Lemma sec_kept_refl sec :
  s_items sec `prefix_of` s_items sec /\
  forall j ss, sub_sections sec !! j = Some ss ->
    exists ss', sub_sections sec !! j = Some ss' /\
      ss_items ss `prefix_of` ss_items ss'.
Proof. split; [reflexivity|]. intros j ss H. exists ss. split; [exact H | reflexivity]. Qed.

Lemma items_kept_refl st : items_kept st st.
Proof. intros i sec H. exists sec. split; [exact H | apply sec_kept_refl]. Qed.

Lemma items_kept_open_section st sec : items_kept st (open_section st sec).
Proof.
  intros i s H. exists s. split; [|apply sec_kept_refl].
  simpl. apply lookup_app_l_Some. exact H.
Qed.

Lemma items_kept_insert st st' i sec sec' :
  sections st !! i = Some sec ->
  sections st' = <[i := sec']> (sections st) ->
  s_items sec `prefix_of` s_items sec' ->
  (forall j ss, sub_sections sec !! j = Some ss ->
     exists ss', sub_sections sec' !! j = Some ss' /\
       ss_items ss `prefix_of` ss_items ss') ->
  items_kept st st'.
Proof.
  intros Hs Heq Hit Hsub k s Hk. rewrite Heq.
  destruct (decide (i = k)) as [<-|Hne].
  - rewrite Hs in Hk. injection Hk as <-. exists sec'. split; [|split; assumption].
    apply list_lookup_insert_eq. eapply lookup_lt_Some; eassumption.
  - exists s. split; [|apply sec_kept_refl].
    rewrite list_lookup_insert_ne by assumption. exact Hk.
Qed.

Lemma items_kept_open_sub st ss st' :
  open_sub_section st ss = Ok st' -> items_kept st st'.
Proof.
  unfold open_sub_section. destruct (currentSection st) as [i|]; simpl; [|discriminate].
  destruct (sections st !! i) as [sec|] eqn:Hs; simpl; [|discriminate].
  intros [= <-]. eapply items_kept_insert; [exact Hs | reflexivity | reflexivity |].
  simpl. intros j s Hj. exists s. split; [|reflexivity].
  apply lookup_app_l_Some. exact Hj.
Qed.

Lemma items_kept_set_target st l l' st' :
  target st = Ok l -> l `prefix_of` l' -> set_target st l' = Ok st' ->
  items_kept st st'.
Proof.
  destruct st as [secs [i|] cs];
    unfold target, set_target, the_sub_section, the_section, set_section; simpl;
    [|destruct cs; discriminate].
  destruct (secs !! i) as [sec|] eqn:Hs; simpl; [|destruct cs; discriminate].
  destruct cs as [j|]; simpl.
  - destruct (sub_sections sec !! j) as [ss|] eqn:Hss; simpl; [|discriminate].
    intros [= <-] Hpre [= <-].
    eapply items_kept_insert; [exact Hs | reflexivity | reflexivity |].
    simpl. intros k s Hk. destruct (decide (j = k)) as [<-|Hne].
    + rewrite Hss in Hk. injection Hk as <-.
      exists (with_ss_items ss l'). split; [|exact Hpre].
      apply list_lookup_insert_eq. eapply lookup_lt_Some; eassumption.
    + exists s. split; [|reflexivity].
      rewrite list_lookup_insert_ne by assumption. exact Hk.
  - intros [= <-] Hpre [= <-].
    eapply items_kept_insert; [exact Hs | reflexivity | exact Hpre |].
    simpl. intros k s Hk. exists s. split; [exact Hk | reflexivity].
Qed.

Lemma buildRateItem_rated d u r : r <> VNull -> rated (buildRateItem d u r).
Proof. intros H. exact H. Qed.

Lemma all_rated_open_section st sno key d u r :
  all_rated st -> all_rated (open_section st (buildSection sno key d u r)).
Proof.
  intros H. unfold all_rated, open_section; simpl.
  apply Forall_app. split; [exact H|].
  constructor; [|constructor]. split; constructor.
Qed.

Lemma all_rated_open_sub st id d st' :
  all_rated st ->
  open_sub_section st {| sub_id := id; description := d; ss_items := [] |} = Ok st' ->
  all_rated st'.
Proof.
  unfold open_sub_section, all_rated.
  destruct (currentSection st) as [i|]; simpl; [|discriminate].
  destruct (sections st !! i) as [sec|] eqn:Hs; simpl; [|discriminate].
  intros H [= <-]. simpl. apply Forall_insert; [exact H|].
  destruct (proj1 (Forall_lookup _ _) H i sec Hs) as [H1 H2].
  split; simpl; [exact H1|]. apply Forall_app. split; [exact H2|].
  constructor; [constructor | constructor].
Qed.

Lemma target_rated st l : all_rated st -> target st = Ok l -> Forall rated l.
Proof.
  destruct st as [secs [i|] cs];
    unfold all_rated, target, the_sub_section, the_section; simpl;
    [|destruct cs; discriminate].
  destruct (secs !! i) as [sec|] eqn:Hs; simpl; [|destruct cs; discriminate].
  intros H. destruct (proj1 (Forall_lookup _ _) H i sec Hs) as [H1 H2].
  destruct cs as [j|]; simpl.
  - destruct (sub_sections sec !! j) as [ss|] eqn:Hss; simpl; [|discriminate].
    intros [= <-]. exact (proj1 (Forall_lookup _ _) H2 j ss Hss).
  - intros [= <-]. exact H1.
Qed.

Lemma all_rated_set_target st l st' :
  all_rated st -> Forall rated l -> set_target st l = Ok st' -> all_rated st'.
Proof.
  destruct st as [secs [i|] cs];
    unfold all_rated, set_target, the_section, set_section; simpl;
    [|discriminate].
  destruct (secs !! i) as [sec|] eqn:Hs; simpl; [|discriminate].
  intros H Hl. destruct (proj1 (Forall_lookup _ _) H i sec Hs) as [H1 H2].
  destruct cs as [j|]; simpl.
  - destruct (sub_sections sec !! j) as [ss|] eqn:Hss; simpl; [|discriminate].
    intros [= <-]. simpl. apply Forall_insert; [exact H|].
    split; simpl; [exact H1|]. apply Forall_insert; [exact H2 | exact Hl].
  - intros [= <-]. simpl. apply Forall_insert; [exact H|].
    split; simpl; [exact Hl | exact H2].
Qed.

Lemma rated_snoc l it : Forall rated l -> rated it -> Forall rated (l ++ [it]).
Proof. intros H1 H2. apply Forall_app. split; [exact H1 | constructor; [exact H2 | constructor]]. Qed.

(** With every item rated, the rate-only rule is a push. *)
Lemma rate_only_pushes st d r :
  all_rated st -> rate_only st d r = push_item st (buildRateItem d None r).
Proof.
  intros Hall. unfold rate_only, push_item.
  destruct (target st) as [l|] eqn:Ht; simpl; [|reflexivity].
  destruct (truthy_s d && (length l =? 0)%nat); [reflexivity|].
  destruct (0 <? length l)%nat eqn:Hlen; [|reflexivity].
  apply Nat.ltb_lt in Hlen.
  destruct (l !! (length l - 1)%nat) as [it|] eqn:Hit; simpl.
  - pose proof (proj1 (Forall_lookup _ _) (target_rated st l Hall Ht) _ _ Hit) as Hr.
    unfold rated in Hr. destruct (rate it); [contradiction | reflexivity | reflexivity].
  - apply lookup_ge_None in Hit. lia.
Qed.

Lemma push_item_inv st it st' :
  push_item st it = Ok st' ->
  exists l, target st = Ok l /\ set_target st (l ++ [it]) = Ok st'.
Proof.
  unfold push_item. destruct (target st) as [l|]; simpl; [eauto | discriminate].
Qed.

(** The loop body keeps every item rated and every item in place. *)
Lemma step_rated st r st' :
  all_rated st -> step st r = Ok st' -> all_rated st' /\ items_kept st st'.
Proof.
  intros Hall. unfold step.
  destruct (is_blank _); [intros [= <-]; split; [exact Hall | apply items_kept_refl]|].
  destruct (is_compound _);
    [intros [= <-]; split; [apply all_rated_open_section, Hall | apply items_kept_open_section]|].
  destruct (is_header _);
    [intros [= <-]; split; [apply all_rated_open_section, Hall | apply items_kept_open_section]|].
  destruct (is_sub _ _).
  { intros H. split; [eapply all_rated_open_sub | eapply items_kept_open_sub]; eassumption. }
  destruct (is_auto_sub _ _).
  { destruct (the_section st) as [sec|]; simpl; [|discriminate].
    intros H. split; [eapply all_rated_open_sub | eapply items_kept_open_sub]; eassumption. }
  destruct (is_rate_item _ _) eqn:Hitem.
  { unfold is_rate_item in Hitem. apply andb_true_iff in Hitem as [_ Hr].
    intros H. apply push_item_inv in H as (l & Ht & Hset). split.
    - eapply all_rated_set_target; [exact Hall | | exact Hset].
      apply rated_snoc; [eapply target_rated; eassumption|].
      apply buildRateItem_rated. intros E. rewrite E in Hr. discriminate.
    - eapply items_kept_set_target; [exact Ht | | exact Hset]. apply prefix_app_r. reflexivity. }
  destruct (is_rate_only _ _) eqn:Honly.
  { unfold is_rate_only in Honly.
    apply andb_true_iff in Honly as [Honly _].
    apply andb_true_iff in Honly as [Honly _].
    apply andb_true_iff in Honly as [_ Hr].
    rewrite rate_only_pushes by exact Hall.
    intros H'. apply push_item_inv in H' as (l & Ht & Hset). split.
    - eapply all_rated_set_target; [exact Hall | | exact Hset].
      apply rated_snoc; [eapply target_rated; eassumption|].
      apply buildRateItem_rated. intros E. rewrite E in Hr. discriminate.
    - eapply items_kept_set_target; [exact Ht | | exact Hset]. apply prefix_app_r. reflexivity. }
  intros [= <-]. split; [exact Hall | apply items_kept_refl].
Qed.

Lemma all_rated_init : all_rated init.
Proof. constructor. Qed.

Lemma run_rated rows st : run init rows = Ok st -> all_rated st.
Proof.
  apply (run_invariant all_rated); [|apply all_rated_init].
  intros s r s' H E. exact (proj1 (step_rated s r s' H E)).
Qed.

End MongoRates.

(* ================================================================== *)
(** * Properties of the store of publichealth.js *)
(* ================================================================== *)

Section PHStore.
Import JS PH.

Lemma ph_wf_init : wf init.
Proof. reflexivity. Qed.

Lemma ph_wf_open_section st mk : wf (open_section st mk).
Proof.
  unfold wf, open_section; simpl.
  eexists. split; [apply list_lookup_middle; reflexivity | intros j Hj; discriminate].
Qed.

Lemma ph_wf_next_item st : wf st -> wf (next_item st).
Proof. intros H. exact H. Qed.

Lemma ph_the_section_ok st :
  wf st -> not_null (currentSection st) = true ->
  exists i sec, currentSection st = Some i /\ sections st !! i = Some sec
    /\ the_section st = Ok sec.
Proof.
  unfold wf, the_section. destruct (currentSection st) as [i|]; [|discriminate].
  intros (sec & Hs & _) _. simpl. rewrite Hs. eauto.
Qed.

Lemma ph_open_sub_section_ok st ss :
  wf st -> not_null (currentSection st) = true ->
  exists st', open_sub_section st ss = Ok st' /\ wf st'.
Proof.
  unfold wf, open_sub_section. destruct (currentSection st) as [i|]; [|discriminate].
  intros (sec & Hs & _) _. simpl. rewrite Hs. simpl.
  eexists; split; [reflexivity|]. simpl.
  exists (with_sub_sections sec (sub_sections sec ++ [ss])). split.
  - apply list_lookup_insert_eq. eapply lookup_lt_Some; eassumption.
  - intros j [= <-]. simpl. exists ss. apply list_lookup_middle. reflexivity.
Qed.

(** A write through [currentSection] that keeps the sub-sections in
    place keeps the cursors valid. *)
Lemma ph_set_section_ok st i sec sec' :
  wf st -> currentSection st = Some i -> sections st !! i = Some sec ->
  length (sub_sections sec') = length (sub_sections sec) ->
  exists st', set_section st sec' = Ok st' /\ wf st'.
Proof.
  destruct st as [secs cs css n m]. unfold wf, set_section; simpl.
  intros Hwf -> Hs Hlen. destruct Hwf as (sec0 & Hs0 & Hsub).
  rewrite Hs in Hs0. injection Hs0 as <-. simpl.
  eexists; split; [reflexivity|]. simpl. exists sec'. split.
  - apply list_lookup_insert_eq. eapply lookup_lt_Some; eassumption.
  - intros j Hj. apply lookup_lt_is_Some. rewrite Hlen.
    apply lookup_lt_is_Some. apply Hsub, Hj.
Qed.

Lemma ph_push_item_ok st it :
  wf st -> not_null (currentSection st) = true ->
  exists st', push_item st it = Ok st' /\ wf st'.
Proof.
  intros Hwf Hc. unfold push_item.
  destruct (ph_the_section_ok st Hwf Hc) as (i & sec & Hi & Hs & ->). simpl.
  destruct (currentSubSection st) as [j|] eqn:Hj.
  - assert (Hss : is_Some (sub_sections sec !! j)).
    { unfold wf in Hwf. rewrite Hi in Hwf. destruct Hwf as (sec0 & Hs0 & Hsub).
      rewrite Hs in Hs0. injection Hs0 as <-. apply Hsub, Hj. }
    destruct Hss as [ss ->]. simpl.
    eapply ph_set_section_ok; [exact Hwf | exact Hi | exact Hs |].
    simpl. apply length_insert.
  - eapply ph_set_section_ok; [exact Hwf | exact Hi | exact Hs | reflexivity].
Qed.

(** The loop body never raises, and keeps the cursors valid. *)
Lemma ph_step_ok st r : wf st -> exists st', step st r = Ok st' /\ wf st'.
Proof.
  intros Hwf. unfold step. generalize (normalise r). intros c. cbv zeta.
  destruct (is_blank _); [eauto|].
  destruct (is_note _); [eauto|].
  destruct (is_continuation _); [eauto|].
  destruct (is_header _); [eauto using ph_wf_open_section|].
  destruct (is_sub _ _) eqn:Hsub.
  { unfold is_sub in Hsub. apply andb_true_iff in Hsub as [_ Hc].
    apply ph_open_sub_section_ok; assumption. }
  destruct (is_simple_item _); [eauto using ph_wf_open_section|].
  destruct (is_rate_item _ _) eqn:Hitem.
  { unfold is_rate_item in Hitem.
    apply andb_true_iff in Hitem as [Hitem _].
    apply andb_true_iff in Hitem as [Hc Hu].
    destruct (ph_the_section_ok (next_item st) (ph_wf_next_item st Hwf) Hc)
      as (i & sec & Hi & Hs & ->). simpl.
    destruct (c_unit c) as [u|]; [|discriminate]. simpl.
    apply ph_push_item_ok; [apply ph_wf_next_item, Hwf | exact Hc]. }
  destruct (is_rate_only _ _) eqn:Honly.
  { unfold is_rate_only in Honly.
    apply andb_true_iff in Honly as [Honly _].
    apply andb_true_iff in Honly as [Hc _].
    destruct (ph_the_section_ok st Hwf Hc) as (i & sec & Hi & Hs & ->). simpl.
    destruct (s_items sec !! (length (s_items sec) - 1)%nat) as [it|].
    - destruct (negb (truthy (rate it))).
      + eapply ph_set_section_ok; [exact Hwf | exact Hi | exact Hs | reflexivity].
      + eapply ph_set_section_ok;
          [apply ph_wf_next_item, Hwf | exact Hi | exact Hs | reflexivity].
    - eapply ph_set_section_ok;
        [apply ph_wf_next_item, Hwf | exact Hi | exact Hs | reflexivity]. }
  destruct (is_descriptive _ _) eqn:Hd.
  { unfold is_descriptive in Hd.
    apply andb_true_iff in Hd as [Hd _].
    apply andb_true_iff in Hd as [Hc Hdesc].
    destruct (desc c) as [d|]; [|discriminate]. simpl.
    destruct (is_diameter_header d); [eauto|].
    destruct (is_pipes_header d); [|eauto].
    destruct (ph_the_section_ok st Hwf Hc) as (i & sec & Hi & Hs & ->). simpl.
    apply ph_open_sub_section_ok; assumption. }
  eauto.
Qed.

Lemma ph_run_ok rows : forall st, wf st -> exists st', run st rows = Ok st' /\ wf st'.
Proof.
  induction rows as [|r rows IH]; intros st Hwf; simpl; [eauto|].
  destruct (ph_step_ok st r Hwf) as (st1 & -> & Hwf1). simpl. apply IH, Hwf1.
Qed.

Lemma ph_run_invariant (P : State -> Prop) rows :
  (forall st r st', P st -> step st r = Ok st' -> P st') ->
  forall st st', P st -> run st rows = Ok st' -> P st'.
Proof.
  intros Hstep. induction rows as [|r rows IH]; intros st st' HP; simpl.
  - intros [= <-]. exact HP.
  - destruct (step st r) as [st1|] eqn:E; simpl; [|discriminate].
    intros Hrun. eapply IH; [|exact Hrun]. eapply Hstep; eassumption.
Qed.

(** Without a rule that takes the row, the state stays as it is. *)
Lemma ph_step_ignored st r :
  matches_rule st (normalise r) = false -> step st r = Ok st.
Proof.
  unfold matches_rule, is_auto_sub, step. generalize (normalise r). intros c. cbv zeta.
  destruct (is_blank _); [reflexivity|].
  destruct (is_note _); [reflexivity|].
  destruct (is_continuation _); [reflexivity|].
  destruct (is_header _); [discriminate|].
  destruct (is_sub _ _); [discriminate|].
  destruct (is_simple_item _); [discriminate|].
  destruct (is_rate_item _ _); [discriminate|].
  destruct (is_rate_only _ _); [discriminate|].
  destruct (is_descriptive _ _) eqn:Hd; [|reflexivity].
  unfold is_descriptive in Hd.
  apply andb_true_iff in Hd as [Hd _].
  apply andb_true_iff in Hd as [_ Hdesc].
  destruct (desc c) as [d|]; [|discriminate]. simpl.
  destruct (is_diameter_header d); [reflexivity|].
  destruct (is_pipes_header d); [discriminate | reflexivity].
Qed.

End PHStore.

Section MongoIgnore.
Import JS Mongo.

(** Without a rule that takes the row, the state stays as it is. *)
Lemma step_ignored st r :
  matches_rule st (normalise r) = false -> step st r = Ok st.
Proof.
  unfold matches_rule, step.
  destruct (is_blank _); [reflexivity|].
  destruct (is_compound _); [discriminate|].
  destruct (is_header _); [discriminate|].
  destruct (is_sub _ _); [discriminate|].
  destruct (is_auto_sub _ _); [discriminate|].
  destruct (is_rate_item _ _); [discriminate|].
  destruct (is_rate_only _ _); [discriminate|].
  reflexivity.
Qed.

End MongoIgnore.

(* ================================================================== *)
(** * The parse of a sheet returns *)
(* ================================================================== *)

Section Totality.
Import JS.

Lemma parseExcel_ok rows : exists secs, Mongo.parseExcel rows = Ok secs.
Proof.
  unfold Mongo.parseExcel.
  destruct (run_ok (drop 2 rows) Mongo.init wf_init) as (st & -> & _).
  simpl. eauto.
Qed.

Lemma parsePublicHealthXLSX_ok path now rows :
  exists res, PH.parsePublicHealthXLSX path now rows = Ok res.
Proof.
  unfold PH.parsePublicHealthXLSX.
  destruct (ph_run_ok (drop 2 rows) PH.init ph_wf_init) as (st & -> & _).
  simpl. eauto.
Qed.

End Totality.

(** C7. Handling a row never raises, in either builder and whatever the
    cells of the row are, and the parse of a whole sheet returns; a row
    that no rule takes leaves [sections], [currentSection] and
    [currentSubSection] (and the counters) as they were. *)
Theorem C7_row_handling_total :
  (forall (st : Mongo.State) (r : JS.row), Mongo.wf st ->
     exists st', Mongo.step st r = JS.Ok st' /\ Mongo.wf st' /\
       (Mongo.matches_rule st (Mongo.normalise r) = false -> st' = st)) /\
  (forall rows, exists secs, Mongo.parseExcel rows = JS.Ok secs) /\
  (forall (st : PH.State) (r : JS.row), PH.wf st ->
     exists st', PH.step st r = JS.Ok st' /\ PH.wf st' /\
       (PH.matches_rule st (PH.normalise r) = false -> st' = st)) /\
  (forall path now rows,
     exists res, PH.parsePublicHealthXLSX path now rows = JS.Ok res).
Proof.
  split; [|split; [|split]].
  - intros st r Hwf. destruct (step_ok st r Hwf) as (st' & Hst & Hwf').
    exists st'. split; [exact Hst | split; [exact Hwf'|]].
    intros Hno. rewrite (step_ignored st r Hno) in Hst. congruence.
  - apply parseExcel_ok.
  - intros st r Hwf. destruct (ph_step_ok st r Hwf) as (st' & Hst & Hwf').
    exists st'. split; [exact Hst | split; [exact Hwf'|]].
    intros Hno. rewrite (ph_step_ignored st r Hno) in Hst. congruence.
  - apply parsePublicHealthXLSX_ok.
Qed.

Lemma C7_witness :
  exists st',
    Mongo.step Mongo.init [JS.VNull; JS.VNull; JS.VStr "computed as above"]
    = JS.Ok st' /\ Mongo.wf st' /\
    (Mongo.matches_rule Mongo.init
       (Mongo.normalise [JS.VNull; JS.VNull; JS.VStr "computed as above"])
     = false -> st' = Mongo.init).
Proof.
  apply (proj1 C7_row_handling_total Mongo.init
           [JS.VNull; JS.VNull; JS.VStr "computed as above"]).
  reflexivity.
Defined.

(* ================================================================== *)
(** * The records of seed.js *)
(* ================================================================== *)

Section SeedRecords.
Import JS Seed.

Lemma seed_step_inv st r :
  section_ok st -> Forall valid (finalData st) ->
  section_ok (step st r) /\ Forall valid (finalData (step st r)).
Proof.
  intros Hsec Hall. unfold step.
  destruct (String.eqb (text_of (cell r 2)) EmptyString) eqn:Hd; [split; assumption|].
  repeat match goal with
  | |- context [if includes ?p ?s then _ else _] =>
      destruct (includes p s);
      [split; [unfold section_ok, category_enum; simpl; set_solver | exact Hall]|]
  end.
  destruct (currentSection st) as [c|] eqn:Hc; simpl; [|split; assumption].
  assert (Hin : c ∈ category_enum).
  { unfold section_ok in Hsec. rewrite Hc in Hsec. exact Hsec. }
  destruct (String.eqb c EmptyString); simpl; [split; assumption|].
  destruct (is_null (cell r 4)); simpl; [split; assumption|].
  destruct (is_number (cell r 4)) eqn:Hn; simpl; [|split; assumption].
  split; [exact Hin|].
  apply Forall_app. split; [exact Hall|]. constructor; [|constructor].
  unfold valid; simpl. split; [reflexivity|]. split.
  - exists c. split; [reflexivity | exact Hin].
  - split; [|exact Hn]. intros E. rewrite E in Hd. discriminate.
Qed.

Lemma seed_fold_inv rows : forall st,
  section_ok st -> Forall valid (finalData st) ->
  Forall valid (finalData (fold_left step rows st)).
Proof.
  induction rows as [|r rows IH]; intros st Hsec Hall; simpl; [exact Hall|].
  destruct (seed_step_inv st r Hsec Hall) as [H1 H2]. apply IH; assumption.
Qed.

(** A row without a numeric rate, or before any section marker, adds
    no record. *)
Lemma seed_step_skips st r :
  is_number (cell r 4) = false \/ currentSection st = None ->
  finalData (step st r) = finalData st.
Proof.
  intros H. unfold step.
  destruct (String.eqb (text_of (cell r 2)) EmptyString); [reflexivity|].
  repeat match goal with
  | |- context [if includes ?p ?s then _ else _] =>
      destruct (includes p s); [reflexivity|]
  end.
  destruct (negb (truthy_s (currentSection st))) eqn:Hc; [reflexivity|].
  destruct (is_null (cell r 4)); [reflexivity|].
  destruct (is_number (cell r 4)) eqn:Hn; simpl; [|reflexivity].
  destruct H as [H|H]; [discriminate|]. rewrite H in Hc. discriminate.
Qed.

End SeedRecords.

(** C10. Every record [importExcel] appends has year ["2005-06"], a
    category of the enum of the schema, a description that is not
    empty and a rate that is a number; a row whose rate is missing or
    not a number, or that comes before any section marker, appends
    nothing. *)
Theorem C10_seed_records_valid :
  (forall (rows : list JS.row) (rec : Seed.LabourRate),
     rec ∈ Seed.importExcel rows -> Seed.valid rec) /\
  (forall (st : Seed.State) (r : JS.row),
     JS.is_number (JS.cell r 4) = false \/ Seed.currentSection st = None ->
     Seed.finalData (Seed.step st r) = Seed.finalData st).
Proof.
  split.
  - intros rows rec Hin. unfold Seed.importExcel in Hin.
    pose proof (seed_fold_inv rows Seed.init I (Forall_nil_2 _)) as H.
    exact (proj1 (Forall_forall _ _) H rec Hin).
  - apply seed_step_skips.
Qed.

Lemma C10_witness :
  Seed.valid
    {| Seed.year := "2005-06"; Seed.category := Some "Skilled";
       Seed.subCategory := Some "First Class"; Seed.description := "Mason";
       Seed.unit := "day"; Seed.rate := JS.VNum (JS.of_Z 100) |}.
Proof.
  apply (proj1 C10_seed_records_valid
    [[JS.VNull; JS.VNull; JS.VStr "Skilled Workmen"];
     [JS.VNull; JS.VNull; JS.VStr "Mason first class"];
     [JS.VNull; JS.VNull; JS.VStr " Mason "; JS.VStr "day"; JS.VNum (JS.of_Z 100)];
     [JS.VNull; JS.VNull; JS.VStr "Helper"; JS.VStr "day"; JS.VStr "90"]]).
  vm_compute. left.
Defined.

(* ================================================================== *)
(** * The category of a section *)
(* ================================================================== *)

Section Categories.
Import JS Spec.

Lemma CATEGORY_MAP_values k v : Mongo.CATEGORY_MAP !! k = Some v -> v <> EmptyString.
Proof.
  assert (H : map_Forall (fun _ v => v <> EmptyString) Mongo.CATEGORY_MAP).
  { apply (bool_decide_unpack _). vm_compute. exact I. }
  apply H.
Qed.

Lemma SECTION_CATEGORIES_values k v :
  PH.SECTION_CATEGORIES !! k = Some v -> v <> EmptyString.
Proof.
  assert (H : map_Forall (fun _ v => v <> EmptyString) PH.SECTION_CATEGORIES).
  { apply (bool_decide_unpack _). vm_compute. exact I. }
  apply H.
Qed.

Lemma truthy_s_Some v : v <> EmptyString -> truthy_s (Some v) = true.
Proof.
  intros H. simpl. destruct (String.eqb_spec v EmptyString); [contradiction | reflexivity].
Qed.

(** [t[k] || t[raw] || 'General'] is the resolver. *)
Lemma or_else_resolve (t : gmap string string) k raw :
  (forall k v, t !! k = Some v -> v <> EmptyString) ->
  or_else (or_else (t !! k) (t !! raw)) (Some "General")
  = Some (Spec.resolve t k raw).
Proof.
  intros Hv. unfold Spec.resolve, or_else.
  destruct (t !! k) as [v|] eqn:Hk.
  - rewrite (truthy_s_Some v (Hv _ _ Hk)). rewrite (truthy_s_Some v (Hv _ _ Hk)). reflexivity.
  - simpl. destruct (t !! raw) as [v|] eqn:Hr; [|reflexivity].
    rewrite (truthy_s_Some v (Hv _ _ Hr)). reflexivity.
Qed.

Lemma to_string_item_no sno :
  to_string (if is_number sno then sno else VStr (to_string sno)) = to_string sno.
Proof. destruct sno; reflexivity. Qed.

Lemma buildSection_cat sno d u r :
  sno <> VNull -> sec_cat (Mongo.buildSection sno (Mongo.snoKey sno) d u r).
Proof.
  intros Hs. unfold sec_cat, Mongo.buildSection; simpl.
  destruct (Mongo.snoKey sno) as [k|] eqn:Hk; [|destruct sno; [contradiction | discriminate..]].
  exists k. split; [reflexivity|].
  rewrite to_string_item_no. unfold Mongo.category_of.
  apply or_else_resolve, CATEGORY_MAP_values.
Qed.

Lemma is_compound_not_null c : Mongo.is_compound c = true -> Mongo.sno c <> VNull.
Proof.
  unfold Mongo.is_compound. intros H E. rewrite E in H. discriminate.
Qed.

Lemma is_header_not_null c : Mongo.is_header c = true -> Mongo.sno c <> VNull.
Proof.
  unfold Mongo.is_header. intros H E. rewrite E in H. discriminate.
Qed.

Lemma key_normalise r : Mongo.key (Mongo.normalise r) = Mongo.snoKey (Mongo.sno (Mongo.normalise r)).
Proof. reflexivity. Qed.

End Categories.


Section PHCategories.
Import JS Spec.

(** The keys of the table are canonical: neither form of the key of
    [publichealth.js] changes them. *)
Lemma SECTION_CATEGORIES_keys k v :
  PH.SECTION_CATEGORIES !! k = Some v ->
  PH.header_key (VStr k) = k /\ toLowerCase (PH.simple_key (VStr k)) = k.
Proof.
  assert (H : map_Forall
            (fun k _ => PH.header_key (VStr k) = k
                        /\ toLowerCase (PH.simple_key (VStr k)) = k)
            PH.SECTION_CATEGORIES).
  { apply (bool_decide_unpack _). vm_compute. exact I. }
  apply H.
Qed.

Lemma or_else_None (o : option string) : or_else None o = o.
Proof. reflexivity. Qed.

Lemma or_else_Some v (o : option string) :
  v <> EmptyString -> or_else (Some v) o = Some v.
Proof. intros H. unfold or_else. rewrite (truthy_s_Some v H). reflexivity. Qed.

Lemma ph_header_cat sno :
  or_else (or_else (PH.SECTION_CATEGORIES !! to_string sno)
                   (PH.SECTION_CATEGORIES !! PH.header_key sno))
          (Some "General")
  = Some (resolve PH.SECTION_CATEGORIES (PH.header_key sno) (to_string sno)).
Proof.
  unfold resolve.
  destruct (PH.SECTION_CATEGORIES !! to_string sno) as [v|] eqn:Hraw.
  - assert (Hk : PH.header_key sno = to_string sno).
    { exact (proj1 (SECTION_CATEGORIES_keys _ _ Hraw)). }
    rewrite Hk, Hraw.
    rewrite !(or_else_Some v) by exact (SECTION_CATEGORIES_values _ _ Hraw).
    reflexivity.
  - rewrite or_else_None.
    destruct (PH.SECTION_CATEGORIES !! PH.header_key sno) as [v|] eqn:Hkey.
    + rewrite (or_else_Some v) by exact (SECTION_CATEGORIES_values _ _ Hkey).
      reflexivity.
    + rewrite or_else_None. reflexivity.
Qed.

Lemma ph_simple_cat sno :
  or_else (PH.SECTION_CATEGORIES !! toLowerCase (PH.simple_key sno))
          (Some "General")
  = Some (resolve PH.SECTION_CATEGORIES (toLowerCase (PH.simple_key sno))
            (to_string sno)).
Proof.
  unfold resolve.
  destruct (PH.SECTION_CATEGORIES !! toLowerCase (PH.simple_key sno))
    as [v|] eqn:Hkey.
  - rewrite (or_else_Some v) by exact (SECTION_CATEGORIES_values _ _ Hkey).
    reflexivity.
  - rewrite or_else_None.
    destruct (PH.SECTION_CATEGORIES !! to_string sno) as [v|] eqn:Hraw;
      [|reflexivity].
    assert (Hk : toLowerCase (PH.simple_key sno) = to_string sno).
    { exact (proj2 (SECTION_CATEGORIES_keys _ _ Hraw)). }
    rewrite Hk, Hraw in Hkey. discriminate.
Qed.

Lemma ph_the_section_inv st sec :
  PH.the_section st = Ok sec ->
  exists i, PH.currentSection st = Some i /\ PH.sections st !! i = Some sec.
Proof.
  unfold PH.the_section. destruct (PH.currentSection st) as [i|]; simpl; [|discriminate].
  destruct (PH.sections st !! i) as [s|] eqn:Hs; simpl; [|discriminate].
  intros [= <-]. eauto.
Qed.

Lemma resolve_nonempty (t : gmap string string) k raw :
  (forall k v, t !! k = Some v -> v <> EmptyString) -> resolve t k raw <> EmptyString.
Proof.
  intros Hv. unfold resolve.
  destruct (t !! k) eqn:Hk; [eapply Hv, Hk|].
  destruct (t !! raw) eqn:Hr; [eapply Hv, Hr | discriminate].
Qed.

End PHCategories.


(* ================================================================== *)
(** * The canonical key *)
(* ================================================================== *)

Section Keys.
Import JS Spec.

Lemma sfilter_ext (p q : ascii -> bool) s :
  (forall c, p c = q c) -> sfilter p s = sfilter q s.
Proof.
  intros H. induction s as [|c s IH]; simpl; [reflexivity|].
  rewrite H, IH. reflexivity.
Qed.

(** Deleting the runs of a class deletes the characters of the class. *)
Lemma delete_go_sfilter p s : forall b,
  delete_go p b s = sfilter (fun c => negb (p c)) s.
Proof.
  induction s as [|c s IH]; intros b; simpl; [reflexivity|].
  destruct (p c); simpl; rewrite IH; reflexivity.
Qed.

(** Deleting each ['.'] with the white space after it, then the white
    space left, deletes all of both. *)
Lemma header_key_sfilter s : forall b,
  sfilter (fun c => negb (is_ws c)) (delete_with_ws "." b s)
  = sfilter (fun c => negb (is_ws c) && negb (ascii_eqb c ".")) s.
Proof.
  induction s as [|c s IH]; intros b; simpl; [reflexivity|].
  destruct (ascii_eqb c ".") eqn:Hdot.
  - rewrite andb_false_r. apply IH.
  - rewrite andb_true_r. destruct (is_ws c) eqn:Hws; simpl.
    + destruct b; simpl; [apply IH|]. rewrite Hws. simpl. apply IH.
    + rewrite andb_false_r. simpl. rewrite Hws. simpl. rewrite IH. reflexivity.
Qed.

Lemma snoKey_canonicalKey sno : Mongo.snoKey sno = canonicalKey sno.
Proof.
  unfold Mongo.snoKey, canonicalKey, delete_runs.
  destruct sno; [reflexivity | |]; rewrite delete_go_sfilter;
    (erewrite sfilter_ext; [reflexivity|]);
    intros c; unfold Mongo.ws_or_dot; apply negb_orb.
Qed.

Lemma header_key_canonicalKey sno :
  sno <> VNull -> Some (PH.header_key sno) = canonicalKey sno.
Proof.
  intros H. unfold PH.header_key, canonicalKey, delete_runs.
  rewrite delete_go_sfilter, header_key_sfilter.
  destruct sno; [contradiction | reflexivity | reflexivity].
Qed.

Lemma simple_key_canonicalKey sno :
  sno <> VNull -> Some (toLowerCase (PH.simple_key sno)) = canonicalKey sno.
Proof.
  intros H. unfold PH.simple_key, canonicalKey.
  destruct sno; [contradiction | |];
    (erewrite sfilter_ext; [reflexivity|]); intros c; apply negb_orb.
Qed.

Lemma canonicalKey_item_no sno :
  sno <> VNull ->
  canonicalKey (if is_number sno then sno else VStr (to_string sno))
  = canonicalKey sno.
Proof. destruct sno; [contradiction | reflexivity | reflexivity]. Qed.

Lemma ph_is_header_not_null c : PH.is_header c = true -> PH.sno c <> VNull.
Proof.
  unfold PH.is_header, PH.isSectionHeader. intros H E. rewrite E in H.
  simpl in H. destruct (negb (truthy_s (PH.desc c))); discriminate.
Qed.

Lemma ph_is_simple_not_null c : PH.is_simple_item c = true -> PH.sno c <> VNull.
Proof.
  unfold PH.is_simple_item. intros H E. rewrite E in H. discriminate.
Qed.


End Keys.

(* ================================================================== *)
(** * The row ["11.a."] *)
(* ================================================================== *)

Section Row11a.
Import JS.

Lemma mongo_11a_cells r :
  cell r 1 = VStr "11.a." ->
  Mongo.sno (Mongo.normalise r) = VStr "11.a."
  /\ Mongo.key (Mongo.normalise r) = Some "11a".
Proof.
  intros H. unfold Mongo.normalise; cbn [Mongo.sno Mongo.key]. rewrite H.
  split; vm_compute; reflexivity.
Qed.

Lemma ph_11a_cells r :
  cell r 1 = VStr "11.a." -> PH.sno (PH.normalise r) = VStr "11.a.".
Proof.
  intros H. unfold PH.normalise; cbn [PH.sno]. rewrite H. vm_compute. reflexivity.
Qed.

End Row11a.

(** C3. A row whose item number is ["11.a."], without unit and rate,
    opens a new top-level section with key ["11a"] in both parsers: the
    section is appended to [sections] and becomes the current section,
    no sub-section is current afterwards, and no section that was there
    gets a sub-section. In [parseExcel] the rule that takes the row is
    the one of the compound items. *)
Theorem C3_row_11a_opens_section :
  (forall (st : Mongo.State) (r : JS.row),
     JS.cell r 1 = JS.VStr "11.a." ->
     Mongo.c_unit (Mongo.normalise r) = None ->
     Mongo.c_rate (Mongo.normalise r) = JS.VNull ->
     exists st' sec,
       Mongo.step st r = JS.Ok st' /\
       Mongo.is_compound (Mongo.normalise r) = true /\
       Mongo.sections st' = (Mongo.sections st ++ [sec])%list /\
       Mongo.currentSection st' = Some (length (Mongo.sections st)) /\
       Mongo.currentSubSection st' = None /\
       Mongo.item_key sec = Some "11a" /\
       Mongo.sub_sections sec = [] /\ Mongo.s_items sec = []) /\
  (forall (st : PH.State) (r : JS.row),
     JS.cell r 1 = JS.VStr "11.a." ->
     PH.c_unit (PH.normalise r) = None ->
     PH.c_rate (PH.normalise r) = JS.VNull ->
     exists st' sec,
       PH.step st r = JS.Ok st' /\
       PH.sections st' = (PH.sections st ++ [sec])%list /\
       PH.currentSection st' = Some (length (PH.sections st)) /\
       PH.currentSubSection st' = None /\
       PH.item_key sec = "11a" /\
       PH.sub_sections sec = [] /\ PH.s_items sec = []).
Proof.
  split.
  - intros st r H Hu Hr. destruct (mongo_11a_cells r H) as [Hs Hk].
    assert (Hc : Mongo.is_compound (Mongo.normalise r) = true).
    { unfold Mongo.is_compound. rewrite Hs. vm_compute. reflexivity. }
    assert (Hb : Mongo.is_blank (Mongo.normalise r) = false).
    { unfold Mongo.is_blank. rewrite Hs. reflexivity. }
    unfold Mongo.step. cbv zeta. rewrite Hb, Hc, Hk.
    eexists. eexists. split; [reflexivity|]. split; [reflexivity|].
    cbn [Mongo.sections Mongo.currentSection Mongo.currentSubSection
         Mongo.open_section Mongo.item_key Mongo.sub_sections Mongo.s_items
         Mongo.buildSection].
    repeat split; reflexivity.
  - intros st r H Hu Hr. pose proof (ph_11a_cells r H) as Hs.
    assert (Hb : PH.is_blank (PH.normalise r) = false).
    { unfold PH.is_blank. rewrite Hs. reflexivity. }
    assert (Hn : PH.is_note (PH.normalise r) = false).
    { unfold PH.is_note. rewrite Hs. reflexivity. }
    assert (Hc : PH.is_continuation (PH.normalise r) = false).
    { unfold PH.is_continuation. rewrite Hs. reflexivity. }
    assert (Hh : PH.is_header (PH.normalise r) = true).
    { unfold PH.is_header, PH.isSectionHeader. rewrite Hs, Hu, Hr.
      vm_compute. reflexivity. }
    unfold PH.step. cbv zeta. rewrite Hb, Hn, Hc, Hh.
    eexists. eexists. split; [reflexivity|].
    cbn [PH.sections PH.currentSection PH.currentSubSection PH.open_section].
    split; [reflexivity|]. split; [reflexivity|]. split; [reflexivity|].
    unfold PH.header_section. cbn [PH.item_key PH.sub_sections PH.s_items].
    rewrite Hs. split; [vm_compute; reflexivity|]. split; reflexivity.
Qed.

Lemma C3_witness :
  exists st' sec,
    Mongo.step
      {| Mongo.sections :=
           [Mongo.buildSection (JS.VNum (JS.of_Z 11)) (Some "11")
              (Some "RCC PIPES") None JS.VNull];
         Mongo.currentSection := Some 0; Mongo.currentSubSection := None |}
      [JS.VNull; JS.VStr "11.a."; JS.VStr "Laying RCC pipes"; JS.VNull; JS.VNull]
    = JS.Ok st' /\
    Mongo.is_compound
      (Mongo.normalise
         [JS.VNull; JS.VStr "11.a."; JS.VStr "Laying RCC pipes"; JS.VNull; JS.VNull])
    = true /\
    Mongo.sections st'
    = ([Mongo.buildSection (JS.VNum (JS.of_Z 11)) (Some "11")
          (Some "RCC PIPES") None JS.VNull] ++ [sec])%list /\
    Mongo.currentSection st' = Some 1 /\
    Mongo.currentSubSection st' = None /\
    Mongo.item_key sec = Some "11a" /\
    Mongo.sub_sections sec = [] /\ Mongo.s_items sec = [].
Proof.
  apply (proj1 C3_row_11a_opens_section
           {| Mongo.sections :=
                [Mongo.buildSection (JS.VNum (JS.of_Z 11)) (Some "11")
                   (Some "RCC PIPES") None JS.VNull];
              Mongo.currentSection := Some 0; Mongo.currentSubSection := None |}
           [JS.VNull; JS.VStr "11.a."; JS.VStr "Laying RCC pipes"; JS.VNull; JS.VNull]);
    reflexivity.
Defined.

(* ================================================================== *)
(** * Rates *)
(* ================================================================== *)

Section Rates.
Import JS.

Lemma isNaN_scale neg m frac e : isNaN (scale neg m frac e) = false.
Proof. unfold scale. destruct (0 <=? Z.of_nat frac - e)%Z; reflexivity. Qed.

(** Rounding to binary64 gives [NaN] for [NaN] only. *)
Lemma isNaN_to_binary64 n : isNaN (to_binary64 n) = isNaN n.
Proof.
  destruct n as [|neg|neg m d]; [reflexivity..|]. unfold to_binary64.
  destruct (m =? 0)%N; [reflexivity|].
  destruct (nearest64 m (10 ^ N.of_nat d)) as [q e].
  destruct (971 <? e)%Z; [reflexivity|].
  destruct (q =? 0)%N; [reflexivity|].
  unfold of_binary. destruct (0 <=? e)%Z; [reflexivity|].
  destruct (reduce _ _). reflexivity.
Qed.

(** What a text that starts with a digit is, for [parseFloat]. *)
Lemma digit_first c t :
  is_digit c = true ->
  is_ws c = false
  /\ sign_part (String c t) = (false, String c t)
  /\ startsWith "Infinity" (String c t) = false
  /\ String.eqb (String c t) "-" = false.
Proof.
  intros H.
  destruct c as [b0 b1 b2 b3 b4 b5 b6 b7].
  destruct b0, b1, b2, b3, b4, b5, b6, b7;
    try (vm_compute in H; discriminate H);
    repeat split; reflexivity.
Qed.

(** [parseFloat] of a text that starts with a digit is a number. *)
Lemma parseFloat_digit c t :
  is_digit c = true -> isNaN (parseFloat (String c t)) = false.
Proof.
  intros H. destruct (digit_first c t H) as (Hws & Hsign & Hinf & _).
  unfold parseFloat, trimStart. cbn [drop_while]. rewrite Hws, Hsign, Hinf.
  cbn [span]. rewrite H.
  destruct (span is_digit t) as [a b].
  destruct (fraction_part b) as [fp r2].
  destruct fp; rewrite isNaN_to_binary64; apply isNaN_scale.
Qed.

Lemma eqb_empty_false c t : String.eqb (String c t) EmptyString = false.
Proof. reflexivity. Qed.

Lemma mongo_parseRate_digit s c t :
  trim s = String c t -> is_digit c = true ->
  Mongo.parseRate (VStr s) = VNum (parseFloat (trim s))
  /\ isNaN (parseFloat (trim s)) = false.
Proof.
  intros Ht Hd. unfold Mongo.parseRate; cbn [to_string].
  rewrite Ht, eqb_empty_false, (parseFloat_digit c t Hd). split; reflexivity.
Qed.

Lemma ph_parseRate_digit s c t :
  trim s = String c t -> is_digit c = true ->
  PH.parseRate (VStr s) = VNum (parseFloat (trim s)).
Proof.
  intros Ht Hd. unfold PH.parseRate; cbn [to_string].
  destruct (digit_first c t Hd) as (_ & _ & _ & Hdash).
  rewrite Ht, eqb_empty_false, Hdash, (parseFloat_digit c t Hd). reflexivity.
Qed.

Lemma eqb_false_of_ne (a b : string) : a <> b -> String.eqb a b = false.
Proof. intros H. destruct (String.eqb_spec a b); [contradiction | reflexivity]. Qed.

Lemma mongo_parseRate_text s :
  trim s <> EmptyString -> isNaN (parseFloat (trim s)) = true ->
  Mongo.parseRate (VStr s) = VStr (trim s).
Proof.
  intros Hne Hnan. unfold Mongo.parseRate; cbn [to_string].
  rewrite (eqb_false_of_ne _ _ Hne), Hnan. reflexivity.
Qed.

Lemma ph_parseRate_text s :
  trim s <> EmptyString -> trim s <> "-" -> isNaN (parseFloat (trim s)) = true ->
  PH.parseRate (VStr s) = VStr (trim s).
Proof.
  intros Hne Hdash Hnan. unfold PH.parseRate; cbn [to_string].
  rewrite (eqb_false_of_ne _ _ Hne), (eqb_false_of_ne _ _ Hdash), Hnan. reflexivity.
Qed.

Lemma parseRate_empty s :
  trim s = EmptyString ->
  Mongo.parseRate (VStr s) = VNull /\ PH.parseRate (VStr s) = VNull.
Proof.
  intros H. unfold Mongo.parseRate, PH.parseRate; cbn [to_string]. rewrite H.
  split; reflexivity.
Qed.

End Rates.

(* ================================================================== *)
(** * The matcher and the strings of a pattern *)
(* ================================================================== *)

Section Matcher.
Import JS Regex.

Lemma append_cons c (s t : string) : String c s +:+ t = String c (s +:+ t).
Proof. reflexivity. Qed.

Lemma append_nil_l (t : string) : EmptyString +:+ t = t.
Proof. reflexivity. Qed.

Lemma append_nil_inv s t : s +:+ t = EmptyString -> s = EmptyString /\ t = EmptyString.
Proof.
  destruct s; [rewrite append_nil_l; intros ->; split; reflexivity|].
  rewrite append_cons. discriminate.
Qed.

Lemma nullable_lang r : nullable r = true <-> lang r EmptyString.
Proof.
  induction r as [| |p|a IHa b IHb|a IHa b IHb|a IHa]; simpl.
  - split; [discriminate | intros H; inversion H].
  - split; [intros _; constructor | reflexivity].
  - split; [discriminate | intros H; inversion H].
  - rewrite andb_true_iff, IHa, IHb. split.
    + intros [H1 H2]. exact (lang_cat a b EmptyString EmptyString H1 H2).
    + intros H. inversion H as [| |a' b' s t H1 H2 E1 E2| | | |]; subst.
      apply append_nil_inv in E2 as [-> ->]. split; assumption.
  - rewrite orb_true_iff, IHa, IHb. split.
    + intros [H|H]; [apply lang_alt_l | apply lang_alt_r]; exact H.
    + intros H. inversion H; subst; [left | right]; assumption.
  - split; [intros _; constructor | reflexivity].
Qed.

(** A non-empty string of [a*] starts with a non-empty string of [a]. *)
Lemma lang_star_inv a s : forall c u,
  lang (Star a) s -> s = String c u ->
  exists u1 u2, u = u1 +:+ u2 /\ lang a (String c u1) /\ lang (Star a) u2.
Proof.
  intros c u H. remember (Star a) as r eqn:Er. revert c u.
  induction H as [| | | | | |a' s t H1 _ H2 IH2]; intros c0 u0 E;
    try discriminate.
  injection Er as ->. destruct s as [|c' s'].
  - rewrite append_nil_l in E. apply IH2; [reflexivity | exact E].
  - rewrite append_cons in E. injection E as -> <-. exists s', t.
    split; [reflexivity|]. split; assumption.
Qed.

Lemma deriv_lang r : forall c s, lang (deriv c r) s <-> lang r (String c s).
Proof.
  induction r as [| |p|a IHa b IHb|a IHa b IHb|a IHa]; intros c s; simpl.
  - split; intros H; inversion H.
  - split; intros H; inversion H.
  - destruct (p c) eqn:Hp; split; intros H; inversion H; subst.
    + constructor. exact Hp.
    + constructor.
    + congruence.
  - assert (Hcat : lang (Cat (deriv c a) b) s -> lang (Cat a b) (String c s)).
    { intros H. inversion H as [| |a' b' s1 s2 H1 H2| | | |]; subst.
      apply IHa in H1. exact (lang_cat a b (String c s1) s2 H1 H2). }
    assert (Hinv : lang (Cat a b) (String c s) ->
              lang (Cat (deriv c a) b) s \/ (lang a EmptyString /\ lang (deriv c b) s)).
    { intros H. inversion H as [| |a' b' s1 s2 H1 H2 E1 E2| | | |]; subst.
      destruct s1 as [|c1 s1].
      - rewrite append_nil_l in E2. right. split; [exact H1|].
        apply IHb. rewrite E2 in H2. exact H2.
      - rewrite append_cons in E2. injection E2 as -> <-. left. apply lang_cat; [apply IHa, H1 | exact H2]. }
    destruct (nullable a) eqn:Hn.
    + split.
      * intros H. inversion H; subst; [apply Hcat; assumption|].
        apply (lang_cat a b EmptyString (String c s)); [apply nullable_lang, Hn | apply IHb; assumption].
      * intros H. destruct (Hinv H) as [H1|[_ H1]];
          [apply lang_alt_l | apply lang_alt_r]; exact H1.
    + split; [exact Hcat|]. intros H. destruct (Hinv H) as [H1|[H1 _]]; [exact H1|].
      apply nullable_lang in H1. congruence.
  - split.
    + intros H. inversion H; subst;
        [apply lang_alt_l, IHa | apply lang_alt_r, IHb]; assumption.
    + intros H. inversion H; subst;
        [apply lang_alt_l, IHa | apply lang_alt_r, IHb]; assumption.
  - split.
    + intros H. inversion H as [| |a' b' s1 s2 H1 H2| | | |]; subst.
      apply IHa in H1. exact (lang_star_cons a (String c s1) s2 H1 H2).
    + intros H. destruct (lang_star_inv a _ c s H eq_refl) as (u1 & u2 & -> & H1 & H2).
      apply lang_cat; [apply IHa, H1 | exact H2].
Qed.

(** The matcher decides the strings of a pattern. *)
Lemma matches_lang s : forall r, matches r s = true <-> lang r s.
Proof.
  induction s as [|c s IH]; intros r; simpl.
  - apply nullable_lang.
  - rewrite IH. apply deriv_lang.
Qed.

End Matcher.

(* ================================================================== *)
(** * The item number of a section header *)
(* ================================================================== *)

Section HeaderShape.
Import JS Regex Spec.

Lemma lang_cat_iff a b s :
  lang (Cat a b) s <-> exists s1 s2, s = s1 +:+ s2 /\ lang a s1 /\ lang b s2.
Proof.
  split.
  - intros H. inversion H; subst. eauto.
  - intros (s1 & s2 & -> & H1 & H2). constructor; assumption.
Qed.

Lemma lang_chr_iff p s :
  lang (Chr p) s <-> exists c, p c = true /\ s = String c EmptyString.
Proof.
  split.
  - intros H. inversion H; subst. eauto.
  - intros (c & Hp & ->). constructor. exact Hp.
Qed.

Lemma lang_opt_chr p s : lang (Opt (Chr p)) s <-> optional p s.
Proof.
  unfold Opt, optional. split.
  - intros H. inversion H as [| | |a b s' H1|a b s' H1| |]; subst.
    + inversion H1. left. reflexivity.
    + right. apply lang_chr_iff, H1.
  - intros [->|H]; [apply lang_alt_l; constructor|].
    apply lang_alt_r, lang_chr_iff, H.
Qed.

Lemma lang_star_chr p s : lang (Star (Chr p)) s <-> all_of p s.
Proof.
  split.
  - intros H. remember (Star (Chr p)) as r eqn:Er.
    induction H as [| | | | | |a s t H1 _ H2 IH2]; try discriminate.
    + exact I.
    + injection Er as ->. inversion H1; subst. rewrite append_cons, append_nil_l.
      split; [assumption | apply IH2; reflexivity].
  - induction s as [|c s IH]; simpl.
    + intros _. constructor.
    + intros [Hp Hs]. apply (lang_star_cons (Chr p) (String c EmptyString) s).
      * constructor. exact Hp.
      * apply IH, Hs.
Qed.

Lemma lang_plus_chr p s :
  lang (Plus (Chr p)) s <-> s <> EmptyString /\ all_of p s.
Proof.
  unfold Plus. rewrite lang_cat_iff. split.
  - intros (s1 & s2 & -> & H1 & H2). apply lang_chr_iff in H1 as (c & Hp & ->).
    rewrite append_cons, append_nil_l. split; [discriminate|].
    split; [exact Hp | apply lang_star_chr, H2].
  - intros [Hne Hall]. destruct s as [|c s]; [contradiction|].
    destruct Hall as [Hp Hs]. exists (String c EmptyString), s.
    split; [reflexivity|]. split; [constructor; exact Hp | apply lang_star_chr, Hs].
Qed.

(** The pattern of [isSectionHeader] has the shape that the
    specification words. *)
Lemma lang_re_header s : lang Mongo.re_header s <-> header_shape s.
Proof.
  unfold Mongo.re_header, header_shape. split.
  - intros H.
    apply lang_cat_iff in H as (ds & r1 & -> & Hds & H).
    apply lang_cat_iff in H as (w1 & r2 & -> & Hw1 & H).
    apply lang_cat_iff in H as (d1 & r3 & -> & Hd1 & H).
    apply lang_cat_iff in H as (w2 & r4 & -> & Hw2 & H).
    apply lang_cat_iff in H as (l & d2 & -> & Hl & Hd2).
    apply lang_plus_chr in Hds as [Hne Hds].
    exists ds, w1, d1, w2, l, d2. split; [reflexivity|].
    split; [exact Hne|]. split; [exact Hds|].
    split; [apply lang_star_chr, Hw1|]. split; [apply lang_opt_chr, Hd1|].
    split; [apply lang_star_chr, Hw2|]. split; [apply lang_opt_chr, Hl|].
    apply lang_opt_chr, Hd2.
  - intros (ds & w1 & d1 & w2 & l & d2 & -> & Hne & Hds & Hw1 & Hd1 & Hw2 & Hl & Hd2).
    apply lang_cat; [apply lang_plus_chr; split; assumption|].
    apply lang_cat; [apply lang_star_chr, Hw1|].
    apply lang_cat; [apply lang_opt_chr, Hd1|].
    apply lang_cat; [apply lang_star_chr, Hw2|].
    apply lang_cat; [apply lang_opt_chr, Hl | apply lang_opt_chr, Hd2].
Qed.

(** In [parseExcel] a text is the item number of a section header
    exactly when it has the shape, and the row has no unit and no rate. *)
Lemma mongo_header_text s u r :
  Mongo.isSectionHeader (VStr s) u r = true
  <-> header_shape (trim s) /\ u = None /\ r = VNull.
Proof.
  unfold Mongo.isSectionHeader, test_full; cbn [to_string].
  rewrite !andb_true_iff, matches_lang, lang_re_header.
  split.
  - intros [[H Hu] Hr]. split; [exact H|].
    destruct u; [discriminate|]. destruct r; [|discriminate..]. split; reflexivity.
  - intros (H & -> & ->). split; [split|]; [exact H | reflexivity..].
Qed.

(** In [parseExcel] every number is the item number of a section
    header when the row has no unit and no rate. *)
Lemma mongo_header_number n u r :
  Mongo.isSectionHeader (VNum n) u r = is_null_s u && is_null r.
Proof. reflexivity. Qed.

(** In publichealth.js a number is one only when it is an integer. *)
Lemma ph_header_number n d u r :
  PH.isSectionHeader (VNum n) d u r = true -> isInteger n = true.
Proof.
  unfold PH.isSectionHeader. destruct (negb (truthy (VNum n)) && _); [discriminate|].
  cbn [is_number]. destruct (isInteger n); [reflexivity|]. simpl.
  rewrite andb_false_r. simpl. discriminate.
Qed.

End HeaderShape.

(** C2 fails on the code. In [parseExcel] the number 3.5 in the column
    of the item numbers, on a row with a description and nothing else,
    is taken as a section header although it is not an integer: the
    section gets the key ["35"] and the category of item 35. The text
    ["3.5"] is not taken, and publichealth.js does not take the number
    3.5. In publichealth.js the text ["3xyz"], which has not the shape
    of the claim, is taken as a section header; [parseExcel] does not
    take it. *)
Theorem C2_fractional_number_is_header :
  JS.isInteger (JS.Fin false 35 1) = false /\
  JS.num_to_string (JS.Fin false 35 1) = "3.5" /\
  Mongo.isSectionHeader (JS.VNum (JS.Fin false 35 1)) None JS.VNull = true /\
  Mongo.parseExcel
    [[]; []; [JS.VNull; JS.VNum (JS.Fin false 35 1); JS.VStr "X"; JS.VNull; JS.VNull]]
  = JS.Ok
      [{| Mongo.item_no := JS.VNum (JS.Fin false 35 1);
          Mongo.item_key := Some "35";
          Mongo.category := Some "Fixtures Labour";
          Mongo.title := Some "X";
          Mongo.s_unit := None; Mongo.s_rate := JS.VNull;
          Mongo.s_rate_type := None;
          Mongo.sub_sections := []; Mongo.s_items := [] |}] /\
  Mongo.isSectionHeader (JS.VStr "3.5") None JS.VNull = false /\
  PH.isSectionHeader (JS.VNum (JS.Fin false 35 1)) (Some "X") None JS.VNull
  = false /\
  PH.isSectionHeader (JS.VStr "3xyz") (Some "X") None JS.VNull = true /\
  PH.run PH.init [[JS.VNull; JS.VStr "3xyz"; JS.VStr "X"; JS.VNull; JS.VNull]]
  = JS.Ok
      {| PH.sections :=
           [{| PH.s_id := 1; PH.item_no := JS.VStr "3xyz";
               PH.item_key := "3xyz"; PH.category := Some "General";
               PH.title := Some "X"; PH.s_unit := None; PH.s_rate := JS.VNull;
               PH.sub_sections := []; PH.s_items := []; PH.notes := [] |}];
         PH.currentSection := Some 0; PH.currentSubSection := None;
         PH.sectionIdCounter := 1; PH.itemIdCounter := 0 |} /\
  Mongo.isSectionHeader (JS.VStr "3xyz") None JS.VNull = false.
Proof. repeat split; vm_compute; reflexivity. Qed.

(* ================================================================== *)
(** * The rate-only rule of storeToMongoDB.js *)
(* ================================================================== *)

Section RateOnly.
Import JS Mongo.

(** A cleaned cell is never the empty text. *)
Lemma clean_truthy v : truthy_s (clean v) = true <-> clean v <> None.
Proof.
  unfold clean. destruct v; simpl; [split; [discriminate | congruence] | |].
  - destruct (String.eqb _ EmptyString) eqn:E; simpl; [split; [discriminate | congruence]|].
    rewrite E. simpl. split; [discriminate | reflexivity].
  - destruct (String.eqb _ EmptyString) eqn:E; simpl; [split; [discriminate | congruence]|].
    rewrite E. simpl. split; [discriminate | reflexivity].
Qed.

Lemma rate_only_repaired st d rt l :
  target st = Ok l ->
  exists l', rate_only st d rt = set_target st l' /\ repaired d rt l l'.
Proof.
  intros Ht. unfold rate_only. rewrite Ht. cbn [mbind result_bind bind].
  destruct (truthy_s d && (length l =? 0)%nat) eqn:E1.
  { apply andb_true_iff in E1 as [Hd Hl]. apply Nat.eqb_eq in Hl.
    destruct l; [|discriminate].
    eexists. split; [reflexivity|]. left. repeat split; assumption. }
  assert (Hno : ~ (l = [] /\ truthy_s d = true)).
  { intros [-> Hd]. rewrite Hd in E1. discriminate. }
  destruct l as [|it l0 _] using rev_ind.
  { eexists. split; [reflexivity|]. right. right. split; [exact Hno|].
    split; [|reflexivity]. intros (l0 & it & E & _). destruct l0; discriminate. }
  assert (Hlen : (0 <? length (l0 ++ [it]))%nat = true).
  { apply Nat.ltb_lt. rewrite length_app. simpl. lia. }
  rewrite Hlen.
  assert (Hidx : (length (l0 ++ [it]) - 1 = length l0)%nat).
  { rewrite length_app. simpl. lia. }
  rewrite Hidx, list_lookup_middle by reflexivity. cbn [mbind result_bind bind deref].
  destruct (is_null (rate it)) eqn:Hr.
  - exists (l0 ++ [with_rate it rt])%list. split.
    + f_equal. rewrite insert_app_r_alt by lia.
      replace (length l0 - length l0)%nat with 0%nat by lia. reflexivity.
    + right. left. split; [exact Hno|]. exists l0, it.
      split; [reflexivity|]. split; [|reflexivity].
      destruct (rate it); [reflexivity | discriminate..].
  - eexists. split; [reflexivity|]. right. right. split; [exact Hno|].
    split; [|reflexivity]. intros (l1 & it1 & E & Hnull).
    apply app_inj_tail in E as [_ <-]. rewrite Hnull in Hr. discriminate.
Qed.

(** A row with a rate, no unit and no item number that the rule of the
    free-text sub-section headers does not take comes to the rate-only
    rule. *)
Lemma step_rate_only st c :
  not_null (currentSection st) = true ->
  c_rate c <> VNull -> c_unit c = None -> truthy (sno c) = false ->
  is_auto_sub st c = false ->
  is_blank c = false /\ is_compound c = false /\ is_header c = false
  /\ is_sub st c = false /\ is_rate_item st c = false
  /\ is_rate_only st c = true.
Proof.
  intros Hc Hr Hu Hs Ha.
  assert (Hn : is_null (c_rate c) = false).
  { destruct (c_rate c); [contradiction | reflexivity..]. }
  unfold is_blank, is_compound, is_header, is_sub, is_rate_item, is_rate_only,
    isSectionHeader, isSubSection.
  rewrite Hc, Hn, Hu, Hs. cbn [truthy_s negb andb].
  rewrite !andb_false_r.
  split; [reflexivity|]. split; [reflexivity|].
  split; [destruct (sno c); reflexivity|].
  split; [reflexivity|]. split; reflexivity.
Qed.

End RateOnly.

(** The rate-only rule of [parseExcel] on a state with a section open. *)
Lemma mongo_rate_only_repair (st : Mongo.State) (r : JS.row) (i : nat)
    (sec : Mongo.Section) :
  Mongo.currentSection st = Some i ->
  Mongo.sections st !! i = Some sec ->
  (forall j, Mongo.currentSubSection st = Some j ->
     is_Some (Mongo.sub_sections sec !! j)) ->
  Mongo.c_rate (Mongo.normalise r) <> JS.VNull ->
  Mongo.c_unit (Mongo.normalise r) = None ->
  JS.truthy (Mongo.sno (Mongo.normalise r)) = false ->
  Mongo.is_auto_sub st (Mongo.normalise r) = false ->
  exists l l' st',
    Mongo.step st r = JS.Ok st' /\
    Mongo.currentSection st' = Some i /\
    Mongo.currentSubSection st' = Mongo.currentSubSection st /\
    match Mongo.currentSubSection st with
    | Some j =>
        exists ss,
          Mongo.sub_sections sec !! j = Some ss /\ l = Mongo.ss_items ss /\
          Mongo.sections st'
          = <[i := Mongo.with_sub_sections sec
                     (<[j := Mongo.with_ss_items ss l']> (Mongo.sub_sections sec))]>
              (Mongo.sections st)
    | None =>
        l = Mongo.s_items sec /\
        Mongo.sections st' = <[i := Mongo.with_items sec l']> (Mongo.sections st)
    end /\
    Mongo.target st = JS.Ok l /\ Mongo.target st' = JS.Ok l' /\
    Mongo.repaired (Mongo.desc (Mongo.normalise r))
      (Mongo.c_rate (Mongo.normalise r)) l l' /\
    (Mongo.desc (Mongo.normalise r) <> None <->
     JS.truthy_s (Mongo.desc (Mongo.normalise r)) = true) /\
    Mongo.unit (Mongo.buildRateItem (Mongo.desc (Mongo.normalise r)) None
                  (Mongo.c_rate (Mongo.normalise r))) = None /\
    Mongo.rate (Mongo.buildRateItem (Mongo.desc (Mongo.normalise r)) None
                  (Mongo.c_rate (Mongo.normalise r)))
    = Mongo.c_rate (Mongo.normalise r).
Proof.
  intros Hi Hs Hsub Hr Hu Hsno Hauto.
  assert (Hwf : Mongo.wf st).
  { unfold Mongo.wf. rewrite Hi. exists sec. split; assumption. }
  assert (Hc : JS.not_null (Mongo.currentSection st) = true) by (rewrite Hi; reflexivity).
  destruct (step_rate_only st _ Hc Hr Hu Hsno Hauto) as (H1 & H2 & H3 & H4 & H5 & H6).
  destruct (target_ok st Hwf Hc) as [l Ht].
  destruct (rate_only_repaired st (Mongo.desc (Mongo.normalise r))
              (Mongo.c_rate (Mongo.normalise r)) l Ht) as (l' & Hro & Hrep).
  destruct (set_target_ok st l' Hwf Hc) as (st' & Hset & _ & Ht' & Hcs & Hcss).
  exists l, l', st'.
  split.
  { unfold Mongo.step. cbv zeta. rewrite H1, H2, H3, H4, Hauto, H5, H6, Hro. exact Hset. }
  split; [rewrite Hcs; exact Hi|]. split; [exact Hcss|].
  split.
  { clear Hro Hrep Ht' Hcs Hcss H1 H2 H3 H4 H5 H6 Hauto Hsno Hu Hr Hwf Hc.
    destruct st as [secs cs css]. simpl in Hi, Hs, Hsub, Ht, Hset |- *. subst cs.
    unfold Mongo.target, Mongo.set_target, Mongo.the_sub_section, Mongo.the_section,
      Mongo.set_section in Ht, Hset.
    simpl in Ht, Hset. rewrite Hs in Ht, Hset. simpl in Ht, Hset.
    destruct css as [j|].
    - destruct (Hsub j eq_refl) as [ss Hss]. simpl in Ht, Hset.
      rewrite Hss in Ht, Hset. simpl in Ht, Hset.
      injection Ht as <-. injection Hset as <-.
      exists ss. split; [exact Hss|]. split; reflexivity.
    - simpl in Ht, Hset. injection Ht as <-. injection Hset as <-. split; reflexivity. }
  split; [exact Ht|]. split; [exact Ht'|]. split; [exact Hrep|].
  split; [symmetry; apply clean_truthy|]. split; reflexivity.
Qed.

(* ================================================================== *)
(** * The rate-only rule of publichealth.js *)
(* ================================================================== *)

Section PHRateOnly.
Import JS PH.

(** A row with a rate, no unit and no item number comes to the rule of
    lines 247-264. *)
Lemma ph_step_rate_only st c :
  not_null (currentSection st) = true ->
  c_rate c <> VNull -> c_unit c = None -> truthy (sno c) = false ->
  is_blank c = false /\ is_note c = false /\ is_continuation c = false
  /\ is_header c = false /\ is_sub st c = false /\ is_simple_item c = false
  /\ is_rate_item st c = false /\ is_rate_only st c = true.
Proof.
  intros Hc Hr Hu Hs.
  assert (Hn : is_null (c_rate c) = false).
  { destruct (c_rate c); [contradiction | reflexivity..]. }
  unfold is_blank, is_note, is_continuation, is_header, is_sub, is_simple_item,
    is_rate_item, is_rate_only, isSectionHeader, isSubHeader.
  rewrite Hc, Hn, Hu, Hs. cbn [truthy_s is_null_s negb andb].
  rewrite !andb_false_r. cbn [negb andb].
  repeat split; try reflexivity.
  destruct (negb (truthy_s (desc c))); reflexivity.
Qed.

Lemma ph_rate_only_repair (st : State) (r : row) (i : nat) (sec : Section) :
  currentSection st = Some i ->
  sections st !! i = Some sec ->
  c_rate (normalise r) <> VNull ->
  c_unit (normalise r) = None ->
  truthy (sno (normalise r)) = false ->
  exists l' st',
    step st r = Ok st' /\
    currentSection st' = Some i /\
    currentSubSection st' = currentSubSection st /\
    sectionIdCounter st' = sectionIdCounter st /\
    sections st' = <[i := with_items sec l']> (sections st) /\
    repaired (normalise r) sec (itemIdCounter st) (s_items sec) l'
      (itemIdCounter st').
Proof.
  intros Hi Hs Hr Hu Hsno.
  assert (Hc : not_null (currentSection st) = true) by (rewrite Hi; reflexivity).
  destruct (ph_step_rate_only st _ Hc Hr Hu Hsno)
    as (H1 & H2 & H3 & H4 & H5 & H6 & H7 & H8).
  unfold step. cbv zeta. rewrite H1, H2, H3, H4, H5, H6, H7, H8.
  generalize (normalise r). intros c.
  unfold the_section. rewrite Hi. simpl. rewrite Hs. simpl.
  destruct (s_items sec) as [|it l0 _] eqn:El using rev_ind.
  { simpl. unfold set_section. simpl. rewrite Hi. simpl.
    eexists. eexists. split; [reflexivity|]. simpl.
    repeat split; try assumption.
    right. split; [|split; reflexivity].
    intros (l0 & it & E & _). destruct l0; discriminate. }
  assert (Hidx : (length (l0 ++ [it]) - 1 = length l0)%nat).
  { rewrite length_app. simpl. lia. }
  rewrite Hidx, list_lookup_middle by reflexivity.
  destruct (truthy (rate it)) eqn:Ht; simpl.
  - unfold set_section. simpl. rewrite Hi. simpl.
    eexists. eexists. split; [reflexivity|]. simpl.
    repeat split; try assumption.
    right. split; [|split; reflexivity].
    intros (l1 & it1 & E & Hf). apply app_inj_tail in E as [_ <-].
    rewrite Hf in Ht. discriminate.
  - unfold set_section. rewrite Hi. simpl.
    exists (l0 ++ [with_rate it (c_rate c)])%list. eexists.
    split; [reflexivity|]. simpl.
    repeat split; try assumption.
    + do 2 f_equal. rewrite insert_app_r_alt by lia.
      replace (length l0 - length l0)%nat with 0%nat by lia. reflexivity.
    + left. exists l0, it. repeat split; assumption.
Qed.

End PHRateOnly.

(** C1: publichealth.js leaves the repair of the rate-only row that the
    claim words. Both parsers read the same two sheets. In the first,
    sub-section [a] of item 33 is open when the row with the rate 120
    comes: [parseExcel] pushes the item into the items of the
    sub-section, [parsePublicHealthXLSX] into the items of the section
    and leaves the sub-section empty (line 249 reads
    [currentSection.items] whatever [currentSubSection] is, while the
    rule of lines 228-244 before it pushes into the sub-section). In the
    second, the last item of the section has the rate 0 when the row
    with the description ["100"] and the rate 150 comes: [parseExcel]
    pushes a second item, [parsePublicHealthXLSX] overwrites the rate 0
    and drops the description (line 250 tests [!lastItem.rate], which a
    rate 0 passes; line 218 of storeToMongoDB.js tests
    [rate == null]). In the third, the row after the item with the rate
    0 has the rate ["As per Common SSR"]: [parseExcel] pushes an item
    of rate type ["formula"], [parsePublicHealthXLSX] writes the text
    into the item with the rate 0, whose rate type stays ["numeric"]. *)
Theorem C1_ph_rate_only_diverges :
  let header := [JS.VNull; JS.VNum (JS.of_Z 33); JS.VStr "CENTERING"] in
  let sheet1 :=
    [[]; []; header;
     [JS.VNull; JS.VStr "a"; JS.VStr "Pipes"];
     [JS.VNull; JS.VNull; JS.VStr "80"; JS.VNull; JS.VNum (JS.of_Z 120)]] in
  let sheet2 :=
    [[]; []; header;
     [JS.VNull; JS.VNull; JS.VStr "80 mm"; JS.VStr "rm"; JS.VNum (JS.of_Z 0)];
     [JS.VNull; JS.VNull; JS.VStr "100"; JS.VNull; JS.VNum (JS.of_Z 150)]] in
  let sheet3 :=
    [[]; []; header;
     [JS.VNull; JS.VNull; JS.VStr "80 mm"; JS.VStr "rm"; JS.VNum (JS.of_Z 0)];
     [JS.VNull; JS.VNull; JS.VNull; JS.VNull; JS.VStr "As per Common SSR"]] in
  (* the sub-section is open: storeToMongoDB.js *)
  (Mongo.parseExcel sheet1
   = JS.Ok
       [{| Mongo.item_no := JS.VNum (JS.of_Z 33);
           Mongo.item_key := Some "33";
           Mongo.category := Some "Centering & Scaffolding";
           Mongo.title := Some "CENTERING";
           Mongo.s_unit := None; Mongo.s_rate := JS.VNull;
           Mongo.s_rate_type := None;
           Mongo.sub_sections :=
             [{| Mongo.sub_id := "a"; Mongo.description := Some "Pipes";
                 Mongo.ss_items :=
                   [{| Mongo.dimension := Some "80"; Mongo.unit := None;
                       Mongo.rate := JS.VNum (JS.of_Z 120);
                       Mongo.rate_type := "numeric" |}] |}];
           Mongo.s_items := [] |}]) /\
  (* the sub-section is open: publichealth.js *)
  PH.parsePublicHealthXLSX "in/ph.xlsx" "2026-01-01T00:00:00.000Z" sheet1
  = JS.Ok
      {| PH.r_title := "Public Health Items - Schedule of Standard Rates";
         PH.year := "2005-06"; PH.source_file := "ph.xlsx";
         PH.parsed_at := "2026-01-01T00:00:00.000Z";
         PH.r_sections :=
           [{| PH.s_id := 1; PH.item_no := JS.VNum (JS.of_Z 33);
               PH.item_key := "33";
               PH.category := Some "Centering & Scaffolding";
               PH.title := Some "CENTERING";
               PH.s_unit := None; PH.s_rate := JS.VNull;
               PH.sub_sections :=
                 [{| PH.sub_id := "a"; PH.description := Some "Pipes";
                     PH.ss_items := [] |}];
               PH.s_items :=
                 [{| PH.id := 1; PH.section_item_no := JS.VNum (JS.of_Z 33);
                     PH.dimension := Some "80"; PH.unit := None;
                     PH.rate := JS.VNum (JS.of_Z 120);
                     PH.rate_type := "numeric" |}];
               PH.notes := [] |}] |} /\
  (* the last item has the rate 0: storeToMongoDB.js *)
  Mongo.parseExcel sheet2
  = JS.Ok
      [{| Mongo.item_no := JS.VNum (JS.of_Z 33);
          Mongo.item_key := Some "33";
          Mongo.category := Some "Centering & Scaffolding";
          Mongo.title := Some "CENTERING";
          Mongo.s_unit := None; Mongo.s_rate := JS.VNull;
          Mongo.s_rate_type := None;
          Mongo.sub_sections := [];
          Mongo.s_items :=
            [{| Mongo.dimension := Some "80"; Mongo.unit := Some "rm";
                Mongo.rate := JS.VNum (JS.of_Z 0);
                Mongo.rate_type := "numeric" |};
             {| Mongo.dimension := Some "100"; Mongo.unit := None;
                Mongo.rate := JS.VNum (JS.of_Z 150);
                Mongo.rate_type := "numeric" |}] |}] /\
  (* the last item has the rate 0: publichealth.js *)
  PH.parsePublicHealthXLSX "in/ph.xlsx" "2026-01-01T00:00:00.000Z" sheet2
  = JS.Ok
      {| PH.r_title := "Public Health Items - Schedule of Standard Rates";
         PH.year := "2005-06"; PH.source_file := "ph.xlsx";
         PH.parsed_at := "2026-01-01T00:00:00.000Z";
         PH.r_sections :=
           [{| PH.s_id := 1; PH.item_no := JS.VNum (JS.of_Z 33);
               PH.item_key := "33";
               PH.category := Some "Centering & Scaffolding";
               PH.title := Some "CENTERING";
               PH.s_unit := None; PH.s_rate := JS.VNull;
               PH.sub_sections := [];
               PH.s_items :=
                 [{| PH.id := 1; PH.section_item_no := JS.VNum (JS.of_Z 33);
                     PH.dimension := Some "80"; PH.unit := Some "rm";
                     PH.rate := JS.VNum (JS.of_Z 150);
                     PH.rate_type := "numeric" |}];
               PH.notes := [] |}] |} /\
  (* a text comes after the rate 0: storeToMongoDB.js *)
  Mongo.parseExcel sheet3
  = JS.Ok
      [{| Mongo.item_no := JS.VNum (JS.of_Z 33);
          Mongo.item_key := Some "33";
          Mongo.category := Some "Centering & Scaffolding";
          Mongo.title := Some "CENTERING";
          Mongo.s_unit := None; Mongo.s_rate := JS.VNull;
          Mongo.s_rate_type := None;
          Mongo.sub_sections := [];
          Mongo.s_items :=
            [{| Mongo.dimension := Some "80"; Mongo.unit := Some "rm";
                Mongo.rate := JS.VNum (JS.of_Z 0);
                Mongo.rate_type := "numeric" |};
             {| Mongo.dimension := None; Mongo.unit := None;
                Mongo.rate := JS.VStr "As per Common SSR";
                Mongo.rate_type := "formula" |}] |}] /\
  (* a text comes after the rate 0: publichealth.js *)
  PH.parsePublicHealthXLSX "in/ph.xlsx" "2026-01-01T00:00:00.000Z" sheet3
  = JS.Ok
      {| PH.r_title := "Public Health Items - Schedule of Standard Rates";
         PH.year := "2005-06"; PH.source_file := "ph.xlsx";
         PH.parsed_at := "2026-01-01T00:00:00.000Z";
         PH.r_sections :=
           [{| PH.s_id := 1; PH.item_no := JS.VNum (JS.of_Z 33);
               PH.item_key := "33";
               PH.category := Some "Centering & Scaffolding";
               PH.title := Some "CENTERING";
               PH.s_unit := None; PH.s_rate := JS.VNull;
               PH.sub_sections := [];
               PH.s_items :=
                 [{| PH.id := 1; PH.section_item_no := JS.VNum (JS.of_Z 33);
                     PH.dimension := Some "80"; PH.unit := Some "rm";
                     PH.rate := JS.VStr "As per Common SSR";
                     PH.rate_type := "numeric" |}];
               PH.notes := [] |}] |}.
Proof. repeat split; vm_compute; reflexivity. Qed.


(* ================================================================== *)
(** * Cleaned texts *)
(* ================================================================== *)

Section CleanedTexts.
Import JS Text.

Lemma ascii_eqb_eq a b : ascii_eqb a b = true <-> a = b.
Proof.
  unfold ascii_eqb, code. rewrite N.eqb_eq. split; [|intros ->; reflexivity].
  intros H. rewrite <- (ascii_N_embedding a), <- (ascii_N_embedding b), H.
  reflexivity.
Qed.

Lemma space_is_ws c : ascii_eqb c " " = true -> is_ws c = true.
Proof. intros H. apply ascii_eqb_eq in H as ->. reflexivity. Qed.

(** [trimEnd] leaves no white space at the end. *)
Lemma ends_ok_trimEnd s : forall b,
  ends_ok b (trimEnd s) = true \/ (trimEnd s = EmptyString /\ b = true).
Proof.
  induction s as [|c r IH]; intros b; simpl.
  - destruct b; [right; split; reflexivity | left; reflexivity].
  - destruct (trimEnd r) as [|c' r'] eqn:E.
    + destruct (is_ws c) eqn:Hc; simpl.
      * destruct b; [right; split; reflexivity | left; reflexivity].
      * left. rewrite Hc. reflexivity.
    + left. simpl. destruct (IH (is_ws c)) as [H|[H _]]; [exact H | discriminate].
Qed.

(** [trimEnd] keeps the first character of what it returns. *)
Lemma trimEnd_head c r :
  trimEnd (String c r) = EmptyString
  \/ exists r', trimEnd (String c r) = String c r'.
Proof.
  simpl. destruct (trimEnd r); [destruct (is_ws c)|]; eauto.
Qed.

Lemma drop_while_head p s :
  match drop_while p s with
  | EmptyString => True
  | String c _ => p c = false
  end.
Proof.
  induction s as [|c r IH]; simpl; [exact I|].
  destruct (p c) eqn:E; [exact IH | exact E].
Qed.

(** What [trim] returns is empty, or starts and ends with characters
    that are not white space. *)
Lemma trim_shape s :
  trim s = EmptyString
  \/ exists c r, trim s = String c r /\ is_ws c = false
                 /\ ends_ok false r = true.
Proof.
  unfold trim, trimStart.
  pose proof (drop_while_head is_ws s) as Hh.
  destruct (drop_while is_ws s) as [|c r]; [left; reflexivity|].
  destruct (trimEnd_head c r) as [E|[r' E]]; [left; exact E|].
  right. exists c, r'. split; [exact E|]. split; [exact Hh|].
  destruct (ends_ok_trimEnd (String c r) true) as [H|[H _]].
  - rewrite E in H. simpl in H. rewrite Hh in H. exact H.
  - rewrite E in H. discriminate.
Qed.

Lemma tidy_collapse r : forall b,
  ends_ok b r = true -> tidy_from b (collapse_go b r) = true.
Proof.
  induction r as [|c r IH]; intros b H; simpl in *; [exact H|].
  destruct (is_ws c) eqn:Hc.
  - destruct b; [apply IH, H|]. simpl. apply IH, H.
  - simpl. destruct (ascii_eqb c " ") eqn:Hs.
    + apply space_is_ws in Hs. congruence.
    + rewrite Hc. simpl. apply IH, H.
Qed.

Lemma collapse_tidy s : forall b b',
  tidy_from b s = true -> (b' = true -> b = true) -> collapse_go b' s = s.
Proof.
  induction s as [|c r IH]; intros b b' H Hb; simpl in *; [reflexivity|].
  destruct (ascii_eqb c " ") eqn:Hs.
  - apply andb_true_iff in H as [Hb0 H]. apply negb_true_iff in Hb0. subst b.
    rewrite (space_is_ws c Hs). destruct b'; [discriminate (Hb eq_refl)|].
    apply ascii_eqb_eq in Hs as ->. f_equal. apply (IH true true H). reflexivity.
  - apply andb_true_iff in H as [Hc H]. apply negb_true_iff in Hc. rewrite Hc.
    f_equal. apply (IH false false H). discriminate.
Qed.

Lemma trimEnd_tidy s : forall b, tidy_from b s = true -> trimEnd s = s.
Proof.
  induction s as [|c r IH]; intros b H; simpl in *; [reflexivity|].
  destruct (ascii_eqb c " ") eqn:Hs.
  - apply andb_true_iff in H as [_ H]. rewrite (IH true H).
    destruct r; [discriminate H | reflexivity].
  - apply andb_true_iff in H as [Hc H]. apply negb_true_iff in Hc.
    rewrite (IH false H). rewrite Hc. destruct r; reflexivity.
Qed.

Lemma trim_tidy s : tidy s = true -> trim s = s.
Proof.
  intros H. unfold trim, trimStart.
  assert (E : drop_while is_ws s = s).
  { destruct s as [|c r]; [reflexivity|]. unfold tidy in H. simpl in H |- *.
    destruct (ascii_eqb c " "); [discriminate H|].
    apply andb_true_iff in H as [Hc _]. apply negb_true_iff in Hc.
    rewrite Hc. reflexivity. }
  rewrite E. exact (trimEnd_tidy s true H).
Qed.

Lemma tidy_nonempty s : tidy s = true -> s <> EmptyString.
Proof. intros H ->. discriminate H. Qed.

(** The text of a cleaned cell is tidy. *)
Lemma collapse_trim_tidy s :
  collapse_ws (trim s) = EmptyString \/ tidy (collapse_ws (trim s)) = true.
Proof.
  destruct (trim_shape s) as [->|(c & r & -> & Hc & Hr)]; [left; reflexivity|].
  right. unfold collapse_ws, tidy. simpl. rewrite Hc. simpl.
  destruct (ascii_eqb c " ") eqn:Hs; [apply space_is_ws in Hs; congruence|].
  rewrite Hc. simpl. apply tidy_collapse, Hr.
Qed.

Lemma clean_tidy v t : Mongo.clean v = Some t -> tidy t = true.
Proof.
  unfold Mongo.clean. destruct v as [|s|n]; [discriminate| |].
  - destruct (collapse_trim_tidy (to_string (VStr s))) as [E|H].
    + rewrite E. discriminate.
    + destruct (String.eqb _ EmptyString); [discriminate|]. intros [= <-]. exact H.
  - destruct (collapse_trim_tidy (to_string (VNum n))) as [E|H].
    + rewrite E. discriminate.
    + destruct (String.eqb _ EmptyString); [discriminate|]. intros [= <-]. exact H.
Qed.

Lemma clean_of_tidy t : tidy t = true -> Mongo.clean (VStr t) = Some t.
Proof.
  intros H. unfold Mongo.clean; cbn [to_string].
  rewrite (trim_tidy t H). unfold collapse_ws.
  rewrite (collapse_tidy t true false H) by discriminate.
  destruct (String.eqb_spec t EmptyString) as [E|_]; [|reflexivity].
  exfalso. exact (tidy_nonempty t H E).
Qed.

Lemma cleanStr_clean v : PH.cleanStr v = Mongo.clean v.
Proof. reflexivity. Qed.

End CleanedTexts.

(** X1. What [clean] (and [cleanStr], the same function) returns for a
    cell is never the empty text: it starts and ends with characters
    that are not white space, and its only white space is single spaces.
    Cleaning such a text again gives the same text. *)
Theorem X1_clean_tidy (v : JS.value) (t : string) :
  Mongo.clean v = Some t ->
  Text.tidy t = true /\ t <> EmptyString
  /\ JS.trim t = t /\ JS.collapse_ws t = t
  /\ Mongo.clean (JS.VStr t) = Some t
  /\ PH.cleanStr v = Some t /\ PH.cleanStr (JS.VStr t) = Some t.
Proof.
  intros H. pose proof (clean_tidy v t H) as Ht.
  split; [exact Ht|]. split; [exact (tidy_nonempty t Ht)|].
  split; [exact (trim_tidy t Ht)|].
  split; [unfold JS.collapse_ws; apply (collapse_tidy t true false Ht); discriminate|].
  split; [exact (clean_of_tidy t Ht)|].
  split; [exact H | exact (clean_of_tidy t Ht)].
Qed.

Lemma X1_witness :
  Text.tidy "80 mm dia" = true /\ "80 mm dia" <> EmptyString
  /\ JS.trim "80 mm dia" = "80 mm dia"
  /\ JS.collapse_ws "80 mm dia" = "80 mm dia"
  /\ Mongo.clean (JS.VStr "80 mm dia") = Some "80 mm dia"
  /\ PH.cleanStr (JS.VStr "  80   mm	dia ") = Some "80 mm dia"
  /\ PH.cleanStr (JS.VStr "80 mm dia") = Some "80 mm dia".
Proof.
  apply (X1_clean_tidy (JS.VStr "  80   mm	dia ") "80 mm dia").
  vm_compute. reflexivity.
Defined.

(* ================================================================== *)
(** * Keys, rates and the rules on indentation *)
(* ================================================================== *)

Section CanonicalForms.
Import JS Regex Text.

Lemma lower_fixed c : is_upper c = false -> lower c = c.
Proof. unfold lower. intros ->. reflexivity. Qed.

Lemma key_char_lower c : Mongo.ws_or_dot c = false -> key_char (lower c) = true.
Proof. destruct c as [[] [] [] [] [] [] [] []]; vm_compute; congruence. Qed.

Lemma key_char_inv c :
  key_char c = true -> Mongo.ws_or_dot c = false /\ is_upper c = false.
Proof. destruct c as [[] [] [] [] [] [] [] []]; vm_compute; intuition congruence. Qed.

Lemma key_chars s :
  Spec.all_of key_char
    (toLowerCase (sfilter (fun c => negb (Mongo.ws_or_dot c)) s)).
Proof.
  induction s as [|c r IH]; simpl; [exact I|].
  destruct (Mongo.ws_or_dot c) eqn:E; simpl; [exact IH|].
  split; [apply key_char_lower, E | exact IH].
Qed.

Lemma key_fixed k :
  Spec.all_of key_char k ->
  toLowerCase (sfilter (fun c => negb (Mongo.ws_or_dot c)) k) = k.
Proof.
  unfold toLowerCase.
  induction k as [|c r IH]; cbn [Spec.all_of sfilter]; [reflexivity|].
  intros [Hc Hr]. apply key_char_inv in Hc as [Hw Hu].
  rewrite Hw. cbn [negb smap]. rewrite (lower_fixed c Hu).
  f_equal. apply IH, Hr.
Qed.

Lemma snoKey_sfilter v :
  v <> VNull ->
  Mongo.snoKey v
  = Some (toLowerCase (sfilter (fun c => negb (Mongo.ws_or_dot c)) (to_string v))).
Proof.
  intros Hv. unfold Mongo.snoKey, delete_runs. rewrite delete_go_sfilter.
  destruct v; [contradiction| |]; reflexivity.
Qed.

Lemma trimEnd_ends_ok s : forall b, ends_ok b s = true -> trimEnd s = s.
Proof.
  induction s as [|c r IH]; intros b H; simpl in *; [reflexivity|].
  rewrite (IH _ H). destruct r; [|reflexivity].
  simpl in H. apply negb_true_iff in H. rewrite H. reflexivity.
Qed.

Lemma trim_trim s : trim (trim s) = trim s.
Proof.
  destruct (trim_shape s) as [->|(c & r & -> & Hc & Hr)]; [reflexivity|].
  unfold trim, trimStart. cbn [drop_while]. rewrite Hc.
  apply (trimEnd_ends_ok _ false). simpl. rewrite Hc. exact Hr.
Qed.

Lemma ascii_eqb_sym a b : ascii_eqb a b = ascii_eqb b a.
Proof. apply N.eqb_sym. Qed.

Lemma tidy_head t :
  tidy t = true -> exists c r, t = String c r /\ is_ws c = false.
Proof.
  destruct t as [|c r]; [discriminate|]. unfold tidy. simpl.
  destruct (ascii_eqb c " "); [discriminate|].
  intros H. apply andb_true_iff in H as [H _]. apply negb_true_iff in H.
  exists c, r. split; [reflexivity | exact H].
Qed.

Lemma matches_void X Y s : matches (Cat (Cat Void X) Y) s = false.
Proof. induction s as [|c r IH]; simpl; [reflexivity | exact IH]. Qed.

(** A rate that stays a text. *)
Lemma mongo_parseRate_VStr v s :
  Mongo.parseRate v = VStr s ->
  s <> EmptyString /\ trim s = s /\ parseFloat s = NaN.
Proof.
  destruct v as [|s0|n]; [discriminate| |discriminate].
  unfold Mongo.parseRate. cbn [to_string].
  destruct (String.eqb_spec (trim s0) EmptyString) as [E|E]; [discriminate|].
  destruct (parseFloat (trim s0)) eqn:F; simpl; try discriminate.
  intros [= <-]. split; [exact E|]. split; [apply trim_trim | exact F].
Qed.

Lemma ph_parseRate_VStr v s :
  PH.parseRate v = VStr s ->
  s <> EmptyString /\ s <> "-" /\ trim s = s /\ parseFloat s = NaN.
Proof.
  destruct v as [|s0|n]; [discriminate| |discriminate].
  unfold PH.parseRate. cbn [to_string].
  destruct (String.eqb_spec (trim s0) EmptyString) as [E|E]; [discriminate|].
  destruct (String.eqb_spec (trim s0) "-") as [E'|E']; [discriminate|].
  simpl. destruct (parseFloat (trim s0)) eqn:F; simpl; try discriminate.
  intros [= <-]. split; [exact E|]. split; [exact E'|].
  split; [apply trim_trim | exact F].
Qed.

End CanonicalForms.

(** X2. A key is in canonical form: it holds no white space, no dot
    and no upper-case letter, and it is its own key, for [snoKey] and
    for the two key expressions of publichealth.js. *)
Theorem X2_key_canonical_form (v : JS.value) (k : string) :
  Mongo.snoKey v = Some k ->
  Spec.all_of Text.key_char k
  /\ Mongo.snoKey (JS.VStr k) = Some k
  /\ PH.header_key (JS.VStr k) = k
  /\ JS.toLowerCase (PH.simple_key (JS.VStr k)) = k.
Proof.
  intros H.
  assert (Hv : v <> JS.VNull) by (intros ->; discriminate H).
  rewrite (snoKey_sfilter v Hv) in H. injection H as <-.
  pose proof (key_chars (JS.to_string v)) as Hk.
  set (k := JS.toLowerCase _) in *.
  assert (E : Mongo.snoKey (JS.VStr k) = Some k).
  { rewrite snoKey_sfilter by discriminate. cbn [JS.to_string].
    rewrite (key_fixed k Hk). reflexivity. }
  split; [exact Hk|]. split; [exact E|].
  rewrite snoKey_canonicalKey in E.
  split.
  - pose proof (header_key_canonicalKey (JS.VStr k)) as H1.
    rewrite E in H1. specialize (H1 ltac:(discriminate)). congruence.
  - pose proof (simple_key_canonicalKey (JS.VStr k)) as H1.
    rewrite E in H1. specialize (H1 ltac:(discriminate)). congruence.
Qed.

Lemma X2_witness :
  Spec.all_of Text.key_char "18a"
  /\ Mongo.snoKey (JS.VStr "18a") = Some "18a"
  /\ PH.header_key (JS.VStr "18a") = "18a"
  /\ JS.toLowerCase (PH.simple_key (JS.VStr "18a")) = "18a".
Proof.
  apply (X2_key_canonical_form (JS.VStr " 18. A. ") "18a").
  vm_compute. reflexivity.
Defined.

(** X3. Parsing a parsed rate changes nothing, in both scripts; a rate
    that stays a text is not empty, has no white space at its ends and
    does not start with a number ([parseFloat] gives [NaN] on it), and
    in publichealth.js it is not ["-"]. *)
Theorem X3_parseRate_stable (v : JS.value) :
  Mongo.parseRate (Mongo.parseRate v) = Mongo.parseRate v
  /\ PH.parseRate (PH.parseRate v) = PH.parseRate v
  /\ (forall s, Mongo.parseRate v = JS.VStr s ->
        s <> EmptyString /\ JS.trim s = s /\ JS.parseFloat s = JS.NaN)
  /\ (forall s, PH.parseRate v = JS.VStr s ->
        s <> EmptyString /\ s <> "-" /\ JS.trim s = s
        /\ JS.parseFloat s = JS.NaN).
Proof.
  pose proof (mongo_parseRate_VStr v) as HM.
  pose proof (ph_parseRate_VStr v) as HP.
  split; [|split; [|split; [exact HM | exact HP]]].
  - destruct (Mongo.parseRate v) as [|s|n] eqn:E; [reflexivity| |reflexivity].
    destruct (HM s eq_refl) as (Hne & Ht & Hf).
    unfold Mongo.parseRate. cbn [JS.to_string]. rewrite Ht, Hf.
    destruct (String.eqb_spec s EmptyString) as [E'|_]; [contradiction|].
    reflexivity.
  - destruct (PH.parseRate v) as [|s|n] eqn:E; [reflexivity| |reflexivity].
    destruct (HP s eq_refl) as (Hne & Hd & Ht & Hf).
    unfold PH.parseRate. cbn [JS.to_string]. rewrite Ht, Hf.
    destruct (String.eqb_spec s EmptyString) as [E'|_]; [contradiction|].
    destruct (String.eqb_spec s "-") as [E'|_]; [contradiction|].
    reflexivity.
Qed.

Lemma X3_witness :
  Mongo.parseRate (Mongo.parseRate (JS.VStr " As per Common SSR "))
  = Mongo.parseRate (JS.VStr " As per Common SSR ").
Proof. exact (proj1 (X3_parseRate_stable (JS.VStr " As per Common SSR "))). Defined.

(** X4. The rule of publichealth.js for the continuation of a note,
    line 171, never takes a row: the description is cleaned first, so
    it never starts with a space. *)
Theorem X4_continuation_rule_dead (r : JS.row) :
  PH.is_continuation (PH.normalise r) = false.
Proof.
  unfold PH.is_continuation. cbn [PH.normalise PH.desc].
  rewrite cleanStr_clean.
  destruct (Mongo.clean (JS.cell r 2)) as [t|] eqn:E.
  - destruct (tidy_head t (clean_tidy _ _ E)) as (c & t' & -> & Hc).
    change (default "null" (Some (String c t'))) with (String c t').
    cbn [JS.startsWith]. rewrite (ascii_eqb_sym " " c).
    destruct (JS.ascii_eqb c " ") eqn:Hs.
    + apply space_is_ws in Hs. congruence.
    + cbn [andb]. apply andb_false_r.
  - cbn [JS.truthy_s]. rewrite andb_false_r. reflexivity.
Qed.

(** X5. The pattern [/^\s{4,}/] of [isSkip] never matches the
    description of a row: the description is cleaned first, so it does
    not start with white space. *)
Theorem X5_isSkip_indentation_dead (v : JS.value) (d : string) :
  Mongo.clean v = Some d ->
  Regex.test_prefix
    (Regex.Cat (Regex.Chr JS.is_ws) (Regex.Cat (Regex.Chr JS.is_ws)
      (Regex.Cat (Regex.Chr JS.is_ws) (Regex.Plus (Regex.Chr JS.is_ws))))) d
  = false
  /\ Mongo.isSkip (Some d)
     = (Regex.test_prefix (Regex.LitCI "DIAMETER OF PIPE") d
        || Regex.test_prefix
             (Regex.Cat (Regex.LitCI "DIA ")
                (Regex.Alt (Regex.LitCI "in") (Regex.LitCI "of"))) d
        || Regex.test_full (Regex.Cat (Regex.LitCI "NOTE") Regex.WordEnd) d).
Proof.
  intros H. pose proof (clean_tidy v d H) as Ht.
  destruct (tidy_head d Ht) as (c & t & -> & Hc).
  assert (E : Regex.test_prefix
    (Regex.Cat (Regex.Chr JS.is_ws) (Regex.Cat (Regex.Chr JS.is_ws)
      (Regex.Cat (Regex.Chr JS.is_ws) (Regex.Plus (Regex.Chr JS.is_ws)))))
    (String c t) = false).
  { unfold Regex.test_prefix. cbn [Regex.matches Regex.deriv Regex.nullable andb].
    rewrite Hc. apply matches_void. }
  split; [exact E|].
  unfold Mongo.isSkip. rewrite E, orb_false_r. reflexivity.
Qed.

Lemma X5_witness :
  Regex.test_prefix
    (Regex.Cat (Regex.Chr JS.is_ws) (Regex.Cat (Regex.Chr JS.is_ws)
      (Regex.Cat (Regex.Chr JS.is_ws) (Regex.Plus (Regex.Chr JS.is_ws)))))
    "NOTE : rates"
  = false
  /\ Mongo.isSkip (Some "NOTE : rates")
     = (Regex.test_prefix (Regex.LitCI "DIAMETER OF PIPE") "NOTE : rates"
        || Regex.test_prefix
             (Regex.Cat (Regex.LitCI "DIA ")
                (Regex.Alt (Regex.LitCI "in") (Regex.LitCI "of"))) "NOTE : rates"
        || Regex.test_full (Regex.Cat (Regex.LitCI "NOTE") Regex.WordEnd)
             "NOTE : rates").
Proof.
  apply (X5_isSkip_indentation_dead (JS.VStr "      NOTE :  rates") "NOTE : rates").
  vm_compute. reflexivity.
Defined.

(* ================================================================== *)
(** * The rows of storeToMongoDB.js, one by one *)
(* ================================================================== *)

Section MongoRows.
Import JS Mongo Rows.

Lemma guards_inside st c :
  not_null (currentSection st) = true ->
  is_sub st c = isSubSection (sno c) (c_unit c) (c_rate c)
  /\ is_auto_sub st c = auto_text c
  /\ is_rate_item st c = truthy_s (c_unit c) && negb (is_null (c_rate c))
  /\ is_rate_only st c
     = negb (is_null (c_rate c)) && negb (truthy_s (c_unit c))
       && negb (truthy (sno c)).
Proof.
  intros H. unfold is_sub, is_auto_sub, is_rate_item, is_rate_only, auto_text.
  rewrite H. cbn [andb]. rewrite andb_true_r. repeat split; reflexivity.
Qed.

Lemma guards_outside st c :
  currentSection st = None ->
  is_sub st c = false /\ is_auto_sub st c = false
  /\ is_rate_item st c = false /\ is_rate_only st c = false.
Proof.
  intros H. unfold is_sub, is_auto_sub, is_rate_item, is_rate_only.
  rewrite H. cbn [not_null andb]. rewrite andb_false_r. repeat split; reflexivity.
Qed.

(** Before the first section, a row that opens none changes nothing. *)
Lemma step_outside st r :
  currentSection st = None -> opens (normalise r) = false -> step st r = Ok st.
Proof.
  intros Hc Ho. unfold step. cbv zeta. unfold opens in Ho.
  destruct (is_blank (normalise r)); [reflexivity|].
  cbn [negb andb] in Ho. apply orb_false_iff in Ho as [-> ->].
  destruct (guards_outside st (normalise r) Hc) as (-> & -> & -> & ->).
  reflexivity.
Qed.

Lemma open_sub_shape st ss st' :
  open_sub_section st ss = Ok st' ->
  exists i sec,
    currentSection st = Some i /\ sections st !! i = Some sec
    /\ st' = {| sections :=
                  <[i := with_sub_sections sec (sub_sections sec ++ [ss])]>
                    (sections st);
                currentSection := Some i;
                currentSubSection := Some (length (sub_sections sec)) |}.
Proof.
  unfold open_sub_section.
  destruct (currentSection st) as [i|]; simpl; [|discriminate].
  destruct (sections st !! i) as [sec|] eqn:Hs; simpl; [|discriminate].
  intros [= <-]. exists i, sec.
  split; [reflexivity|]. split; [exact Hs | reflexivity].
Qed.

Lemma push_item_shape st it st' :
  push_item st it = Ok st' ->
  exists i sec,
    currentSection st = Some i /\ sections st !! i = Some sec
    /\ currentSection st' = Some i
    /\ currentSubSection st' = currentSubSection st
    /\ ((currentSubSection st = None
         /\ sections st'
            = <[i := with_items sec (s_items sec ++ [it])]> (sections st))
        \/ (exists j ss,
              currentSubSection st = Some j /\ sub_sections sec !! j = Some ss
              /\ sections st'
                 = <[i := with_sub_sections sec
                            (<[j := with_ss_items ss (ss_items ss ++ [it])]>
                               (sub_sections sec))]> (sections st))).
Proof.
  destruct st as [secs [i|] cs];
    unfold push_item, target, set_target, the_sub_section, the_section,
      set_section; simpl; [|destruct cs; discriminate].
  destruct (secs !! i) as [sec|] eqn:Hs; simpl; [|destruct cs; discriminate].
  destruct cs as [j|]; simpl.
  - destruct (sub_sections sec !! j) as [ss|] eqn:Hss; simpl; [|discriminate].
    intros [= <-]. exists i, sec. simpl.
    split; [reflexivity|]. split; [exact Hs|]. split; [reflexivity|].
    split; [reflexivity|].
    right. exists j, ss. split; [reflexivity|]. split; [exact Hss | reflexivity].
  - intros [= <-]. exists i, sec. simpl.
    split; [reflexivity|]. split; [exact Hs|]. split; [reflexivity|].
    split; [reflexivity|].
    left. split; reflexivity.
Qed.

(** What a row does to a state in which every item has a rate. *)
Lemma step_cases st r st' :
  all_rated st -> step st r = Ok st' ->
  (opens (normalise r) = true
   /\ st' = open_section st (opened (normalise r)))
  \/ (opens (normalise r) = false /\ st' = st
      /\ (currentSection st = None
          \/ (opens_sub (normalise r) = false
              /\ adds_item (normalise r) = false)))
  \/ (opens (normalise r) = false /\ opens_sub (normalise r) = true
      /\ adds_item (normalise r) = false
      /\ exists ss, ss_items ss = [] /\ open_sub_section st ss = Ok st')
  \/ (opens (normalise r) = false /\ opens_sub (normalise r) = false
      /\ adds_item (normalise r) = true
      /\ c_rate (normalise r) <> VNull
      /\ exists u,
           push_item st
             (buildRateItem (desc (normalise r)) u (c_rate (normalise r)))
           = Ok st').
Proof.
  intros Hall. unfold step, opens, opens_sub, adds_item, opened.
  generalize (normalise r). intros c. cbv zeta.
  destruct (is_blank c).
  { intros [= <-]. right. left. cbn [negb andb]. repeat split. right. split; reflexivity. }
  destruct (is_compound c).
  { intros [= <-]. left. split; reflexivity. }
  destruct (is_header c).
  { intros [= <-]. left. split; reflexivity. }
  cbn [negb andb orb].
  destruct (currentSection st) as [i|] eqn:Hi.
  2:{ destruct (guards_outside st c Hi) as (-> & -> & -> & ->).
      intros [= <-]. right. left. repeat split. left. reflexivity. }
  assert (Hn : not_null (currentSection st) = true) by (rewrite Hi; reflexivity).
  destruct (guards_inside st c Hn) as (-> & -> & -> & ->).
  destruct (isSubSection (sno c) (c_unit c) (c_rate c)).
  { intros H. right. right. left. cbn [negb andb orb]. repeat split.
    eexists. split; [|exact H]. reflexivity. }
  destruct (auto_text c).
  { destruct (the_section st) as [sec|]; simpl; [|discriminate].
    intros H. right. right. left. cbn [negb andb orb]. repeat split.
    eexists. split; [|exact H]. reflexivity. }
  cbn [negb andb orb].
  destruct (is_null (c_rate c)) eqn:Hr.
  { rewrite andb_false_r. cbn [negb andb]. intros [= <-].
    right. left. repeat split. right. split; reflexivity. }
  assert (Hr' : c_rate c <> VNull) by (intros E; rewrite E in Hr; discriminate).
  cbn [negb andb]. rewrite andb_true_r.
  destruct (truthy_s (c_unit c)).
  { intros H. right. right. right. cbn [orb]. repeat split; [exact Hr'|].
    eexists. exact H. }
  cbn [negb andb orb].
  destruct (truthy (sno c)).
  { intros [= <-]. right. left. cbn [negb]. repeat split. right. split; reflexivity. }
  cbn [negb]. rewrite rate_only_pushes by exact Hall.
  intros H. right. right. right. repeat split; [exact Hr'|].
  eexists. exact H.
Qed.

Lemma run_app rows1 rows2 st :
  run st (rows1 ++ rows2)%list = (st1 ← run st rows1; run st1 rows2).
Proof.
  revert st. induction rows1 as [|r rows1 IH]; intros st; simpl; [reflexivity|].
  destruct (step st r) as [st1|]; simpl; [apply IH | reflexivity].
Qed.

Lemma run_outside pre :
  Forall (fun r => opens (normalise r) = false) pre -> run init pre = Ok init.
Proof.
  induction 1 as [|r pre Hr _ IH]; simpl; [reflexivity|].
  rewrite (step_outside init r eq_refl Hr). simpl. exact IH.
Qed.

Lemma map_insert_same {A B : Type} (f : A -> B) (l : list A) i x x' :
  l !! i = Some x -> f x' = f x -> map f (<[i := x']> l) = map f l.
Proof.
  revert i. induction l as [|y l IH]; intros [|i]; simpl; try discriminate.
  - intros [= ->] ->. reflexivity.
  - intros H E. f_equal. apply IH; assumption.
Qed.

(** A row adds the section it opens, and leaves the sections as they
    were opened. *)
Lemma step_bare st r st' :
  all_rated st -> step st r = Ok st' ->
  map bare (sections st')
  = (map bare (sections st)
     ++ map opened (List.filter opens [normalise r]))%list.
Proof.
  intros Hall H. cbn [List.filter].
  destruct (step_cases st r st' Hall H)
    as [(-> & ->)|[(-> & -> & _)|[(-> & _ & _ & ss & _ & Hs)|(-> & _ & _ & _ & u & Hp)]]].
  - cbn [open_section sections map]. rewrite map_app. reflexivity.
  - cbn [map]. rewrite app_nil_r. reflexivity.
  - cbn [map]. rewrite app_nil_r.
    apply open_sub_shape in Hs as (i & sec & _ & Hsec & ->). cbn [sections].
    apply (map_insert_same bare _ i sec); [exact Hsec | reflexivity].
  - cbn [map]. rewrite app_nil_r.
    apply push_item_shape in Hp as (i & sec & _ & Hsec & _ & _ & [(_ & ->)|(j & ss & _ & _ & ->)]);
      apply (map_insert_same bare _ i sec); try exact Hsec; reflexivity.
Qed.

Lemma run_bare rows : forall st st',
  all_rated st -> run st rows = Ok st' ->
  map bare (sections st')
  = (map bare (sections st)
     ++ map opened (List.filter opens (map normalise rows)))%list.
Proof.
  induction rows as [|r rows IH]; intros st st' Hall; simpl.
  - intros [= <-]. rewrite app_nil_r. reflexivity.
  - destruct (step st r) as [st1|] eqn:E; simpl; [|discriminate].
    intros Hrun. destruct (step_rated st r st1 Hall E) as [Hall1 _].
    rewrite (IH st1 st' Hall1 Hrun), (step_bare st r st1 Hall E).
    cbn [List.filter]. rewrite <- app_assoc. f_equal.
    destruct (opens (normalise r)); reflexivity.
Qed.

End MongoRows.

(** X6. The rows before the first row that opens a section are
    dropped, whatever they hold: the result is that of the sheet
    without them, and a sheet without such a row gives no section. *)
Theorem X6_rows_before_first_section (pre rest : list JS.row) :
  Forall (fun r => Rows.opens (Mongo.normalise r) = false) pre ->
  Mongo.run Mongo.init (pre ++ rest)%list = Mongo.run Mongo.init rest
  /\ Mongo.parseExcel ([[]; []] ++ pre)%list = JS.Ok [].
Proof.
  intros H. split.
  - rewrite run_app, (run_outside pre H). reflexivity.
  - unfold Mongo.parseExcel.
    change (drop 2 ([[]; []] ++ pre)%list) with pre.
    rewrite (run_outside pre H).
    reflexivity.
Qed.

Lemma X6_witness :
  Mongo.run Mongo.init
    ([[JS.VNull; JS.VNull; JS.VStr "80 mm"; JS.VStr "rm"; JS.VNum (JS.of_Z 120)]]
     ++ [[JS.VNull; JS.VNum (JS.of_Z 1); JS.VStr "LABOUR"]])%list
  = Mongo.run Mongo.init [[JS.VNull; JS.VNum (JS.of_Z 1); JS.VStr "LABOUR"]]
  /\ Mongo.parseExcel
       ([[]; []]
        ++ [[JS.VNull; JS.VNull; JS.VStr "80 mm"; JS.VStr "rm";
             JS.VNum (JS.of_Z 120)]])%list
     = JS.Ok [].
Proof.
  apply (X6_rows_before_first_section
    [[JS.VNull; JS.VNull; JS.VStr "80 mm"; JS.VStr "rm"; JS.VNum (JS.of_Z 120)]]
    [[JS.VNull; JS.VNum (JS.of_Z 1); JS.VStr "LABOUR"]]).
  constructor; [vm_compute; reflexivity | constructor].
Defined.

(** X7. The sections of the result are the sections that the rows
    which open one build, in the order of the sheet; the later rows
    change nothing of a section but its sub-sections and items. *)
Theorem X7_sections_in_sheet_order (rows : list JS.row)
  (secs : list Mongo.Section) :
  Mongo.parseExcel rows = JS.Ok secs ->
  map Rows.bare secs
  = map Rows.opened
      (List.filter Rows.opens (map Mongo.normalise (drop 2 rows)))
  /\ Meta.total_sections secs
     = length (List.filter Rows.opens (map Mongo.normalise (drop 2 rows))).
Proof.
  unfold Mongo.parseExcel.
  destruct (Mongo.run Mongo.init (drop 2 rows)) as [st|] eqn:Hrun; simpl;
    [|discriminate].
  intros [= <-].
  pose proof (run_bare (drop 2 rows) Mongo.init st all_rated_init Hrun) as H.
  cbn [Mongo.init Mongo.sections map app] in H.
  split; [exact H|].
  unfold Meta.total_sections.
  rewrite <- (length_map Rows.bare), H, length_map. reflexivity.
Qed.

Lemma X7_witness :
  map Rows.bare
    [Mongo.buildSection (JS.VNum (JS.of_Z 7)) (Some "7") (Some "LOADING") None
       JS.VNull]
  = map Rows.opened
      (List.filter Rows.opens
         (map Mongo.normalise
            (drop 2 [[]; []; [JS.VNull; JS.VNum (JS.of_Z 7); JS.VStr "LOADING"];
                     [JS.VNull; JS.VNull; JS.VStr "free text"]])))
  /\ Meta.total_sections
       [Mongo.buildSection (JS.VNum (JS.of_Z 7)) (Some "7") (Some "LOADING") None
          JS.VNull]
     = length
         (List.filter Rows.opens
            (map Mongo.normalise
               (drop 2 [[]; []; [JS.VNull; JS.VNum (JS.of_Z 7); JS.VStr "LOADING"];
                        [JS.VNull; JS.VNull; JS.VStr "free text"]]))).
Proof.
  apply (X7_sections_in_sheet_order
    [[]; []; [JS.VNull; JS.VNum (JS.of_Z 7); JS.VStr "LOADING"];
     [JS.VNull; JS.VNull; JS.VStr "free text"]]).
  vm_compute. reflexivity.
Defined.

(* ================================================================== *)
(** * Counts, rate types and cursors of storeToMongoDB.js *)
(* ================================================================== *)

Section MongoCounts.
Import JS Mongo Rows Meta.

Lemma fold_left_sum {A : Type} (f : A -> nat) (l : list A) : forall a,
  fold_left (fun acc x => acc + f x) l a = a + list_sum (map f l).
Proof.
  induction l as [|x l IH]; intros a; simpl; [lia|]. rewrite IH. lia.
Qed.

Lemma total_items_sum secs : total_items secs = list_sum (map items_in secs).
Proof.
  unfold total_items.
  enough (H : forall a,
    fold_left
      (fun sum s =>
         sum + length (s_items s)
         + fold_left (fun a ss => a + length (ss_items ss)) (sub_sections s) 0)
      secs a
    = a + list_sum (map items_in secs)) by (rewrite H; lia).
  induction secs as [|s secs IH]; intros a; simpl; [lia|].
  rewrite IH, (fold_left_sum (fun ss => length (ss_items ss))).
  unfold items_in. lia.
Qed.

Lemma list_sum_insert {A : Type} (f : A -> nat) (l : list A) i x x' :
  l !! i = Some x ->
  list_sum (map f (<[i := x']> l)) + f x = list_sum (map f l) + f x'.
Proof.
  revert i. induction l as [|y l IH]; intros [|i]; simpl; try discriminate.
  - intros [= ->]. lia.
  - intros H. specialize (IH i H). lia.
Qed.

Lemma items_in_add_sub sec ss :
  items_in (with_sub_sections sec (sub_sections sec ++ [ss]))
  = items_in sec + length (ss_items ss).
Proof.
  unfold items_in. cbn [with_sub_sections sub_sections s_items].
  rewrite map_app, list_sum_app. simpl. lia.
Qed.

Lemma items_in_push sec it :
  items_in (with_items sec (s_items sec ++ [it])) = S (items_in sec).
Proof.
  unfold items_in. cbn [with_items sub_sections s_items].
  rewrite length_app. simpl. lia.
Qed.

Lemma items_in_push_sub sec j ss it :
  sub_sections sec !! j = Some ss ->
  items_in
    (with_sub_sections sec
       (<[j := with_ss_items ss (ss_items ss ++ [it])]> (sub_sections sec)))
  = S (items_in sec).
Proof.
  intros Hss. unfold items_in. cbn [with_sub_sections sub_sections s_items].
  pose proof (list_sum_insert (fun ss => length (ss_items ss))
    (sub_sections sec) j ss (with_ss_items ss (ss_items ss ++ [it])) Hss) as H.
  cbn [with_ss_items ss_items] in H. rewrite length_app in H. simpl in H. lia.
Qed.

(** Inside a section, a row adds at most one sub-section or one item,
    as its kind says, and the next row is inside a section too. *)
Lemma step_counts st r st' :
  all_rated st -> not_null (currentSection st) = true ->
  step st r = Ok st' ->
  not_null (currentSection st') = true
  /\ total_items (sections st')
     = total_items (sections st)
       + length (List.filter adds_item [normalise r])
  /\ total_sub_sections (sections st')
     = total_sub_sections (sections st)
       + length (List.filter opens_sub [normalise r]).
Proof.
  intros Hall Hn H. rewrite !total_items_sum. unfold total_sub_sections.
  cbn [List.filter].
  destruct (step_cases st r st' Hall H)
    as [(Ho & ->)|[(Ho & -> & [Hc|(-> & ->)])|[(Ho & -> & -> & ss & Hss & Hs)
       |(Ho & -> & -> & _ & u & Hp)]]].
  - assert (adds_item (normalise r) = false /\ opens_sub (normalise r) = false)
      as [-> ->].
    { revert Ho. unfold opens, adds_item, opens_sub.
      destruct (is_blank _); [discriminate|].
      destruct (is_compound _); [split; reflexivity|].
      destruct (is_header _); [split; reflexivity | discriminate]. }
    cbn [open_section sections currentSection not_null length].
    rewrite !map_app, !list_sum_app. simpl. split; [reflexivity|]. lia.
  - rewrite Hc in Hn. discriminate.
  - cbn [length]. split; [exact Hn|]. lia.
  - apply open_sub_shape in Hs as (i & sec & _ & Hsec & ->).
    cbn [sections currentSection not_null length]. split; [reflexivity|].
    pose proof (list_sum_insert items_in (sections st) i sec
      (with_sub_sections sec (sub_sections sec ++ [ss])) Hsec) as H1.
    pose proof (list_sum_insert (fun s => length (sub_sections s)) (sections st)
      i sec (with_sub_sections sec (sub_sections sec ++ [ss])) Hsec) as H2.
    cbn beta in H2. rewrite items_in_add_sub, Hss in H1.
    cbn [with_sub_sections sub_sections] in H2. rewrite length_app in H2.
    simpl in H1, H2. lia.
  - apply push_item_shape in Hp
      as (i & sec & _ & Hsec & Hc' & _ & [(_ & Hsecs)|(j & ss & _ & Hss & Hsecs)]);
      rewrite Hc', Hsecs; cbn [not_null length]; (split; [reflexivity|]).
    + set (it := buildRateItem _ _ _).
      pose proof (list_sum_insert items_in (sections st) i sec
        (with_items sec (s_items sec ++ [it])) Hsec) as H1.
      pose proof (list_sum_insert (fun s => length (sub_sections s)) (sections st)
        i sec (with_items sec (s_items sec ++ [it])) Hsec) as H2.
      cbn beta in H2. rewrite items_in_push in H1.
      cbn [with_items sub_sections] in H2. lia.
    + set (it := buildRateItem _ _ _).
      pose proof (list_sum_insert items_in (sections st) i sec
        (with_sub_sections sec
           (<[j := with_ss_items ss (ss_items ss ++ [it])]> (sub_sections sec)))
        Hsec) as H1.
      pose proof (list_sum_insert (fun s => length (sub_sections s)) (sections st)
        i sec
        (with_sub_sections sec
           (<[j := with_ss_items ss (ss_items ss ++ [it])]> (sub_sections sec)))
        Hsec) as H2.
      cbn beta in H2. rewrite (items_in_push_sub sec j ss it Hss) in H1.
      cbn [with_sub_sections sub_sections] in H2.
      rewrite length_insert in H2. lia.
Qed.

Lemma run_counts rows : forall st st',
  all_rated st -> not_null (currentSection st) = true ->
  run st rows = Ok st' ->
  total_items (sections st')
  = total_items (sections st)
    + length (List.filter adds_item (map normalise rows))
  /\ total_sub_sections (sections st')
     = total_sub_sections (sections st)
       + length (List.filter opens_sub (map normalise rows)).
Proof.
  induction rows as [|r rows IH]; intros st st' Hall Hn; simpl.
  - intros [= <-]. lia.
  - destruct (step st r) as [st1|] eqn:E; simpl; [|discriminate].
    intros Hrun. destruct (step_rated st r st1 Hall E) as [Hall1 _].
    destruct (step_counts st r st1 Hall Hn E) as (Hn1 & H1 & H2).
    destruct (IH st1 st' Hall1 Hn1 Hrun) as [H3 H4].
    cbn [List.filter] in H1, H2.
    destruct (adds_item (normalise r)), (opens_sub (normalise r));
      simpl in *; lia.
Qed.

Lemma opens_not_others c :
  opens c = true -> adds_item c = false /\ opens_sub c = false.
Proof.
  unfold opens, adds_item, opens_sub.
  destruct (is_blank c); [discriminate|].
  destruct (is_compound c); [split; reflexivity|].
  destruct (is_header c); [split; reflexivity | discriminate].
Qed.

Lemma run_counts_init rows : forall st',
  run init rows = Ok st' ->
  total_items (sections st')
  = length (List.filter adds_item (from_first opens (map normalise rows)))
  /\ total_sub_sections (sections st')
     = length (List.filter opens_sub (from_first opens (map normalise rows))).
Proof.
  induction rows as [|r rows IH]; intros st'; simpl.
  - intros [= <-]. split; reflexivity.
  - destruct (opens (normalise r)) eqn:Ho.
    + destruct (step init r) as [st1|] eqn:E; simpl; [|discriminate].
      intros Hrun.
      destruct (step_rated init r st1 all_rated_init E) as [Hall1 _].
      destruct (step_cases init r st1 all_rated_init E)
        as [(_ & ->)|[(Ho' & _)|[(Ho' & _)|(Ho' & _)]]];
        try (rewrite Ho in Ho'; discriminate).
      destruct (run_counts rows _ st' Hall1 eq_refl Hrun) as [H1 H2].
      destruct (opens_not_others _ Ho) as [Ha Hs].
      cbn [List.filter]. rewrite Ha, Hs. exact (conj H1 H2).
    + rewrite (step_outside init r eq_refl Ho). simpl. apply IH.
Qed.

End MongoCounts.

(** X8. The number of items that [storeToMongoDB] writes to the
    metadata is the number of rows, from the first row that opens a
    section on, that come to one of the two rules for rates: each of
    them adds one item, and no other row adds one. The sub-sections are
    counted by their rows in the same way. *)
Theorem X8_total_items_counts_rows (rows : list JS.row)
  (secs : list Mongo.Section) :
  Mongo.parseExcel rows = JS.Ok secs ->
  Meta.total_items secs
  = length (List.filter Rows.adds_item
              (Rows.from_first Rows.opens (map Mongo.normalise (drop 2 rows))))
  /\ Meta.total_sub_sections secs
     = length (List.filter Rows.opens_sub
                 (Rows.from_first Rows.opens
                    (map Mongo.normalise (drop 2 rows)))).
Proof.
  unfold Mongo.parseExcel.
  destruct (Mongo.run Mongo.init (drop 2 rows)) as [st|] eqn:Hrun; simpl;
    [|discriminate].
  intros [= <-]. exact (run_counts_init (drop 2 rows) st Hrun).
Qed.

Lemma X8_witness :
  exists secs,
    Mongo.parseExcel
      [[]; [];
       [JS.VNull; JS.VNull; JS.VStr "lost"; JS.VStr "rm"; JS.VNum (JS.of_Z 5)];
       [JS.VNull; JS.VNum (JS.of_Z 12); JS.VStr "LAYING PIPES"];
       [JS.VNull; JS.VNull; JS.VStr "G.I. PIPES :"];
       [JS.VNull; JS.VNull; JS.VStr "15 mm"; JS.VStr "rm"; JS.VNum (JS.of_Z 9)];
       [JS.VNull; JS.VNull; JS.VStr "extra"; JS.VNull; JS.VStr "As per SSR"]]
    = JS.Ok secs
    /\ Meta.total_items secs = 2 /\ Meta.total_sub_sections secs = 1.
Proof.
  eexists. split; [vm_compute; reflexivity|].
  refine (X8_total_items_counts_rows
    [[]; [];
     [JS.VNull; JS.VNull; JS.VStr "lost"; JS.VStr "rm"; JS.VNum (JS.of_Z 5)];
     [JS.VNull; JS.VNum (JS.of_Z 12); JS.VStr "LAYING PIPES"];
     [JS.VNull; JS.VNull; JS.VStr "G.I. PIPES :"];
     [JS.VNull; JS.VNull; JS.VStr "15 mm"; JS.VStr "rm"; JS.VNum (JS.of_Z 9)];
     [JS.VNull; JS.VNull; JS.VStr "extra"; JS.VNull; JS.VStr "As per SSR"]] _ _).
  vm_compute. reflexivity.
Defined.

Section MongoTyped.
Import JS Mongo Rows.

Lemma typed_buildRateItem r d u :
  c_rate (normalise r) <> VNull ->
  typed (buildRateItem d u (c_rate (normalise r))).
Proof.
  unfold typed. cbn [normalise c_rate buildRateItem rate rate_type].
  destruct (parseRate (cell r 4)) as [|s|n] eqn:E; [contradiction| |reflexivity].
  intros _. destruct (mongo_parseRate_VStr _ _ E) as (H1 & _ & H3).
  split; [reflexivity|]. split; assumption.
Qed.

Lemma step_typed st r st' :
  all_rated st -> Forall sec_typed (sections st) -> step st r = Ok st' ->
  Forall sec_typed (sections st').
Proof.
  intros Hall Ht H.
  destruct (step_cases st r st' Hall H)
    as [(_ & ->)|[(_ & -> & _)|[(_ & _ & _ & ss & Hss & Hs)
       |(_ & _ & _ & Hr & u & Hp)]]].
  - cbn [open_section sections]. apply Forall_app. split; [exact Ht|].
    constructor; [|constructor]. split; constructor.
  - exact Ht.
  - apply open_sub_shape in Hs as (i & sec & _ & Hsec & ->). cbn [sections].
    apply Forall_insert; [exact Ht|].
    destruct (proj1 (Forall_lookup _ _) Ht i sec Hsec) as [H1 H2].
    split; [exact H1|]. cbn [with_sub_sections sub_sections].
    apply Forall_app. split; [exact H2|].
    constructor; [|constructor]. rewrite Hss. constructor.
  - pose proof (typed_buildRateItem r (desc (normalise r)) u Hr) as Hit.
    apply push_item_shape in Hp
      as (i & sec & _ & Hsec & _ & _ & [(_ & ->)|(j & ss & _ & Hss & ->)]);
      destruct (proj1 (Forall_lookup _ _) Ht i sec Hsec) as [H1 H2];
      (apply Forall_insert; [exact Ht|]).
    + split; [|exact H2]. cbn [with_items s_items].
      apply Forall_app. split; [exact H1|]. constructor; [exact Hit | constructor].
    + split; [exact H1|]. cbn [with_sub_sections sub_sections].
      apply Forall_insert; [exact H2|]. cbn [with_ss_items ss_items].
      apply Forall_app. split; [exact (proj1 (Forall_lookup _ _) H2 j ss Hss)|].
      constructor; [exact Hit | constructor].
Qed.

Lemma run_typed rows st :
  run init rows = Ok st -> Forall sec_typed (sections st).
Proof.
  intros Hrun.
  refine (proj2 (run_invariant
    (fun s => all_rated s /\ Forall sec_typed (sections s)) rows _ init st _ Hrun)).
  - intros s r s' [Ha Ht] E. split.
    + exact (proj1 (step_rated s r s' Ha E)).
    + exact (step_typed s r s' Ha Ht E).
  - split; [apply all_rated_init | constructor].
Qed.

(** ** The cursors *)

Lemma last_index_insert {A : Type} (l : list A) i x :
  last_index (<[i := x]> l) = last_index l.
Proof.
  unfold last_index. destruct l as [|y l]; [reflexivity|].
  destruct i; simpl; rewrite ?length_insert; reflexivity.
Qed.

Lemma last_index_snoc {A : Type} (l : list A) x :
  last_index (l ++ [x]) = Some (length l).
Proof.
  unfold last_index. destruct (l ++ [x])%list eqn:E.
  - destruct l; discriminate.
  - rewrite <- E, length_app. simpl. f_equal. lia.
Qed.

Lemma at_end_insert secs i sec' cs :
  secs <> [] -> i = (length secs - 1)%nat ->
  cs = last_index (sub_sections sec') ->
  at_end {| sections := <[i := sec']> secs; currentSection := Some i;
            currentSubSection := cs |}.
Proof.
  intros Hne Hi Hcs. unfold at_end. cbn [sections currentSection currentSubSection].
  assert (Hlen : (0 < length secs)%nat) by (destruct secs; [contradiction | simpl; lia]).
  split.
  - rewrite last_index_insert. unfold last_index.
    destruct secs; [contradiction|]. rewrite Hi. reflexivity.
  - assert (Hl : last (<[i := sec']> secs) = Some sec').
    { rewrite last_lookup, length_insert, <- Nat.sub_1_r, <- Hi.
      apply list_lookup_insert_eq. lia. }
    rewrite Hl. exact Hcs.
Qed.

Lemma at_end_cursor st i sec :
  at_end st -> currentSection st = Some i -> sections st !! i = Some sec ->
  sections st <> [] /\ i = (length (sections st) - 1)%nat
  /\ last (sections st) = Some sec
  /\ currentSubSection st = last_index (sub_sections sec).
Proof.
  intros [H1 H2] Hi Hs. rewrite Hi in H1. unfold last_index in H1.
  destruct (sections st) as [|x l] eqn:E; [discriminate|].
  injection H1 as ->.
  assert (Hl : last (x :: l) = Some sec).
  { rewrite last_lookup, <- Nat.sub_1_r. exact Hs. }
  split; [discriminate|]. split; [reflexivity|]. split; [exact Hl|].
  rewrite Hl in H2. exact H2.
Qed.

Lemma step_at_end st r st' :
  all_rated st -> at_end st -> step st r = Ok st' ->
  at_end st'
  /\ (length (sections st) <= length (sections st'))%nat
  /\ take (length (sections st) - 1) (sections st')
     = take (length (sections st) - 1) (sections st).
Proof.
  intros Hall Hend H.
  destruct (step_cases st r st' Hall H)
    as [(_ & ->)|[(_ & -> & _)|[(_ & _ & _ & ss & Hss & Hs)
       |(_ & _ & _ & Hr & u & Hp)]]].
  - cbn [open_section sections]. split; [|split].
    + unfold at_end.
      cbn [open_section sections currentSection currentSubSection].
      rewrite last_index_snoc, last_snoc.
      split; [f_equal|reflexivity].
    + rewrite length_app. lia.
    + apply take_app_le. lia.
  - split; [exact Hend|]. split; [lia | reflexivity].
  - apply open_sub_shape in Hs as (i & sec & Hi & Hsec & ->).
    destruct (at_end_cursor st i sec Hend Hi Hsec) as (Hne & Hil & _).
    cbn [sections]. split; [|split].
    + apply at_end_insert; [exact Hne | exact Hil|].
      cbn [with_sub_sections sub_sections].
      rewrite last_index_snoc. reflexivity.
    + rewrite length_insert. lia.
    + apply take_insert_ge. lia.
  - apply push_item_shape in Hp as (i & sec & Hi & Hsec & Hi' & Hj' & Hsecs).
    destruct (at_end_cursor st i sec Hend Hi Hsec) as (Hne & Hil & Hlast & Hcur).
    destruct st' as [secs' ci' cj']. cbn [sections currentSection currentSubSection] in *.
    subst ci' cj'.
    destruct Hsecs as [(Hj & ->)|(j & ss & Hj & Hss & ->)].
    + split; [|split].
      * apply at_end_insert; [exact Hne | exact Hil|]. exact Hcur.
      * rewrite length_insert. lia.
      * apply take_insert_ge. lia.
    + split; [|split].
      * apply at_end_insert; [exact Hne | exact Hil|].
        cbn [with_sub_sections sub_sections].
        rewrite last_index_insert. exact Hcur.
      * rewrite length_insert. lia.
      * apply take_insert_ge. lia.
Qed.

Lemma at_end_init : at_end init.
Proof. split; reflexivity. Qed.

Lemma run_at_end rows : forall st st',
  all_rated st -> at_end st -> run st rows = Ok st' ->
  at_end st'
  /\ (length (sections st) <= length (sections st'))%nat
  /\ take (length (sections st) - 1) (sections st')
     = take (length (sections st) - 1) (sections st).
Proof.
  induction rows as [|r rows IH]; intros st st' Hall Hend; simpl.
  - intros [= <-]. split; [exact Hend|]. split; [lia | reflexivity].
  - destruct (step st r) as [st1|] eqn:E; simpl; [|discriminate].
    intros Hrun. destruct (step_rated st r st1 Hall E) as [Hall1 _].
    destruct (step_at_end st r st1 Hall Hend E) as (Hend1 & Hle1 & Ht1).
    destruct (IH st1 st' Hall1 Hend1 Hrun) as (Hend' & Hle' & Ht').
    split; [exact Hend'|]. split; [lia|].
    assert (Hmin : min (length (sections st) - 1) (length (sections st1) - 1)
                   = (length (sections st) - 1)%nat) by lia.
    pose proof (take_take (sections st') (length (sections st) - 1)
                  (length (sections st1) - 1)) as A.
    rewrite Hmin in A. rewrite <- A, Ht', take_take, Hmin. exact Ht1.
Qed.

End MongoTyped.

(** X9. In the result of [parseExcel] every item has a rate, and its
    [rate_type] tells the type of the rate: ["numeric"] for a number,
    ["formula"] for a text, and such a text is not empty and does not
    start with a number. *)
Theorem X9_rate_type_tells_rate (rows : list JS.row)
  (secs : list Mongo.Section) :
  Mongo.parseExcel rows = JS.Ok secs -> Forall Rows.sec_typed secs.
Proof.
  unfold Mongo.parseExcel.
  destruct (Mongo.run Mongo.init (drop 2 rows)) as [st|] eqn:Hrun; simpl;
    [|discriminate].
  intros [= <-]. exact (run_typed (drop 2 rows) st Hrun).
Qed.

Lemma X9_witness :
  exists secs,
    Mongo.parseExcel
      [[]; [];
       [JS.VNull; JS.VNum (JS.of_Z 33); JS.VStr "CENTERING"];
       [JS.VNull; JS.VNull; JS.VStr "80 mm"; JS.VStr "rm"; JS.VStr " 12.5 "];
       [JS.VNull; JS.VNull; JS.VStr "extra"; JS.VNull; JS.VStr "As per SSR"]]
    = JS.Ok secs
    /\ Forall Rows.sec_typed secs.
Proof.
  eexists. split; [vm_compute; reflexivity|].
  refine (X9_rate_type_tells_rate
    [[]; [];
     [JS.VNull; JS.VNum (JS.of_Z 33); JS.VStr "CENTERING"];
     [JS.VNull; JS.VNull; JS.VStr "80 mm"; JS.VStr "rm"; JS.VStr " 12.5 "];
     [JS.VNull; JS.VNull; JS.VStr "extra"; JS.VNull; JS.VStr "As per SSR"]] _ _).
  vm_compute. reflexivity.
Defined.

(** X10. The cursors of [parseExcel] always refer to the section that
    was opened last and to the sub-section of it that was opened last:
    [currentSection] is the index of the last section, and null only
    when there is none; [currentSubSection] is the index of the last
    sub-section of that section, and null only when it has none. So the
    rows that follow change no section but the last one: the sections
    before it are final. *)
Theorem X10_closed_sections_final (rows1 rows2 : list JS.row)
  (st1 st2 : Mongo.State) :
  Mongo.run Mongo.init rows1 = JS.Ok st1 ->
  Mongo.run st1 rows2 = JS.Ok st2 ->
  Rows.at_end st1 /\ Rows.at_end st2
  /\ take (length (Mongo.sections st1) - 1) (Mongo.sections st2)
     = take (length (Mongo.sections st1) - 1) (Mongo.sections st1).
Proof.
  intros H1 H2.
  destruct (run_at_end rows1 Mongo.init st1 all_rated_init at_end_init H1)
    as (He1 & _ & _).
  destruct (run_at_end rows2 st1 st2 (run_rated rows1 st1 H1) He1 H2)
    as (He2 & _ & Ht).
  split; [exact He1|]. split; [exact He2 | exact Ht].
Qed.

Lemma X10_witness :
  exists st1 st2,
    Mongo.run Mongo.init
      [[JS.VNull; JS.VNum (JS.of_Z 1); JS.VStr "LABOUR"];
       [JS.VNull; JS.VNum (JS.of_Z 2); JS.VStr "EARTH WORK"];
       [JS.VNull; JS.VStr "a"; JS.VStr "soft soil"];
       [JS.VNull; JS.VStr "b"; JS.VStr "hard soil"]] = JS.Ok st1
    /\ Mongo.run st1
         [[JS.VNull; JS.VNull; JS.VStr "by hand"; JS.VStr "cum";
           JS.VNum (JS.of_Z 40)]] = JS.Ok st2
    /\ Rows.at_end st1 /\ Rows.at_end st2
    /\ take (length (Mongo.sections st1) - 1) (Mongo.sections st2)
       = take (length (Mongo.sections st1) - 1) (Mongo.sections st1).
Proof.
  eexists. eexists. split; [vm_compute; reflexivity|].
  split; [vm_compute; reflexivity|].
  refine (X10_closed_sections_final
    [[JS.VNull; JS.VNum (JS.of_Z 1); JS.VStr "LABOUR"];
     [JS.VNull; JS.VNum (JS.of_Z 2); JS.VStr "EARTH WORK"];
     [JS.VNull; JS.VStr "a"; JS.VStr "soft soil"];
     [JS.VNull; JS.VStr "b"; JS.VStr "hard soil"]]
    [[JS.VNull; JS.VNull; JS.VStr "by hand"; JS.VStr "cum";
      JS.VNum (JS.of_Z 40)]] _ _ _ _); vm_compute; reflexivity.
Defined.

(* ================================================================== *)
(** * The rows of publichealth.js, one by one *)
(* ================================================================== *)

Section PHRowsFacts.
Import JS Regex PH PHRows.

Lemma matches_Void s : matches Void s = false.
Proof. induction s as [|c r IH]; simpl; [reflexivity | exact IH]. Qed.

Lemma matches_Chr p t :
  matches (Chr p) t = true -> exists c, t = String c EmptyString /\ p c = true.
Proof.
  destruct t as [|c [|c' t']]; simpl; [discriminate| |].
  - destruct (p c) eqn:E; [|discriminate]. intros _. exists c. split; [reflexivity | exact E].
  - destruct (p c); simpl; rewrite matches_Void; discriminate.
Qed.

Lemma sfilter_drop_while q s :
  (forall c, is_ws c = true -> q c = false) ->
  sfilter q (drop_while is_ws s) = sfilter q s.
Proof.
  intros Hq. induction s as [|c r IH]; simpl; [reflexivity|].
  destruct (is_ws c) eqn:E; [|reflexivity].
  rewrite (Hq c E). exact IH.
Qed.

Lemma sfilter_trimEnd q s :
  (forall c, is_ws c = true -> q c = false) ->
  sfilter q (trimEnd s) = sfilter q s.
Proof.
  intros Hq. induction s as [|c r IH]; simpl; [reflexivity|].
  destruct (trimEnd r) as [|c' r'] eqn:E.
  - simpl in IH. rewrite <- IH.
    destruct (is_ws c) eqn:Ec; simpl; [rewrite (Hq c Ec)|]; reflexivity.
  - cbn [sfilter] in *. rewrite IH. reflexivity.
Qed.

Lemma sfilter_trim q s :
  (forall c, is_ws c = true -> q c = false) ->
  sfilter q (trim s) = sfilter q s.
Proof.
  intros Hq. unfold trim, trimStart.
  rewrite sfilter_trimEnd, sfilter_drop_while by exact Hq. reflexivity.
Qed.

Lemma re_simple_short c :
  matches re_simple (String c EmptyString) = false.
Proof. destruct c as [[] [] [] [] [] [] [] []]; reflexivity. Qed.

(** A row with a single letter as its item number is not one of the
    rows [11a], [18b], ... of line 207. *)
Lemma sub_not_simple c :
  isSubHeader (sno c) (desc c) (c_unit c) (c_rate c) = true ->
  is_simple_item c = false.
Proof.
  unfold isSubHeader, is_simple_item, simple_key.
  destruct (sno c) as [|s|n]; cbn [truthy to_string];
    [discriminate| |rewrite andb_false_r; discriminate].
  intros H. apply andb_true_iff in H as [H _]. apply andb_true_iff in H as [H _].
  apply andb_true_iff in H as [Ht H].
  apply matches_Chr in H as (c0 & E & _). rewrite Ht. cbn [andb].
  rewrite <- (sfilter_trim _ s), E.
  - cbn [sfilter]. unfold test_full.
    destruct (negb (is_ws c0 || ascii_eqb c0 "."));
      [exact (re_simple_short c0) | reflexivity].
  - intros c1 H1. rewrite H1. reflexivity.
Qed.

Lemma ph_open_sub_shape st ss st' :
  open_sub_section st ss = Ok st' ->
  exists i sec,
    currentSection st = Some i /\ sections st !! i = Some sec
    /\ st' = {| sections :=
                  <[i := with_sub_sections sec (sub_sections sec ++ [ss])]>
                    (sections st);
                currentSection := Some i;
                currentSubSection := Some (length (sub_sections sec));
                sectionIdCounter := sectionIdCounter st;
                itemIdCounter := itemIdCounter st |}.
Proof.
  unfold open_sub_section.
  destruct (currentSection st) as [i|]; simpl; [|discriminate].
  destruct (sections st !! i) as [sec|] eqn:Hs; simpl; [|discriminate].
  intros [= <-]. exists i, sec.
  split; [reflexivity|]. split; [exact Hs | reflexivity].
Qed.

Lemma ph_push_item_shape st it st' :
  push_item st it = Ok st' ->
  exists i sec sec',
    currentSection st = Some i /\ sections st !! i = Some sec
    /\ st' = {| sections := <[i := sec']> (sections st);
                currentSection := Some i;
                currentSubSection := currentSubSection st;
                sectionIdCounter := sectionIdCounter st;
                itemIdCounter := itemIdCounter st |}
    /\ bare sec' = bare sec
    /\ Permutation (items_of sec') (it :: items_of sec).
Proof.
  destruct st as [secs [i|] cs n m];
    unfold push_item, the_section, set_section; simpl; [|discriminate].
  destruct (secs !! i) as [sec|] eqn:Hs; simpl; [|discriminate].
  destruct cs as [j|]; simpl.
  - destruct (sub_sections sec !! j) as [ss|] eqn:Hss; simpl; [|discriminate].
    intros [= <-]. eexists i, sec, _.
    split; [reflexivity|]. split; [exact Hs|]. split; [reflexivity|].
    split; [reflexivity|].
    unfold items_of. cbn [with_sub_sections s_items sub_sections].
    rewrite Permutation_middle. apply Permutation_app_head.
    clear Hs. revert j Hss.
    induction (sub_sections sec) as [|y l IH]; intros [|j]; simpl;
      try discriminate.
    + intros [= ->]. rewrite <- app_assoc. simpl.
      rewrite <- Permutation_middle. reflexivity.
    + intros H. rewrite (IH j H). symmetry. apply Permutation_middle.
  - intros [= <-]. eexists i, sec, _.
    split; [reflexivity|]. split; [exact Hs|]. split; [reflexivity|].
    split; [reflexivity|].
    unfold items_of. cbn [with_items s_items sub_sections].
    rewrite <- app_assoc. simpl. rewrite <- Permutation_middle.
    reflexivity.
Qed.

End PHRowsFacts.

Section PHCases.
Import JS Regex PH PHRows.

Lemma grows_open_sub st id d st' :
  open_sub_section st {| sub_id := id; description := d; ss_items := [] |}
  = Ok st' ->
  grows st st'.
Proof.
  intros H. apply ph_open_sub_shape in H as (i & sec & Hi & Hsec & ->).
  eexists i, sec, _, []. cbn [sections sectionIdCounter itemIdCounter].
  split; [exact Hi|]. split; [exact Hsec|]. split; [reflexivity|].
  split; [reflexivity|]. split; [reflexivity|].
  split; [|left; split; reflexivity].
  unfold items_of. cbn [with_sub_sections s_items sub_sections app].
  rewrite (map_app ss_items), concat_app. simpl. rewrite !app_nil_r.
  reflexivity.
Qed.

Lemma grows_set_section_next st i sec it st' :
  currentSection st = Some i -> sections st !! i = Some sec ->
  stamp it = (S (itemIdCounter st), item_no sec) ->
  set_section (next_item st) (with_items sec (s_items sec ++ [it])) = Ok st' ->
  grows st st'.
Proof.
  intros Hi Hsec Hst. unfold set_section. cbn [next_item currentSection].
  rewrite Hi. simpl. intros [= <-].
  eexists i, sec, _, [(S (itemIdCounter st), item_no sec)].
  cbn [sections sectionIdCounter itemIdCounter].
  split; [exact Hi|]. split; [exact Hsec|]. split; [reflexivity|].
  split; [reflexivity|]. split; [reflexivity|].
  split; [|right; split; reflexivity].
  unfold items_of. cbn [with_items s_items sub_sections].
  rewrite <- app_assoc, !map_app. cbn [map app]. rewrite Hst.
  symmetry. apply Permutation_middle.
Qed.

(** What a row does to the state. *)
Lemma ph_step_cases st r st' :
  step st r = Ok st' ->
  (opens (normalise r) = true
   /\ st' = open_section st (opened (normalise r)))
  \/ (opens (normalise r) = false /\ st' = st)
  \/ (opens (normalise r) = false /\ grows st st').
Proof.
  unfold step, opens, opened. generalize (normalise r). intros c. cbv zeta.
  destruct (is_blank c); [intros [= <-]; right; left; split; reflexivity|].
  destruct (is_note c); [intros [= <-]; right; left; split; reflexivity|].
  destruct (is_continuation c);
    [intros [= <-]; right; left; split; reflexivity|].
  cbn [negb andb].
  destruct (is_header c); [intros [= <-]; left; split; reflexivity|].
  cbn [orb].
  destruct (is_sub st c) eqn:Hsub.
  { unfold is_sub in Hsub. apply andb_true_iff in Hsub as [Hsub _].
    rewrite (sub_not_simple c Hsub). intros H. right. right.
    split; [reflexivity|]. exact (grows_open_sub _ _ _ _ H). }
  destruct (is_simple_item c); [intros [= <-]; left; split; reflexivity|].
  destruct (is_rate_item st c).
  { destruct (the_section (next_item st)) as [sec|] eqn:Hsec; simpl;
      [|discriminate].
    destruct (c_unit c) as [u|]; simpl; [|discriminate].
    intros H. right. right. split; [reflexivity|].
    apply ph_the_section_inv in Hsec as (i & Hi & Hs).
    cbn [next_item currentSection sections] in Hi, Hs.
    apply ph_push_item_shape in H as (i0 & sec0 & sec' & Hi0 & Hs0 & -> & Hb & Hp).
    cbn [next_item currentSection sections currentSubSection
         sectionIdCounter itemIdCounter] in *.
    rewrite Hi in Hi0. injection Hi0 as <-.
    rewrite Hs in Hs0. injection Hs0 as <-.
    exists i, sec, sec', [(S (itemIdCounter st), item_no sec)].
    cbn [sections sectionIdCounter itemIdCounter].
    split; [exact Hi|]. split; [exact Hs|]. split; [reflexivity|].
    split; [reflexivity|]. split; [exact Hb|].
    split; [|right; split; reflexivity].
    exact (Permutation_map stamp Hp). }
  destruct (is_rate_only st c).
  { destruct (the_section st) as [sec|] eqn:Hsec; simpl; [|discriminate].
    apply ph_the_section_inv in Hsec as (i & Hi & Hs).
    intros H. right. right. split; [reflexivity|].
    destruct (s_items sec !! (length (s_items sec) - 1)%nat) as [it|] eqn:Hit.
    - destruct (negb (truthy (rate it))).
      + revert H. unfold set_section. rewrite Hi. simpl. intros [= <-].
        eexists i, sec, _, []. cbn [sections sectionIdCounter itemIdCounter].
        split; [exact Hi|]. split; [exact Hs|]. split; [reflexivity|].
        split; [reflexivity|]. split; [reflexivity|].
        split; [|left; split; reflexivity].
        unfold items_of. cbn [with_items s_items sub_sections app].
        rewrite !map_app.
        rewrite (map_insert_same stamp _ _ it (with_rate it (c_rate c)) Hit eq_refl).
        reflexivity.
      + exact (grows_set_section_next st i sec
          (flat_item c sec (S (itemIdCounter st))) st' Hi Hs eq_refl H).
    - exact (grows_set_section_next st i sec
          (flat_item c sec (S (itemIdCounter st))) st' Hi Hs eq_refl H). }
  destruct (is_descriptive st c);
    [|intros [= <-]; right; left; split; reflexivity].
  destruct (desc c) as [d|]; simpl; [|discriminate].
  destruct (is_diameter_header d);
    [intros [= <-]; right; left; split; reflexivity|].
  destruct (is_pipes_header d);
    [|intros [= <-]; right; left; split; reflexivity].
  destruct (the_section st) as [sec|]; simpl; [|discriminate].
  intros H. right. right. split; [reflexivity|].
  exact (grows_open_sub _ _ _ _ H).
Qed.

Lemma s_id_opened c n : s_id (opened c n) = n.
Proof. unfold opened. destruct (is_header c); reflexivity. Qed.

Lemma bare_opened c n : bare (opened c n) = opened c n.
Proof. unfold opened. destruct (is_header c); reflexivity. Qed.

Lemma items_of_opened c n : items_of (opened c n) = [].
Proof. unfold opened. destruct (is_header c); reflexivity. Qed.

Lemma bare_s_id sec sec' : bare sec' = bare sec -> s_id sec' = s_id sec.
Proof. intros H. exact (f_equal s_id H). Qed.

Lemma bare_item_no sec sec' : bare sec' = bare sec -> item_no sec' = item_no sec.
Proof. intros H. exact (f_equal item_no H). Qed.

Lemma Forall2_insert_same {A B : Type} (R : A -> B -> Prop) l k i x x' :
  l !! i = Some x -> (forall y, R x y -> R x' y) ->
  Forall2 R l k -> Forall2 R (<[i := x']> l) k.
Proof.
  intros Hl HR H. revert i Hl.
  induction H as [|a b l k Hab H IH]; intros [|i]; simpl; try discriminate.
  - intros [= ->]. constructor; [apply HR, Hab | exact H].
  - intros Hl. constructor; [exact Hab | apply IH, Hl].
Qed.

Lemma all_items_cons sec secs :
  all_items (sec :: secs) = (items_of sec ++ all_items secs)%list.
Proof. reflexivity. Qed.

Lemma stamps_insert secs i sec sec' added :
  secs !! i = Some sec ->
  Permutation (map stamp (items_of sec')) (added ++ map stamp (items_of sec)) ->
  Permutation (map stamp (all_items (<[i := sec']> secs)))
    (added ++ map stamp (all_items secs)).
Proof.
  intros Hs Hp. revert i Hs.
  induction secs as [|y l IH]; intros [|i]; simpl; try discriminate.
  - intros [= ->]. rewrite !all_items_cons, !map_app, Hp, app_assoc. reflexivity.
  - intros Hl. rewrite !all_items_cons, !map_app, (IH i Hl).
    apply Permutation_app_swap_app.
Qed.

Lemma numbered_init : numbered init.
Proof. split; [reflexivity|]. split; [reflexivity | constructor]. Qed.

Lemma refers_stamp sec :
  refers sec
  <-> Forall (fun p => snd p = item_no sec) (map stamp (items_of sec)).
Proof. unfold refers. rewrite Forall_map. reflexivity. Qed.

Lemma step_numbered st r st' :
  numbered st -> step st r = Ok st' -> numbered st'.
Proof.
  intros (H1 & H2 & H3) H.
  destruct (ph_step_cases st r st' H)
    as [(_ & ->)|[(_ & ->)|(_ & i & sec & sec' & added & Hi & Hs & Hsecs
                            & Hn & Hb & Hp & Hadd)]].
  - unfold numbered. cbn [open_section sections sectionIdCounter itemIdCounter].
    split; [|split].
    + rewrite map_app, seq_S, H1. cbn [map]. rewrite s_id_opened. reflexivity.
    + unfold all_items. rewrite map_app, concat_app. cbn [map concat].
      rewrite items_of_opened. cbn [app]. rewrite app_nil_r. exact H2.
    + apply Forall_app. split; [exact H3|]. constructor; [|constructor].
      unfold refers. rewrite items_of_opened. constructor.
  - split; [exact H1|]. split; [exact H2 | exact H3].
  - unfold numbered. rewrite Hsecs, Hn. split; [|split].
    + rewrite (map_insert_same s_id _ i sec sec' Hs (bare_s_id _ _ Hb)).
      exact H1.
    + rewrite (stamps_insert _ i sec sec' added Hs Hp), map_app, H2.
      destruct Hadd as [(-> & ->)|(-> & ->)]; [reflexivity|].
      cbn [map fst app]. rewrite seq_S. cbn [Nat.add].
      apply Permutation_cons_append.
    + apply Forall_insert; [exact H3|].
      apply refers_stamp. rewrite Hp, (bare_item_no _ _ Hb).
      apply Forall_app. split.
      * destruct Hadd as [(-> & _)|(-> & _)]; [constructor|].
        constructor; [reflexivity | constructor].
      * apply refers_stamp. exact (proj1 (Forall_lookup _ _) H3 i sec Hs).
Qed.

Lemma step_opened st r st' cs :
  Forall2 (fun sec c => bare sec = opened c (s_id sec)) (sections st) cs ->
  step st r = Ok st' ->
  Forall2 (fun sec c => bare sec = opened c (s_id sec)) (sections st')
    (cs ++ List.filter opens [normalise r]).
Proof.
  intros HR H. cbn [List.filter].
  destruct (ph_step_cases st r st' H)
    as [(-> & ->)|[(-> & ->)|(-> & i & sec & sec' & added & Hi & Hs & Hsecs
                            & Hn & Hb & Hp & Hadd)]].
  - cbn [open_section sections]. apply Forall2_app; [exact HR|].
    constructor; [|constructor]. rewrite s_id_opened. apply bare_opened.
  - rewrite app_nil_r. exact HR.
  - rewrite app_nil_r, Hsecs.
    apply (Forall2_insert_same _ _ _ i sec sec' Hs); [|exact HR].
    intros c. rewrite Hb, (bare_s_id _ _ Hb). exact (fun E => E).
Qed.

Lemma run_opened rows : forall st st' cs,
  Forall2 (fun sec c => bare sec = opened c (s_id sec)) (sections st) cs ->
  run st rows = Ok st' ->
  Forall2 (fun sec c => bare sec = opened c (s_id sec)) (sections st')
    (cs ++ List.filter opens (map normalise rows)).
Proof.
  induction rows as [|r rows IH]; intros st st' cs HR; simpl.
  - intros [= <-]. rewrite app_nil_r. exact HR.
  - destruct (step st r) as [st1|] eqn:E; simpl; [|discriminate].
    intros Hrun. pose proof (step_opened st r st1 cs HR E) as H1.
    pose proof (IH st1 st' _ H1 Hrun) as H2.
    cbn [List.filter] in H2 |- *. rewrite <- app_assoc in H2.
    destruct (opens (normalise r)); exact H2.
Qed.

Lemma length_all_items secs :
  length (all_items secs) = list_sum (map (fun s => length (items_of s)) secs).
Proof.
  induction secs as [|s secs IH]; [reflexivity|].
  rewrite all_items_cons, length_app, IH. reflexivity.
Qed.

Lemma totalItems_length res :
  Tail.totalItems res = length (all_items (r_sections res)).
Proof.
  unfold Tail.totalItems. rewrite length_all_items.
  enough (H : forall secs a,
    fold_left
      (fun sum s =>
         let direct := length (s_items s) in
         let nested :=
           fold_left (fun a ss => a + length (ss_items ss)) (sub_sections s) 0 in
         sum + direct + nested) secs a
    = a + list_sum (map (fun s => length (items_of s)) secs))
    by (rewrite H; lia).
  induction secs as [|s secs IH]; intros a; simpl; [lia|].
  rewrite IH, (fold_left_sum (fun ss => length (ss_items ss))).
  unfold items_of. rewrite length_app.
  enough (E : forall l : list SubSection,
    length (concat (map ss_items l))
    = list_sum (map (fun ss => length (ss_items ss)) l)) by (rewrite E; lia).
  induction l as [|x l IHl]; simpl; [reflexivity|].
  rewrite length_app, IHl. reflexivity.
Qed.

Lemma run_numbered rows st : run init rows = Ok st -> numbered st.
Proof.
  apply (ph_run_invariant numbered); [|apply numbered_init].
  intros s r s' Hn E. exact (step_numbered s r s' Hn E).
Qed.

End PHCases.

(** X11. The sections of the result of [parsePublicHealthXLSX] are the
    sections that the rows which open one build, in the order of the
    sheet, and their [id]s are 1, 2, ... in that order; the later rows
    change nothing of a section but its sub-sections and items. *)
Theorem X11_ph_sections_numbered_in_order (path now : string)
  (rows : list JS.row) (res : PH.Result) :
  PH.parsePublicHealthXLSX path now rows = JS.Ok res ->
  Forall2 (fun sec c => PHRows.bare sec = PHRows.opened c (PH.s_id sec))
    (PH.r_sections res)
    (List.filter PHRows.opens (map PH.normalise (drop 2 rows)))
  /\ map PH.s_id (PH.r_sections res) = seq 1 (Tail.sections_found res).
Proof.
  unfold PH.parsePublicHealthXLSX.
  destruct (PH.run PH.init (drop 2 rows)) as [st|] eqn:Hrun; simpl;
    [|discriminate].
  intros [= <-]. unfold Tail.sections_found. cbn [PH.r_sections]. split.
  - refine (run_opened (drop 2 rows) PH.init st [] _ Hrun). constructor.
  - destruct (run_numbered (drop 2 rows) st Hrun) as (H1 & _ & _).
    rewrite H1. f_equal.
    rewrite <- (length_map PH.s_id), H1, length_seq. reflexivity.
Qed.

Lemma X11_witness :
  exists res,
    PH.parsePublicHealthXLSX "data/publichealth.xlsx" "2026-01-01T00:00:00.000Z"
      [[]; [];
       [JS.VNull; JS.VNum (JS.of_Z 7); JS.VStr "LOADING"];
       [JS.VNull; JS.VNull; JS.VStr "sand"; JS.VStr "cum"; JS.VNum (JS.of_Z 30)];
       [JS.VNull; JS.VStr "11 a."; JS.VStr "RCC PIPES"; JS.VStr "rm";
        JS.VNum (JS.of_Z 12)]]
    = JS.Ok res
    /\ map PH.s_id (PH.r_sections res) = seq 1 (Tail.sections_found res).
Proof.
  eexists. split; [vm_compute; reflexivity|].
  refine (proj2 (X11_ph_sections_numbered_in_order
    "data/publichealth.xlsx" "2026-01-01T00:00:00.000Z"
    [[]; [];
     [JS.VNull; JS.VNum (JS.of_Z 7); JS.VStr "LOADING"];
     [JS.VNull; JS.VNull; JS.VStr "sand"; JS.VStr "cum"; JS.VNum (JS.of_Z 30)];
     [JS.VNull; JS.VStr "11 a."; JS.VStr "RCC PIPES"; JS.VStr "rm";
      JS.VNum (JS.of_Z 12)]] _ _)).
  vm_compute. reflexivity.
Defined.

(** X12. The [id]s of the items of the result are the numbers from 1
    to the count of items that the script prints, each once, wherever
    the items are: in a section or in a sub-section. *)
Theorem X12_ph_item_ids (path now : string) (rows : list JS.row)
  (res : PH.Result) :
  PH.parsePublicHealthXLSX path now rows = JS.Ok res ->
  Permutation (map PH.id (PHRows.all_items (PH.r_sections res)))
    (seq 1 (Tail.totalItems res))
  /\ NoDup (map PH.id (PHRows.all_items (PH.r_sections res))).
Proof.
  unfold PH.parsePublicHealthXLSX.
  destruct (PH.run PH.init (drop 2 rows)) as [st|] eqn:Hrun; simpl;
    [|discriminate].
  intros [= <-]. rewrite totalItems_length. cbn [PH.r_sections].
  destruct (run_numbered (drop 2 rows) st Hrun) as (_ & H & _).
  assert (H2 : Permutation (map PH.id (PHRows.all_items (PH.sections st)))
                 (seq 1 (PH.itemIdCounter st)))
    by (rewrite map_map in H; exact H).
  assert (E : length (PHRows.all_items (PH.sections st)) = PH.itemIdCounter st).
  { rewrite <- (length_map PH.id), (Permutation_length H2), length_seq.
    reflexivity. }
  rewrite E. split; [exact H2|].
  rewrite H2. apply NoDup_seq.
Qed.

Lemma X12_witness :
  exists res,
    PH.parsePublicHealthXLSX "publichealth.xlsx" "2026-01-01T00:00:00.000Z"
      [[]; [];
       [JS.VNull; JS.VNum (JS.of_Z 12); JS.VStr "LAYING PIPES"];
       [JS.VNull; JS.VNull; JS.VStr "G.I. PIPES"];
       [JS.VNull; JS.VNull; JS.VStr "15 mm"; JS.VStr "rm"; JS.VNum (JS.of_Z 9)];
       [JS.VNull; JS.VNull; JS.VStr "extra"; JS.VNull; JS.VStr "As per SSR"]]
    = JS.Ok res
    /\ NoDup (map PH.id (PHRows.all_items (PH.r_sections res))).
Proof.
  eexists. split; [vm_compute; reflexivity|].
  refine (proj2 (X12_ph_item_ids
    "publichealth.xlsx" "2026-01-01T00:00:00.000Z"
    [[]; [];
     [JS.VNull; JS.VNum (JS.of_Z 12); JS.VStr "LAYING PIPES"];
     [JS.VNull; JS.VNull; JS.VStr "G.I. PIPES"];
     [JS.VNull; JS.VNull; JS.VStr "15 mm"; JS.VStr "rm"; JS.VNum (JS.of_Z 9)];
     [JS.VNull; JS.VNull; JS.VStr "extra"; JS.VNull; JS.VStr "As per SSR"]] _ _)).
  vm_compute. reflexivity.
Defined.

(** X13. Every item of the result names the section it is in: its
    [section_item_no] is the [item_no] of that section, also for an
    item of a sub-section. *)
Theorem X13_ph_items_name_their_section (path now : string)
  (rows : list JS.row) (res : PH.Result) :
  PH.parsePublicHealthXLSX path now rows = JS.Ok res ->
  Forall PHRows.refers (PH.r_sections res).
Proof.
  unfold PH.parsePublicHealthXLSX.
  destruct (PH.run PH.init (drop 2 rows)) as [st|] eqn:Hrun; simpl;
    [|discriminate].
  intros [= <-]. cbn [PH.r_sections].
  exact (proj2 (proj2 (run_numbered (drop 2 rows) st Hrun))).
Qed.

Lemma X13_witness :
  exists res,
    PH.parsePublicHealthXLSX "publichealth.xlsx" "2026-01-01T00:00:00.000Z"
      [[]; [];
       [JS.VNull; JS.VNum (JS.of_Z 12); JS.VStr "LAYING PIPES"];
       [JS.VNull; JS.VStr "a"; JS.VStr "G.I. PIPES"];
       [JS.VNull; JS.VNull; JS.VStr "15 mm"; JS.VStr "rm"; JS.VNum (JS.of_Z 9)]]
    = JS.Ok res
    /\ Forall PHRows.refers (PH.r_sections res).
Proof.
  eexists. split; [vm_compute; reflexivity|].
  refine (X13_ph_items_name_their_section
    "publichealth.xlsx" "2026-01-01T00:00:00.000Z"
    [[]; [];
     [JS.VNull; JS.VNum (JS.of_Z 12); JS.VStr "LAYING PIPES"];
     [JS.VNull; JS.VStr "a"; JS.VStr "G.I. PIPES"];
     [JS.VNull; JS.VNull; JS.VStr "15 mm"; JS.VStr "rm"; JS.VNum (JS.of_Z 9)]] _ _).
  vm_compute. reflexivity.
Defined.

Section PHEdges.
Import JS PH PHRows.

Lemma ph_step_outside r :
  opens (normalise r) = false -> step init r = Ok init.
Proof.
  intros Ho. destruct (ph_step_ok init r ph_wf_init) as (st' & E & _).
  rewrite E. f_equal.
  destruct (ph_step_cases init r st' E)
    as [(Ho' & _)|[(_ & ->)|(_ & i & sec & sec' & added & Hi & _)]].
  - rewrite Ho in Ho'. discriminate.
  - reflexivity.
  - discriminate Hi.
Qed.

Lemma ph_run_app rows1 rows2 st :
  run st (rows1 ++ rows2)%list = (st1 ← run st rows1; run st1 rows2).
Proof.
  revert st. induction rows1 as [|r rows1 IH]; intros st; simpl; [reflexivity|].
  destruct (step st r) as [st1|]; simpl; [apply IH | reflexivity].
Qed.

Lemma ph_run_outside pre :
  Forall (fun r => opens (normalise r) = false) pre -> run init pre = Ok init.
Proof.
  induction 1 as [|r pre Hr _ IH]; simpl; [reflexivity|].
  rewrite (ph_step_outside r Hr). simpl. exact IH.
Qed.

Lemma after_last_no_sep c0 s :
  includes (String c0 EmptyString) (after_last c0 s) = false.
Proof.
  induction s as [|c r IH]; [reflexivity|]. cbn [after_last].
  destruct (ascii_eqb c c0) eqn:E; [exact IH|].
  destruct (includes (String c0 EmptyString) r) eqn:Hr; [exact IH|].
  cbn [includes startsWith]. rewrite ascii_eqb_sym, E. cbn [andb orb].
  exact Hr.
Qed.


Lemma after_last_none c0 s :
  includes (String c0 EmptyString) s = false -> after_last c0 s = s.
Proof.
  destruct s as [|c r]; [reflexivity|]. cbn [includes startsWith after_last].
  rewrite ascii_eqb_sym. destruct (ascii_eqb c c0); [discriminate|].
  cbn [andb orb]. intros ->. reflexivity.
Qed.

Lemma includes_sep_app c0 d s :
  includes (String c0 EmptyString) (d +:+ String c0 s) = true.
Proof.
  induction d as [|c d IH].
  - rewrite append_nil_l. cbn [includes startsWith].
    assert (E : ascii_eqb c0 c0 = true) by (apply ascii_eqb_eq; reflexivity).
    rewrite E. destruct s; reflexivity.
  - rewrite append_cons. cbn [includes]. rewrite IH. apply orb_true_r.
Qed.

(** What follows the last [c0] of [dir c0 file] is [file], when [file]
    holds no [c0]. *)
Lemma after_last_app c0 dir file :
  includes (String c0 EmptyString) file = false ->
  after_last c0 (dir +:+ String c0 file) = file.
Proof.
  intros Hf. induction dir as [|c d IH].
  - rewrite append_nil_l. cbn [after_last].
    assert (E : ascii_eqb c0 c0 = true) by (apply ascii_eqb_eq; reflexivity).
    rewrite E. apply after_last_none, Hf.
  - rewrite append_cons. cbn [after_last]. rewrite includes_sep_app, IH.
    destruct (ascii_eqb c c0); reflexivity.
Qed.

(** A text is what follows its last [c0], or it has a [c0] before that. *)
Lemma after_last_cases c0 s :
  s = after_last c0 s \/ exists pre, s = pre +:+ String c0 (after_last c0 s).
Proof.
  induction s as [|c r IH]; [left; reflexivity|]. cbn [after_last].
  destruct (ascii_eqb c c0) eqn:E.
  - right. apply ascii_eqb_eq in E as ->.
    destruct IH as [IH | [pre IH]].
    + exists EmptyString. rewrite append_nil_l. f_equal. exact IH.
    + exists (String c0 pre). rewrite append_cons. f_equal. exact IH.
  - destruct (includes (String c0 EmptyString) r) eqn:Hr; [|left; reflexivity].
    right. destruct IH as [IH | [pre IH]].
    + rewrite IH, after_last_no_sep in Hr. discriminate.
    + exists (String c pre). rewrite append_cons. f_equal. exact IH.
Qed.

End PHEdges.

(** X14. In publichealth.js too the rows before the first row that
    opens a section are dropped: the result is that of the sheet
    without them. *)
Theorem X14_ph_rows_before_first_section (pre rest : list JS.row) :
  Forall (fun r => PHRows.opens (PH.normalise r) = false) pre ->
  PH.run PH.init (pre ++ rest)%list = PH.run PH.init rest.
Proof.
  intros H. rewrite ph_run_app, (ph_run_outside pre H). reflexivity.
Qed.

Lemma X14_witness :
  PH.run PH.init
    ([[JS.VNull; JS.VNull; JS.VStr "80 mm"; JS.VStr "rm"; JS.VNum (JS.of_Z 120)]]
     ++ [[JS.VNull; JS.VNum (JS.of_Z 1); JS.VStr "LABOUR"]])%list
  = PH.run PH.init [[JS.VNull; JS.VNum (JS.of_Z 1); JS.VStr "LABOUR"]].
Proof.
  apply (X14_ph_rows_before_first_section
    [[JS.VNull; JS.VNull; JS.VStr "80 mm"; JS.VStr "rm"; JS.VNum (JS.of_Z 120)]]
    [[JS.VNull; JS.VNum (JS.of_Z 1); JS.VStr "LABOUR"]]).
  constructor; [vm_compute; reflexivity | constructor].
Defined.

(** X15. The [source_file] of the result is the part of the path after
    its last ['/']: it holds no ['/']; the path is either it, or a text,
    a ['/'] and it; whenever the path is a text, a ['/'] and a text
    without ['/'], it is that last text; and it is the whole path when
    the path holds no ['/']. *)
Theorem X15_ph_source_file (path now : string) (rows : list JS.row)
  (res : PH.Result) :
  PH.parsePublicHealthXLSX path now rows = JS.Ok res ->
  JS.includes "/" (PH.source_file res) = false
  /\ (path = PH.source_file res
      \/ exists dir, path = dir +:+ "/" +:+ PH.source_file res)
  /\ (forall dir file,
        JS.includes "/" file = false -> path = dir +:+ "/" +:+ file ->
        PH.source_file res = file)
  /\ (JS.includes "/" path = false -> PH.source_file res = path).
Proof.
  unfold PH.parsePublicHealthXLSX.
  destruct (PH.run PH.init (drop 2 rows)) as [st|]; simpl; [|discriminate].
  intros [= <-]. cbn [PH.source_file].
  split; [apply after_last_no_sep|].
  split; [apply after_last_cases|].
  split; [|apply after_last_none].
  intros dir file Hf ->. apply after_last_app, Hf.
Qed.

Lemma X15_witness :
  exists res,
    PH.parsePublicHealthXLSX "data/2005/publichealth.xlsx" "now" [] = JS.Ok res
    /\ JS.includes "/" (PH.source_file res) = false
    /\ PH.source_file res = "publichealth.xlsx".
Proof.
  edestruct (X15_ph_source_file "data/2005/publichealth.xlsx" "now" [])
    as (H1 & _ & H3 & _); [vm_compute; reflexivity|].
  eexists. split; [vm_compute; reflexivity|].
  split; [exact H1|].
  apply (H3 "data/2005" "publichealth.xlsx"); reflexivity.
Defined.

(* ================================================================== *)
(** * The rows of seed.js *)
(* ================================================================== *)

Section SeedRowsFacts.
Import JS Seed SeedRows.

Lemma startsWith_includes p s : startsWith p s = true -> includes p s = true.
Proof. intros H. destruct s; simpl; rewrite H; reflexivity. Qed.

(** A text that holds [a] followed by [p] holds [p]. *)
Lemma includes_drop a p s :
  includes (String a p) s = true -> includes p s = true.
Proof.
  induction s as [|b s IH]; [discriminate|].
  cbn [includes]. intros H. apply orb_true_iff in H as [H|H].
  - cbn [startsWith] in H. apply andb_true_iff in H as [_ H].
    rewrite (startsWith_includes p s H). apply orb_true_r.
  - rewrite (IH H). apply orb_true_r.
Qed.

Lemma text_of_trimmed v : trim (text_of v) = text_of v.
Proof.
  unfold text_of. destruct (truthy v); [apply trim_trim | reflexivity].
Qed.

(** A row adds no record, or one with the texts and the rate of the
    row. *)
Lemma seed_step_cases st r :
  finalData (step st r) = finalData st
  \/ (exists rec,
        finalData (step st r) = (finalData st ++ [rec])%list
        /\ taken rec = of_row r
        /\ names_group (toLowerCase (description rec)) = false
        /\ category rec = currentSection st
        /\ subCategory rec = or_else (currentSubSection st) None
        /\ is_number (rate rec) = true).
Proof.
  unfold step, names_group. cbv zeta.
  destruct (String.eqb _ EmptyString); [left; reflexivity|].
  destruct (includes "skilled workmen" _) eqn:E1; [left; reflexivity|].
  destruct (includes "semi-skilled" _) eqn:E2; [left; reflexivity|].
  destruct (includes "unskilled" _) eqn:E3; [left; reflexivity|].
  destruct (includes "other conveyance" _) eqn:E4; [left; reflexivity|].
  destruct (includes "first class" _) eqn:E5; [left; reflexivity|].
  destruct (includes "second class" _) eqn:E6; [left; reflexivity|].
  destruct (includes "operator" _) eqn:E7; [left; reflexivity|].
  destruct (negb (truthy_s (currentSection st))); [left; reflexivity|].
  destruct (is_null (cell r 4)); [left; reflexivity|].
  destruct (negb (is_number (cell r 4))) eqn:En; [left; reflexivity|].
  right. eexists. split; [reflexivity|].
  cbn [taken description unit rate category subCategory].
  split; [reflexivity|].
  split; [rewrite E1, E2, E3, E4, E5, E6, E7; reflexivity|].
  split; [reflexivity|]. split; [reflexivity|]. apply negb_false_iff, En.
Qed.

Lemma seed_run_rows rows : forall st,
  exists kept,
    sublist kept rows
    /\ map taken (finalData (fold_left step rows st))
       = (map taken (finalData st) ++ map of_row kept)%list.
Proof.
  induction rows as [|r rows IH]; intros st; simpl.
  - exists []. split; [constructor | rewrite app_nil_r; reflexivity].
  - destruct (IH (step st r)) as (kept & Hs & E).
    destruct (seed_step_cases st r) as [H|(rec & H & Ht & _)].
    + exists kept. split; [apply sublist_cons, Hs|]. rewrite E, H. reflexivity.
    + exists (r :: kept). split; [apply sublist_skip, Hs|].
      rewrite E, H, map_app, <- app_assoc. cbn [map app]. rewrite Ht.
      reflexivity.
Qed.

(** The sub-section is [null] or one of the three names. *)
Lemma seed_step_sub st r :
  or_else (currentSubSection st) None ∈ sub_categories ->
  or_else (currentSubSection (step st r)) None ∈ sub_categories.
Proof.
  intros H. unfold step. cbv zeta.
  destruct (String.eqb _ EmptyString); [exact H|].
  destruct (includes "skilled workmen" _); [apply (bool_decide_unpack _); reflexivity|].
  destruct (includes "semi-skilled" _); [apply (bool_decide_unpack _); reflexivity|].
  destruct (includes "unskilled" _); [apply (bool_decide_unpack _); reflexivity|].
  destruct (includes "other conveyance" _); [apply (bool_decide_unpack _); reflexivity|].
  destruct (includes "first class" _); [apply (bool_decide_unpack _); reflexivity|].
  destruct (includes "second class" _); [apply (bool_decide_unpack _); reflexivity|].
  destruct (includes "operator" _); [apply (bool_decide_unpack _); reflexivity|].
  destruct (negb (truthy_s (currentSection st))); [exact H|].
  destruct (is_null (cell r 4)); [exact H|].
  destruct (negb (is_number (cell r 4))); exact H.
Qed.

Lemma seed_run_records (P : LabourRate -> Prop) rows :
  (forall st r rec,
     or_else (currentSubSection st) None ∈ sub_categories ->
     finalData (step st r) = (finalData st ++ [rec])%list ->
     taken rec = of_row r ->
     names_group (toLowerCase (description rec)) = false ->
     subCategory rec = or_else (currentSubSection st) None ->
     P rec) ->
  forall st,
    or_else (currentSubSection st) None ∈ sub_categories ->
    Forall P (finalData st) ->
    Forall P (finalData (fold_left step rows st)).
Proof.
  intros HP. induction rows as [|r rows IH]; intros st Hs Hf; simpl; [exact Hf|].
  apply IH; [apply seed_step_sub, Hs|].
  destruct (seed_step_cases st r) as [->|(rec & H & Ht & Hn & _ & Hsub & _)];
    [exact Hf|].
  rewrite H. apply Forall_app. split; [exact Hf|].
  constructor; [|constructor]. exact (HP st r rec Hs H Ht Hn Hsub).
Qed.

End SeedRowsFacts.

(** X16. In seed.js a row whose description holds ["unskilled
    workmen"] or ["semi-skilled workmen"] holds ["skilled workmen"]
    too, and that is looked for first: the row sets the section to
    ["Skilled"], and adds no record. *)
Theorem X16_seed_skilled_workmen_first (st : Seed.State) (r : JS.row) :
  JS.includes "skilled workmen" (JS.toLowerCase (Seed.text_of (JS.cell r 2)))
  = true
  \/ JS.includes "unskilled workmen"
       (JS.toLowerCase (Seed.text_of (JS.cell r 2))) = true
  \/ JS.includes "semi-skilled workmen"
       (JS.toLowerCase (Seed.text_of (JS.cell r 2))) = true ->
  Seed.step st r = Seed.set_section st "Skilled"
  /\ Seed.finalData (Seed.step st r) = Seed.finalData st.
Proof.
  intros H.
  assert (Hs : JS.includes "skilled workmen"
                 (JS.toLowerCase (Seed.text_of (JS.cell r 2))) = true).
  { destruct H as [H|[H|H]]; [exact H| |].
    - exact (includes_drop _ _ _ (includes_drop _ _ _ H)).
    - exact (includes_drop _ _ _ (includes_drop _ _ _ (includes_drop _ _ _
               (includes_drop _ _ _ (includes_drop _ _ _ H))))). }
  assert (E : Seed.step st r = Seed.set_section st "Skilled").
  { unfold Seed.step. cbv zeta. rewrite Hs.
    destruct (String.eqb_spec (Seed.text_of (JS.cell r 2)) EmptyString) as [E|_];
      [|reflexivity].
    rewrite E in Hs. discriminate Hs. }
  split; [exact E | rewrite E; reflexivity].
Qed.

Lemma X16_witness :
  Seed.step Seed.init [JS.VNull; JS.VNull; JS.VStr "C) Unskilled Workmen"]
  = Seed.set_section Seed.init "Skilled"
  /\ Seed.finalData
       (Seed.step Seed.init [JS.VNull; JS.VNull; JS.VStr "C) Unskilled Workmen"])
     = Seed.finalData Seed.init.
Proof.
  apply (X16_seed_skilled_workmen_first Seed.init
           [JS.VNull; JS.VNull; JS.VStr "C) Unskilled Workmen"]).
  right. left. vm_compute. reflexivity.
Defined.

(** X17. The records of [importExcel] come from rows of the sheet, one
    row each, in the order of the rows: a record has the description
    and the unit of its row, trimmed, and its rate as it is. So there
    are at most as many records as rows. *)
Theorem X17_seed_records_from_rows (rows : list JS.row) :
  (exists kept,
     sublist kept rows
     /\ map SeedRows.taken (Seed.importExcel rows) = map SeedRows.of_row kept)
  /\ length (Seed.importExcel rows) <= length rows.
Proof.
  destruct (seed_run_rows rows Seed.init) as (kept & Hs & E).
  cbn [Seed.init Seed.finalData map app] in E. unfold Seed.importExcel.
  split; [exists kept; split; [exact Hs | exact E]|].
  rewrite <- (length_map SeedRows.taken), E, length_map.
  apply sublist_length, Hs.
Qed.

(** X18. No record of [importExcel] comes from a row that names a
    section or a sub-section; its [subCategory] is [null] or one of the
    three names of line 112-125, and its description and unit have no
    white space at their ends. *)
Theorem X18_seed_record_fields (rows : list JS.row) :
  Forall
    (fun rec =>
       SeedRows.names_group (JS.toLowerCase (Seed.description rec)) = false
       /\ Seed.subCategory rec ∈ SeedRows.sub_categories
       /\ JS.trim (Seed.description rec) = Seed.description rec
       /\ JS.trim (Seed.unit rec) = Seed.unit rec)
    (Seed.importExcel rows).
Proof.
  unfold Seed.importExcel.
  apply seed_run_records; [| apply (bool_decide_unpack _); reflexivity
                           | constructor].
  intros st r rec Hs _ Ht Hn Hsub.
  injection Ht as Hd Hu _.
  split; [exact Hn|]. split; [rewrite Hsub; exact Hs|].
  rewrite Hd, Hu. split; apply text_of_trimmed.
Qed.

(* ================================================================== *)
(** * excel-to-json.js *)
(* ================================================================== *)

Section ExcelToJsonFacts.
Import JS Regex ExcelToJson.

Variable toFixed2 : number -> string.

Lemma sfilter_sfilter p q s :
  sfilter p (sfilter q s) = sfilter (fun c => q c && p c) s.
Proof.
  induction s as [|c r IH]; simpl; [reflexivity|].
  destruct (q c); simpl; [|exact IH].
  destruct (p c); [f_equal|]; exact IH.
Qed.

Lemma normaliseItemNo_snoKey v :
  v <> VNull -> Mongo.snoKey v = Some (normaliseItemNo v).
Proof.
  intros Hv. rewrite (snoKey_sfilter v Hv). unfold normaliseItemNo, delete_runs.
  rewrite delete_go_sfilter, sfilter_sfilter. do 2 f_equal.
  apply sfilter_ext. intros c. unfold Mongo.ws_or_dot.
  destruct (is_ws c), (ascii_eqb c "."); reflexivity.
Qed.

Lemma header_not_data r : header_row r = true -> data_row r = false.
Proof.
  unfold header_row, data_row, isSectionHeader, isDataRow.
  destruct (cell r 0); [discriminate | reflexivity | reflexivity].
Qed.

Lemma diameter_not_data r :
  isDiameterHeader (cell r 1) = true -> data_row r = false.
Proof.
  unfold data_row, isDataRow.
  destruct (cell r 1); [discriminate| |discriminate].
  intros _. cbn [is_number]. rewrite andb_false_r. reflexivity.
Qed.

(** What a row does to the items, the one under way included. *)
Lemma flush_step st r :
  (header_row r = true
   /\ flush (step toFixed2 st r) = (flush st ++ [opened r])%list
   /\ current (step toFixed2 st r) <> None)
  \/ (header_row r = false
      /\ (data_row r = false \/ current st = None)
      /\ step toFixed2 st r = st)
  \/ (header_row r = false /\ data_row r = true
      /\ exists l cur cur',
           flush st = (l ++ [cur])%list
           /\ flush (step toFixed2 st r) = (l ++ [cur'])%list
           /\ bare cur' = bare cur
           /\ unit cur' <> None
           /\ (exists rt, rates cur' = (rates cur ++ [rt])%list)
           /\ current (step toFixed2 st r) <> None).
Proof.
  unfold step. cbv zeta. fold (header_row r). fold (data_row r).
  destruct (header_row r) eqn:Hh.
  { left. split; [reflexivity|]. split; [reflexivity | discriminate]. }
  destruct (isDiameterHeader (cell r 1)) eqn:Hd.
  { right. left. split; [reflexivity|]. split; [|reflexivity].
    left. exact (diameter_not_data r Hd). }
  destruct (data_row r) eqn:Hr.
  2:{ right. left. split; [reflexivity|]. split; [left|]; reflexivity. }
  destruct (current st) as [cur|] eqn:Hc.
  2:{ right. left. split; [reflexivity|]. split; [right|]; reflexivity. }
  cbn [not_null andb]. right. right. split; [reflexivity|]. split; [reflexivity|].
  unfold data_row, isDataRow in Hr.
  destruct (cell r 0); try discriminate Hr.
  destruct (cell r 1) as [| |d]; try discriminate Hr.
  destruct (cell r 2) as [|u|]; try discriminate Hr.
  destruct (cell r 3) as [| |n]; try discriminate Hr.
  exists (items st), cur. eexists. unfold flush. rewrite Hc.
  cbn [current items]. split; [reflexivity|]. split; [reflexivity|].
  split; [reflexivity|]. cbn [unit rates].
  split; [destruct (unit cur); discriminate|].
  split; [eexists; reflexivity | discriminate].
Qed.

Lemma totalEntries_sum l :
  totalEntries l = list_sum (map (fun i => length (rates i)) l).
Proof. unfold totalEntries. rewrite fold_left_sum. reflexivity. Qed.

Lemma fold_bare rows : forall st,
  map bare (flush (fold_left (step toFixed2) rows st))
  = (map bare (flush st) ++ map opened (List.filter header_row rows))%list.
Proof.
  induction rows as [|r rows IH]; intros st; simpl.
  - rewrite app_nil_r. reflexivity.
  - rewrite IH.
    destruct (flush_step st r)
      as [(-> & E & _)|[(-> & _ & ->)|(-> & _ & l & cur & cur' & E1 & E2 & Hb & _)]].
    + rewrite E, map_app, <- app_assoc. reflexivity.
    + reflexivity.
    + rewrite E1, E2, !map_app. cbn [map]. rewrite Hb. reflexivity.
Qed.

Lemma fold_units rows : forall st,
  Forall unit_with_rates (flush st) ->
  Forall unit_with_rates (flush (fold_left (step toFixed2) rows st)).
Proof.
  induction rows as [|r rows IH]; intros st H; simpl; [exact H|].
  apply IH.
  destruct (flush_step st r)
    as [(_ & E & _)|[(_ & _ & ->)|(_ & _ & l & cur & cur' & E1 & E2 & _ & Hu
                                  & (rt & Hr) & _)]].
  - rewrite E. apply Forall_app. split; [exact H|].
    constructor; [|constructor]. split; reflexivity.
  - exact H.
  - rewrite E1 in H. rewrite E2. apply Forall_app in H as [H _].
    apply Forall_app. split; [exact H|]. constructor; [|constructor].
    unfold unit_with_rates. rewrite Hr. split; [contradiction|].
    intros E. destruct (rates cur); discriminate E.
Qed.

Lemma fold_entries_inside rows : forall st,
  current st <> None ->
  totalEntries (flush (fold_left (step toFixed2) rows st))
  = totalEntries (flush st) + length (List.filter data_row rows).
Proof.
  induction rows as [|r rows IH]; intros st Hc; simpl; [lia|].
  destruct (flush_step st r)
    as [(Hh & E & Hc')|[(_ & [Hd|Hn] & E)|(_ & Hd & l & cur & cur' & E1 & E2 & _ & _
                                          & (rt & Hr) & Hc')]].
  - rewrite (IH _ Hc'), E, (header_not_data r Hh), !totalEntries_sum.
    rewrite map_app, list_sum_app. simpl. lia.
  - rewrite E, (IH st Hc), Hd. reflexivity.
  - contradiction.
  - rewrite (IH _ Hc'), E1, E2, Hd, !totalEntries_sum.
    rewrite !map_app, !list_sum_app. cbn [map list_sum length].
    rewrite Hr, length_app. simpl. lia.
Qed.

Lemma fold_entries rows :
  totalEntries (flush (fold_left (step toFixed2) rows init))
  = length (List.filter data_row (Rows.from_first header_row rows)).
Proof.
  induction rows as [|r rows IH]; [reflexivity|]. simpl.
  destruct (flush_step init r)
    as [(Hh & E & Hc')|[(Hh & _ & E)|(_ & _ & l & cur & cur' & E1 & _)]].
  - rewrite Hh, (fold_entries_inside rows _ Hc'), E.
    cbn [List.filter]. rewrite (header_not_data r Hh). reflexivity.
  - rewrite Hh, E. exact IH.
  - destruct l; discriminate E1.
Qed.

End ExcelToJsonFacts.

(** X19. excel-to-json.js and storeToMongoDB.js make the same key of
    an item number: [normaliseItemNo] is [snoKey] on every cell that
    is not empty. *)
Theorem X19_normaliseItemNo_is_snoKey (v : JS.value) :
  v <> JS.VNull ->
  Mongo.snoKey v = Some (ExcelToJson.normaliseItemNo v)
  /\ Spec.canonicalKey v = Some (ExcelToJson.normaliseItemNo v).
Proof.
  intros Hv. rewrite <- snoKey_canonicalKey.
  split; exact (normaliseItemNo_snoKey v Hv).
Qed.

Lemma X19_witness :
  Mongo.snoKey (JS.VStr "8. A.")
  = Some (ExcelToJson.normaliseItemNo (JS.VStr "8. A."))
  /\ Spec.canonicalKey (JS.VStr "8. A.")
     = Some (ExcelToJson.normaliseItemNo (JS.VStr "8. A.")).
Proof. apply (X19_normaliseItemNo_is_snoKey (JS.VStr "8. A.")). discriminate. Defined.

(** X20. [parseSheet] returns one item for every row that is a section
    header, in the order of the sheet, the last one included (it is
    pushed after the loop), with the number and the title of the row;
    [totalItems] is the number of these rows. This holds whatever the
    rounding of the rates. *)
Theorem X20_items_in_sheet_order (toFixed2 : JS.number -> string)
  (rows : list JS.row) :
  map ExcelToJson.bare (ExcelToJson.parseSheet toFixed2 rows)
  = map ExcelToJson.opened (List.filter ExcelToJson.header_row rows)
  /\ ExcelToJson.totalItems (ExcelToJson.parseSheet toFixed2 rows)
     = length (List.filter ExcelToJson.header_row rows).
Proof.
  pose proof (fold_bare toFixed2 rows ExcelToJson.init) as H.
  cbn [ExcelToJson.flush ExcelToJson.init ExcelToJson.current
       ExcelToJson.items map app] in H.
  split; [exact H|]. unfold ExcelToJson.totalItems.
  rewrite <- (length_map ExcelToJson.bare). unfold ExcelToJson.parseSheet.
  rewrite H, length_map. reflexivity.
Qed.

(** X21. In the result of [parseSheet] an item has a unit exactly when
    it has a rate, and the count of entries that [main] prints is the
    number of data rows from the first section header on: each of them
    adds one rate to the item under way, and no other row adds one. *)
Theorem X21_units_and_entries (toFixed2 : JS.number -> string)
  (rows : list JS.row) :
  Forall ExcelToJson.unit_with_rates (ExcelToJson.parseSheet toFixed2 rows)
  /\ ExcelToJson.totalEntries (ExcelToJson.parseSheet toFixed2 rows)
     = length (List.filter ExcelToJson.data_row
                 (Rows.from_first ExcelToJson.header_row rows)).
Proof.
  split.
  - apply fold_units. constructor.
  - apply fold_entries.
Qed.

(* ================================================================== *)
(** * The dimension of an item, and the rate of a section *)
(* ================================================================== *)

Section Dimension.
Import JS Regex.

Lemma ci_m_not_ws c : eq_ci "m" c = true -> is_ws c = false.
Proof. destruct c as [[] [] [] [] [] [] [] []]; vm_compute; congruence. Qed.

Lemma strip_suffix_eq r s :
  strip_suffix r s
  = if matches r s then EmptyString
    else match s with
         | EmptyString => EmptyString
         | String c t => String c (strip_suffix r t)
         end.
Proof. destruct s; reflexivity. Qed.

Lemma matches_mm s :
  matches (LitCI "mm") s = true
  <-> exists a b, s = String a (String b EmptyString)
                  /\ eq_ci "m" a = true /\ eq_ci "m" b = true.
Proof.
  rewrite matches_lang. cbn [LitCI]. rewrite lang_cat_iff. split.
  - intros (s1 & s2 & -> & H1 & H2).
    apply lang_chr_iff in H1 as (a & Ha & ->).
    apply lang_cat_iff in H2 as (s3 & s4 & -> & H3 & H4).
    apply lang_chr_iff in H3 as (b & Hb & ->).
    inversion H4; subst. exists a, b. repeat split; assumption.
  - intros (a & b & -> & Ha & Hb).
    exists (String a EmptyString), (String b EmptyString).
    split; [reflexivity|]. split; [apply lang_chr_iff; eauto|].
    apply lang_cat_iff. exists (String b EmptyString), EmptyString.
    split; [reflexivity|]. split; [apply lang_chr_iff; eauto | constructor].
Qed.

Lemma matches_re_mm s :
  matches Mongo.re_mm s = true
  <-> exists w m, s = w +:+ m /\ Spec.all_of is_ws w
                  /\ matches (LitCI "mm") m = true.
Proof.
  rewrite matches_lang. unfold Mongo.re_mm. rewrite lang_cat_iff. split.
  - intros (w & m & -> & Hw & Hm). exists w, m.
    split; [reflexivity|]. split; [apply lang_star_chr, Hw|].
    apply matches_lang, Hm.
  - intros (w & m & -> & Hw & Hm). exists w, m.
    split; [reflexivity|]. split; [apply lang_star_chr, Hw|].
    apply matches_lang, Hm.
Qed.

Lemma strip_mm_ws w m :
  Spec.all_of is_ws w -> matches (LitCI "mm") m = true ->
  strip_suffix (LitCI "mm") (w +:+ m) = w.
Proof.
  intros Hw Hm. induction w as [|c w IH].
  - rewrite append_nil_l, strip_suffix_eq, Hm. reflexivity.
  - destruct Hw as [Hc Hw]. rewrite append_cons, strip_suffix_eq.
    destruct (matches (LitCI "mm") (String c (w +:+ m))) eqn:E.
    + apply matches_mm in E as (a & b & [= -> _] & Ha & _).
      rewrite (ci_m_not_ws a Ha) in Hc. discriminate.
    + rewrite (IH Hw). reflexivity.
Qed.

(** What [/mm$/i] leaves is what [/\s*mm$/i] leaves, and white space. *)
Lemma strip_suffix_mm s :
  exists w, Spec.all_of is_ws w
            /\ strip_suffix (LitCI "mm") s
               = strip_suffix Mongo.re_mm s +:+ w.
Proof.
  induction s as [|c t (w & Hw & IH)].
  - exists EmptyString. split; [exact I | reflexivity].
  - rewrite (strip_suffix_eq Mongo.re_mm).
    destruct (matches Mongo.re_mm (String c t)) eqn:EA.
    + apply matches_re_mm in EA as (w0 & m & E & Hw0 & Hm).
      exists w0. split; [exact Hw0|].
      rewrite E, (strip_mm_ws w0 m Hw0 Hm), append_nil_l. reflexivity.
    + rewrite (strip_suffix_eq (LitCI "mm")).
      destruct (matches (LitCI "mm") (String c t)) eqn:EB.
      * assert (H : matches Mongo.re_mm (String c t) = true).
        { apply matches_re_mm. exists EmptyString, (String c t).
          split; [reflexivity|]. split; [exact I | exact EB]. }
        rewrite H in EA. discriminate.
      * exists w. split; [exact Hw|]. rewrite IH, append_cons. reflexivity.
Qed.

Lemma trimEnd_ws w : Spec.all_of is_ws w -> trimEnd w = EmptyString.
Proof.
  induction w as [|c w IH]; [reflexivity|]. intros [Hc Hw].
  simpl. rewrite (IH Hw), Hc. reflexivity.
Qed.

Lemma drop_while_ws w : Spec.all_of is_ws w -> drop_while is_ws w = EmptyString.
Proof.
  induction w as [|c w IH]; [reflexivity|]. intros [Hc Hw].
  simpl. rewrite Hc. exact (IH Hw).
Qed.

Lemma trimEnd_app_ws x w :
  Spec.all_of is_ws w -> trimEnd (x +:+ w) = trimEnd x.
Proof.
  intros Hw. induction x as [|c x IH].
  - rewrite append_nil_l. apply trimEnd_ws, Hw.
  - rewrite append_cons. simpl. rewrite IH. reflexivity.
Qed.

Lemma trim_app_ws x w : Spec.all_of is_ws w -> trim (x +:+ w) = trim x.
Proof.
  intros Hw. unfold trim, trimStart. induction x as [|c x IH].
  - rewrite append_nil_l, (drop_while_ws w Hw). reflexivity.
  - rewrite append_cons. cbn [drop_while].
    destruct (is_ws c); [exact IH|].
    rewrite <- append_cons. apply trimEnd_app_ws, Hw.
Qed.

Lemma dimension_same d :
  trim (strip_suffix Mongo.re_mm d) = trim (strip_suffix (LitCI "mm") d).
Proof.
  destruct (strip_suffix_mm d) as (w & Hw & ->).
  symmetry. apply trim_app_ws, Hw.
Qed.

(** A section of the result is the section of a row that opens one. *)
Lemma run_bare_each rows st sec :
  Mongo.run Mongo.init rows = Ok st -> sec ∈ Mongo.sections st ->
  exists r, Rows.opens (Mongo.normalise r) = true
            /\ Rows.bare sec = Rows.opened (Mongo.normalise r).
Proof.
  intros Hrun Hsec.
  pose proof (run_bare rows Mongo.init st all_rated_init Hrun) as H.
  cbn [Mongo.init Mongo.sections map app] in H.
  assert (Hb : Rows.bare sec ∈ map Rows.bare (Mongo.sections st)).
  { apply list_elem_of_In, in_map, list_elem_of_In, Hsec. }
  rewrite H in Hb. apply list_elem_of_In, in_map_iff in Hb as (c & E & Hc).
  apply filter_In in Hc as [Hc Ho].
  apply in_map_iff in Hc as (r & <- & _).
  exists r. split; [exact Ho | symmetry; exact E].
Qed.

End Dimension.

(** X22. storeToMongoDB.js and publichealth.js take the same dimension
    from a description: what [buildRateItem] computes with [/\s*mm$/i]
    is what line 233 of publichealth.js computes with [/mm$/i]. *)
Theorem X22_same_dimension (desc u : option string) (r : JS.value) :
  Mongo.dimension (Mongo.buildRateItem desc u r)
  = match desc with
    | Some d =>
        if JS.truthy_s desc
        then Some (JS.trim (Regex.strip_suffix (Regex.LitCI "mm") d))
        else None
    | None => None
    end.
Proof.
  destruct desc as [d|]; [|reflexivity].
  cbn [Mongo.buildRateItem Mongo.dimension].
  destruct (JS.truthy_s (Some d)); [|reflexivity].
  rewrite dimension_same. reflexivity.
Qed.

(** X23. A section of the result of [parseExcel] has a unit, a rate or
    a rate type of its own only if its row was taken by the rule for
    the compound numbers 8a, ..., 41b: a section opened by the header
    rule has none of them. In every section the rate type is absent
    with the rate, ["numeric"] for a number and ["formula"] for a
    text. *)
Theorem X23_section_rate (rows : list JS.row) (secs : list Mongo.Section)
  (sec : Mongo.Section) :
  Mongo.parseExcel rows = JS.Ok secs -> sec ∈ secs ->
  (Mongo.isSimpleCompound (Mongo.item_no sec) = false ->
   Mongo.s_unit sec = None /\ Mongo.s_rate sec = JS.VNull
   /\ Mongo.s_rate_type sec = None)
  /\ Mongo.s_rate_type sec
     = match Mongo.s_rate sec with
       | JS.VNull => None
       | JS.VNum _ => Some "numeric"
       | JS.VStr _ => Some "formula"
       end.
Proof.
  unfold Mongo.parseExcel.
  destruct (Mongo.run Mongo.init (drop 2 rows)) as [st|] eqn:Hrun; simpl;
    [|discriminate].
  intros [= <-] Hsec.
  destruct (run_bare_each _ _ _ Hrun Hsec) as (r & Ho & Hb).
  assert (H1 : Mongo.item_no sec = Mongo.item_no (Rows.opened (Mongo.normalise r)))
    by exact (f_equal Mongo.item_no Hb).
  assert (H2 : Mongo.s_unit sec = Mongo.s_unit (Rows.opened (Mongo.normalise r)))
    by exact (f_equal Mongo.s_unit Hb).
  assert (H3 : Mongo.s_rate sec = Mongo.s_rate (Rows.opened (Mongo.normalise r)))
    by exact (f_equal Mongo.s_rate Hb).
  assert (H4 : Mongo.s_rate_type sec
               = Mongo.s_rate_type (Rows.opened (Mongo.normalise r)))
    by exact (f_equal Mongo.s_rate_type Hb).
  rewrite H1, H2, H3, H4. clear H1 H2 H3 H4 Hb Hsec Hrun.
  revert Ho. unfold Rows.opens, Rows.opened. generalize (Mongo.normalise r).
  intros c Ho.
  cbn [Mongo.buildSection Mongo.item_no Mongo.s_unit Mongo.s_rate
       Mongo.s_rate_type].
  split; [|destruct (Mongo.c_rate c); reflexivity].
  intros Hn.
  assert (Hc : Mongo.is_compound c = false).
  { unfold Mongo.is_compound. revert Hn. unfold Mongo.isSimpleCompound.
    destruct (Mongo.sno c) as [|s|n]; cbn [JS.is_number JS.to_string JS.truthy];
      [reflexivity| |].
    - intros ->. apply andb_false_r.
    - intros ->. apply andb_false_r. }
  rewrite Hc in Ho. apply andb_true_iff in Ho as [_ Ho]. cbn [orb] in Ho.
  unfold Mongo.is_header, Mongo.isSectionHeader in Ho.
  destruct (Mongo.sno c) as [|s|n]; [discriminate| |].
  - apply andb_true_iff in Ho as [Ho Hr]. apply andb_true_iff in Ho as [_ Hu].
    destruct (Mongo.c_unit c); [discriminate|].
    destruct (Mongo.c_rate c); [|discriminate..]. repeat split.
  - apply andb_true_iff in Ho as [Hu Hr].
    destruct (Mongo.c_unit c); [discriminate|].
    destruct (Mongo.c_rate c); [|discriminate..]. repeat split.
Qed.

Lemma X23_witness :
  (Mongo.isSimpleCompound
     (Mongo.item_no
        (Mongo.buildSection (JS.VNum (JS.of_Z 7)) (Some "7") (Some "LOADING")
           None JS.VNull)) = false ->
   Mongo.s_unit
     (Mongo.buildSection (JS.VNum (JS.of_Z 7)) (Some "7") (Some "LOADING")
        None JS.VNull) = None
   /\ Mongo.s_rate
        (Mongo.buildSection (JS.VNum (JS.of_Z 7)) (Some "7") (Some "LOADING")
           None JS.VNull) = JS.VNull
   /\ Mongo.s_rate_type
        (Mongo.buildSection (JS.VNum (JS.of_Z 7)) (Some "7") (Some "LOADING")
           None JS.VNull) = None)
  /\ Mongo.s_rate_type
       (Mongo.buildSection (JS.VNum (JS.of_Z 7)) (Some "7") (Some "LOADING")
          None JS.VNull)
     = match Mongo.s_rate
               (Mongo.buildSection (JS.VNum (JS.of_Z 7)) (Some "7")
                  (Some "LOADING") None JS.VNull) with
       | JS.VNull => None
       | JS.VNum _ => Some "numeric"
       | JS.VStr _ => Some "formula"
       end.
Proof.
  apply (X23_section_rate
    [[]; []; [JS.VNull; JS.VNum (JS.of_Z 7); JS.VStr "LOADING"]]
    [Mongo.buildSection (JS.VNum (JS.of_Z 7)) (Some "7") (Some "LOADING")
       None JS.VNull]).
  - vm_compute. reflexivity.
  - apply list_elem_of_singleton. reflexivity.
Defined.

(* ================================================================== *)
(** * The compound item numbers of the two scripts *)
(* ================================================================== *)

Section CompoundNumbers.
Import JS Regex.

Lemma toLowerCase_app s t :
  toLowerCase (s +:+ t) = toLowerCase s +:+ toLowerCase t.
Proof.
  unfold toLowerCase. induction s as [|c s IH]; [reflexivity|].
  rewrite append_cons. cbn [smap]. rewrite append_cons, IH. reflexivity.
Qed.

Lemma eq_ci_lower p c : eq_ci p c = true -> lower c = lower p.
Proof. unfold eq_ci. intros H. apply ascii_eqb_eq in H. congruence. Qed.

(** A literal under the [i] flag matches the texts that are the
    literal in lower case. *)
Lemma lang_LitCI p : forall s,
  lang (LitCI p) s -> toLowerCase s = toLowerCase p.
Proof.
  induction p as [|a p IH]; intros s H; cbn [LitCI] in H.
  - inversion H. reflexivity.
  - apply lang_cat_iff in H as (s1 & s2 & -> & H1 & H2).
    apply lang_chr_iff in H1 as (c & Hc & ->).
    rewrite append_cons, append_nil_l. unfold toLowerCase in *. cbn [smap].
    rewrite (eq_ci_lower a c Hc), (IH s2 H2). reflexivity.
Qed.

Lemma lang_ab s :
  lang (Alt (Chr (eq_ci "a")) (Chr (eq_ci "b"))) s ->
  toLowerCase s = "a" \/ toLowerCase s = "b".
Proof.
  intros H. inversion H as [| | |a0 b0 s0 H1|a0 b0 s0 H1| |]; subst;
    apply lang_chr_iff in H1 as (c & Hc & ->); unfold toLowerCase; cbn [smap];
    rewrite (eq_ci_lower _ c Hc); [left | right]; reflexivity.
Qed.

Lemma lang_lit_ab p s :
  lang (Cat (LitCI p) (Alt (Chr (eq_ci "a")) (Chr (eq_ci "b")))) s ->
  toLowerCase s = toLowerCase p +:+ "a"
  \/ toLowerCase s = toLowerCase p +:+ "b".
Proof.
  intros H. apply lang_cat_iff in H as (s1 & s2 & -> & H1 & H2).
  rewrite toLowerCase_app, (lang_LitCI p s1 H1).
  destruct (lang_ab s2 H2) as [-> | ->]; [left | right]; reflexivity.
Qed.

(** The keys of line 207 of publichealth.js. *)
Lemma re_simple_keys k :
  matches PH.re_simple k = true ->
  toLowerCase k ∈ ["11a"; "11b"; "41a"; "41b"; "18a"; "18b"].
Proof.
  intros H. apply matches_lang in H. unfold PH.re_simple in H. cbv zeta in H.
  inversion H as [| | |a0 b0 s0 H1|a0 b0 s0 H1| |]; subst.
  { destruct (lang_lit_ab "11" _ H1) as [-> | ->];
      apply (bool_decide_unpack _); reflexivity. }
  inversion H1 as [| | |a1 b1 s1 H2|a1 b1 s1 H2| |]; subst.
  - destruct (lang_lit_ab "41" _ H2) as [-> | ->];
      apply (bool_decide_unpack _); reflexivity.
  - destruct (lang_lit_ab "18" _ H2) as [-> | ->];
      apply (bool_decide_unpack _); reflexivity.
Qed.

Lemma simple_is_compound sno :
  truthy sno = true ->
  test_full PH.re_simple (PH.simple_key sno) = true ->
  Mongo.isSimpleCompound sno = true.
Proof.
  intros Ht H. unfold Mongo.isSimpleCompound. rewrite Ht. cbn [negb].
  unfold delete_runs. rewrite delete_go_sfilter.
  change (sfilter (fun c => negb (Mongo.ws_or_dot c)) (to_string sno))
    with (PH.simple_key sno).
  apply re_simple_keys in H. unfold test_full.
  repeat (apply elem_of_cons in H as [-> | H]; [reflexivity|]).
  apply elem_of_nil in H. contradiction.
Qed.

End CompoundNumbers.

(** X24. Every row that publichealth.js takes by its rule for the
    simple items (11a, 11b, 18a, 18b, 41a, 41b) has an item number that
    [isSimpleCompound] of storeToMongoDB.js accepts; the numbers 8a,
    8b, 9a and 9b are compound numbers of storeToMongoDB.js only. *)
Theorem X24_simple_items_are_compound :
  (forall c : PH.Cells,
     PH.is_simple_item c = true ->
     Mongo.isSimpleCompound (PH.sno c) = true
     /\ JS.toLowerCase (PH.simple_key (PH.sno c))
        ∈ ["11a"; "11b"; "41a"; "41b"; "18a"; "18b"])
  /\ Forall
       (fun k =>
          Mongo.isSimpleCompound (JS.VStr k) = true
          /\ forall d u r,
               PH.is_simple_item
                 {| PH.sno := JS.VStr k; PH.desc := d; PH.c_unit := u;
                    PH.c_rate := r |} = false)
       ["8a"; "8b"; "9a"; "9b"].
Proof.
  split.
  - intros c H. unfold PH.is_simple_item in H.
    apply andb_true_iff in H as [Ht H].
    split; [exact (simple_is_compound _ Ht H) | exact (re_simple_keys _ H)].
  - repeat constructor.
Qed.

Lemma X24_witness :
  Mongo.isSimpleCompound (JS.VStr "18 B.") = true
  /\ JS.toLowerCase (PH.simple_key (JS.VStr "18 B."))
     ∈ ["11a"; "11b"; "41a"; "41b"; "18a"; "18b"].
Proof.
  apply (proj1 X24_simple_items_are_compound
           {| PH.sno := JS.VStr "18 B."; PH.desc := None; PH.c_unit := None;
              PH.c_rate := JS.VNull |}).
  vm_compute. reflexivity.
Defined.

(* ================================================================== *)
(** * The sections and the rows that open them *)
(* ================================================================== *)

Section OpenedSections.
Import JS Spec.

Lemma Forall2_of_maps {A B C : Type} (f : A -> C) (g : B -> C) l : forall l',
  map f l = map g l' -> Forall2 (fun x y => f x = g y) l l'.
Proof.
  induction l as [|x l IH]; intros [|y l']; simpl; try discriminate.
  - constructor.
  - intros [= H1 H2]. constructor; [exact H1 | apply IH, H2].
Qed.

Lemma Forall_filter_true {A : Type} (p : A -> bool) l :
  Forall (fun y => p y = true) (List.filter p l).
Proof.
  induction l as [|y l IH]; simpl; [constructor|].
  destruct (p y) eqn:E; [constructor; assumption | exact IH].
Qed.

Lemma Forall2_with_right {A B : Type} (R : A -> B -> Prop) (P : B -> Prop) l l' :
  Forall2 R l l' -> Forall P l' -> Forall2 (fun x y => R x y /\ P y) l l'.
Proof.
  induction 1 as [|x y l l' HR _ IH]; intros HP; [constructor|].
  inversion HP; subst. constructor; [split; assumption | apply IH; assumption].
Qed.

Lemma filter_map_rows {A B : Type} (f : A -> B) (p : B -> bool) l :
  List.filter p (map f l) = map f (List.filter (fun x => p (f x)) l).
Proof.
  induction l as [|x l IH]; simpl; [reflexivity|].
  destruct (p (f x)); simpl; rewrite IH; reflexivity.
Qed.

(** The item number of a row, [sno] of lines 161 and 160, has the
    canonical key of the cell. *)
Lemma canonicalKey_trimmed v :
  canonicalKey (match v with VStr s => VStr (trim s) | _ => v end)
  = canonicalKey v.
Proof.
  destruct v as [|s|n]; [reflexivity| |reflexivity].
  unfold canonicalKey. cbn [to_string]. f_equal. f_equal.
  apply sfilter_trim. intros c Hc. rewrite Hc. reflexivity.
Qed.

(** ** storeToMongoDB.js *)

Lemma mongo_step_opens st r :
  Rows.opens (Mongo.normalise r) = true ->
  Mongo.step st r
  = Ok (Mongo.open_section st (Rows.opened (Mongo.normalise r))).
Proof.
  unfold Rows.opens, Rows.opened, Mongo.step. cbv zeta.
  destruct (Mongo.is_blank _); [discriminate|].
  destruct (Mongo.is_compound _); [reflexivity|].
  destruct (Mongo.is_header _); [reflexivity | discriminate].
Qed.

Lemma mongo_opens_sno c : Rows.opens c = true -> Mongo.sno c <> VNull.
Proof.
  unfold Rows.opens. destruct (Mongo.is_blank c); [discriminate|].
  destruct (Mongo.is_compound c) eqn:E1; [intros _; apply is_compound_not_null, E1|].
  destruct (Mongo.is_header c) eqn:E2; [intros _; apply is_header_not_null, E2|].
  discriminate.
Qed.

Lemma mongo_opened_item_no c :
  Mongo.sno c <> VNull -> Mongo.item_no (Rows.opened c) = Mongo.sno c.
Proof.
  unfold Rows.opened, Mongo.buildSection. cbn [Mongo.item_no].
  destruct (Mongo.sno c); [contradiction | reflexivity | reflexivity].
Qed.

(** What the section of a row that opens one has of the row. *)
Lemma mongo_opened_of_row r :
  Rows.opens (Mongo.normalise r) = true ->
  let sec := Rows.opened (Mongo.normalise r) in
  Mongo.item_no sec = Mongo.sno (Mongo.normalise r)
  /\ Mongo.item_no sec <> VNull
  /\ Mongo.item_key sec = canonicalKey (Mongo.item_no sec)
  /\ Mongo.item_key sec = canonicalKey (cell r 1)
  /\ exists k,
       canonicalKey (cell r 1) = Some k
       /\ Mongo.category sec
          = Some (resolve Mongo.CATEGORY_MAP k
                    (to_string (Mongo.sno (Mongo.normalise r)))).
Proof.
  intros Ho sec. pose proof (mongo_opens_sno _ Ho) as Hs.
  pose proof (mongo_opened_item_no _ Hs) as Hno. fold sec in Hno.
  assert (Hk : Mongo.item_key sec = canonicalKey (Mongo.sno (Mongo.normalise r))).
  { unfold sec, Rows.opened. cbn [Mongo.buildSection Mongo.item_key].
    rewrite key_normalise. apply snoKey_canonicalKey. }
  assert (Hc : canonicalKey (Mongo.sno (Mongo.normalise r)) = canonicalKey (cell r 1)).
  { unfold Mongo.normalise. cbn [Mongo.sno]. apply canonicalKey_trimmed. }
  split; [exact Hno|]. split; [rewrite Hno; exact Hs|].
  split; [rewrite Hno; exact Hk|]. split; [rewrite Hk; exact Hc|].
  destruct (buildSection_cat (Mongo.sno (Mongo.normalise r))
              (Mongo.desc (Mongo.normalise r)) (Mongo.c_unit (Mongo.normalise r))
              (Mongo.c_rate (Mongo.normalise r)) Hs) as (k & Hk' & Hcat).
  exists k. split.
  - rewrite <- Hc, <- Hk. exact Hk'.
  - unfold sec, Rows.opened. rewrite key_normalise, Hcat. do 2 f_equal.
    apply f_equal. apply (mongo_opened_item_no _ Hs).
Qed.

(** The sections of the result, one for each row that opens one. *)
Lemma mongo_sections_of_rows rows secs :
  Mongo.parseExcel rows = Ok secs ->
  Forall2
    (fun sec r =>
       Rows.bare sec = Rows.opened (Mongo.normalise r)
       /\ Rows.opens (Mongo.normalise r) = true)
    secs
    (List.filter (fun r => Rows.opens (Mongo.normalise r)) (drop 2 rows)).
Proof.
  unfold Mongo.parseExcel.
  destruct (Mongo.run Mongo.init (drop 2 rows)) as [st|] eqn:Hrun; simpl;
    [|discriminate].
  intros [= <-].
  pose proof (run_bare (drop 2 rows) Mongo.init st all_rated_init Hrun) as H.
  simpl in H. rewrite filter_map_rows, map_map in H.
  apply Forall2_with_right.
  - apply (Forall2_of_maps Rows.bare
             (fun r => Rows.opened (Mongo.normalise r))), H.
  - apply (Forall_filter_true (fun r => Rows.opens (Mongo.normalise r))).
Qed.

(** ** publichealth.js *)

Lemma ph_step_opens st r :
  PHRows.opens (PH.normalise r) = true ->
  PH.step st r = Ok (PH.open_section st (PHRows.opened (PH.normalise r))).
Proof.
  unfold PHRows.opens, PHRows.opened, PH.step. cbv zeta.
  destruct (PH.is_blank _); [discriminate|].
  destruct (PH.is_note _); [discriminate|].
  destruct (PH.is_continuation _); [discriminate|].
  destruct (PH.is_header _); [reflexivity|].
  cbn [negb andb orb]. intros Hs. rewrite Hs.
  unfold PH.is_sub.
  destruct (PH.isSubHeader _ _ _ _) eqn:E; [|reflexivity].
  rewrite (sub_not_simple _ E) in Hs. discriminate.
Qed.

Lemma ph_opens_sno c : PHRows.opens c = true -> PH.sno c <> VNull.
Proof.
  unfold PHRows.opens. destruct (PH.is_blank c); [discriminate|].
  destruct (PH.is_note c); [discriminate|].
  destruct (PH.is_continuation c); [discriminate|].
  destruct (PH.is_header c) eqn:E1; [intros _; apply ph_is_header_not_null, E1|].
  destruct (PH.is_simple_item c) eqn:E2; [intros _; apply ph_is_simple_not_null, E2|].
  discriminate.
Qed.

(** What the section of a row that opens one has of the row. *)
Lemma ph_opened_of_row r n :
  PHRows.opens (PH.normalise r) = true ->
  let sec := PHRows.opened (PH.normalise r) n in
  PH.s_id sec = n
  /\ PH.item_no sec = PH.sno (PH.normalise r)
  /\ PH.item_no sec <> VNull
  /\ Some (PH.item_key sec) = canonicalKey (PH.item_no sec)
  /\ Some (PH.item_key sec) = canonicalKey (cell r 1)
  /\ PH.category sec
     = Some (resolve PH.SECTION_CATEGORIES (PH.item_key sec)
               (to_string (PH.sno (PH.normalise r)))).
Proof.
  intros Ho sec. pose proof (ph_opens_sno _ Ho) as Hs.
  assert (Hno : PH.item_no sec = PH.sno (PH.normalise r)).
  { unfold sec, PHRows.opened. destruct (PH.is_header _); reflexivity. }
  assert (Hk : Some (PH.item_key sec) = canonicalKey (PH.sno (PH.normalise r))).
  { unfold sec, PHRows.opened. destruct (PH.is_header _).
    - apply header_key_canonicalKey, Hs.
    - apply simple_key_canonicalKey, Hs. }
  assert (Hc : canonicalKey (PH.sno (PH.normalise r)) = canonicalKey (cell r 1)).
  { unfold PH.normalise. cbn [PH.sno].
    destruct (cell r 1) as [|s|x];
      [reflexivity | apply (canonicalKey_trimmed (VStr s)) | reflexivity]. }
  split; [apply s_id_opened|]. split; [exact Hno|]. split; [rewrite Hno; exact Hs|].
  split; [rewrite Hno; exact Hk|]. split; [rewrite Hk; exact Hc|].
  unfold sec, PHRows.opened. destruct (PH.is_header _).
  - apply ph_header_cat.
  - apply ph_simple_cat.
Qed.

(** The sections of the result, one for each row that opens one. *)
Lemma ph_sections_of_rows path now rows res :
  PH.parsePublicHealthXLSX path now rows = Ok res ->
  Forall2
    (fun sec r =>
       PHRows.bare sec = PHRows.opened (PH.normalise r) (PH.s_id sec)
       /\ PHRows.opens (PH.normalise r) = true)
    (PH.r_sections res)
    (List.filter (fun r => PHRows.opens (PH.normalise r)) (drop 2 rows)).
Proof.
  unfold PH.parsePublicHealthXLSX.
  destruct (PH.run PH.init (drop 2 rows)) as [st|] eqn:Hrun; simpl;
    [|discriminate].
  intros [= <-]. cbn [PH.r_sections].
  assert (H0 : Forall2 (fun sec c => PHRows.bare sec = PHRows.opened c (PH.s_id sec))
                 (PH.sections PH.init) []) by constructor.
  pose proof (run_opened (drop 2 rows) PH.init st [] H0 Hrun) as H.
  simpl in H. rewrite filter_map_rows in H.
  apply Forall2_with_right;
    [|apply (Forall_filter_true (fun r => PHRows.opens (PH.normalise r)))].
  revert H. generalize (List.filter (fun r => PHRows.opens (PH.normalise r)) (drop 2 rows)).
  generalize (PH.sections st). clear.
  intros secs l. revert secs. induction l as [|r l IH]; intros secs H; simpl in H.
  - inversion H; subst. constructor.
  - inversion H; subst. constructor; [assumption | apply IH; assumption].
Qed.

End OpenedSections.

(** C5. A row that the rule of the compound items or the rule of the
    section headers takes ([Rows.opens], [PHRows.opens]: the row is not
    skipped and one of the two guards holds) appends one section to the
    output; its [item_no] is the item number of the row and its
    [item_key] the canonical form of that number, which is the
    canonical form of the cell: the text without its white space and
    its dots, in lower case. [snoKey] is that canonical form, absent for
    an absent item number. The sections of the output of either parser
    are, in the order of the sheet, those of the rows that open one,
    each with the number of its row and the canonical key of it. *)
Theorem C5_item_key_canonical :
  (forall sno : JS.value, Mongo.snoKey sno = Spec.canonicalKey sno) /\
  Mongo.snoKey JS.VNull = None /\
  (forall (st : Mongo.State) (r : JS.row),
     Rows.opens (Mongo.normalise r) = true ->
     exists st' sec,
       Mongo.step st r = JS.Ok st' /\
       Mongo.sections st' = (Mongo.sections st ++ [sec])%list /\
       Mongo.item_no sec = Mongo.sno (Mongo.normalise r) /\
       Mongo.item_no sec <> JS.VNull /\
       Mongo.item_key sec = Spec.canonicalKey (Mongo.item_no sec) /\
       Mongo.item_key sec = Spec.canonicalKey (JS.cell r 1)) /\
  (forall (rows : list JS.row) (secs : list Mongo.Section),
     Mongo.parseExcel rows = JS.Ok secs ->
     Forall2
       (fun sec r =>
          Mongo.item_no sec = Mongo.sno (Mongo.normalise r) /\
          Mongo.item_key sec = Spec.canonicalKey (Mongo.item_no sec) /\
          Mongo.item_key sec = Spec.canonicalKey (JS.cell r 1))
       secs
       (List.filter (fun r => Rows.opens (Mongo.normalise r)) (drop 2 rows))) /\
  (forall (st : PH.State) (r : JS.row),
     PHRows.opens (PH.normalise r) = true ->
     exists st' sec,
       PH.step st r = JS.Ok st' /\
       PH.sections st' = (PH.sections st ++ [sec])%list /\
       PH.item_no sec = PH.sno (PH.normalise r) /\
       PH.item_no sec <> JS.VNull /\
       Some (PH.item_key sec) = Spec.canonicalKey (PH.item_no sec) /\
       Some (PH.item_key sec) = Spec.canonicalKey (JS.cell r 1)) /\
  (forall (path now : string) (rows : list JS.row) (res : PH.Result),
     PH.parsePublicHealthXLSX path now rows = JS.Ok res ->
     Forall2
       (fun sec r =>
          PH.item_no sec = PH.sno (PH.normalise r) /\
          Some (PH.item_key sec) = Spec.canonicalKey (PH.item_no sec) /\
          Some (PH.item_key sec) = Spec.canonicalKey (JS.cell r 1))
       (PH.r_sections res)
       (List.filter (fun r => PHRows.opens (PH.normalise r)) (drop 2 rows))).
Proof.
  split; [exact snoKey_canonicalKey|]. split; [reflexivity|].
  split; [|split; [|split]].
  - intros st r Ho.
    destruct (mongo_opened_of_row r Ho) as (H1 & H2 & H3 & H4 & _).
    exists (Mongo.open_section st (Rows.opened (Mongo.normalise r))),
      (Rows.opened (Mongo.normalise r)).
    split; [apply mongo_step_opens, Ho|]. split; [reflexivity|].
    split; [exact H1|]. split; [exact H2|]. split; [exact H3 | exact H4].
  - intros rows secs Hparse.
    apply (Forall2_impl _ _ _ _ (mongo_sections_of_rows rows secs Hparse)).
    intros sec r [Hb Ho].
    destruct (mongo_opened_of_row r Ho) as (H1 & _ & H3 & H4 & _).
    rewrite <- Hb in H1, H3, H4.
    split; [exact H1|]. split; [exact H3 | exact H4].
  - intros st r Ho.
    destruct (ph_opened_of_row r (S (PH.sectionIdCounter st)) Ho)
      as (_ & H1 & H2 & H3 & H4 & _).
    exists (PH.open_section st (PHRows.opened (PH.normalise r))),
      (PHRows.opened (PH.normalise r) (S (PH.sectionIdCounter st))).
    split; [apply ph_step_opens, Ho|]. split; [reflexivity|].
    split; [exact H1|]. split; [exact H2|]. split; [exact H3 | exact H4].
  - intros path now rows res Hparse.
    apply (Forall2_impl _ _ _ _ (ph_sections_of_rows path now rows res Hparse)).
    intros sec r [Hb Ho].
    destruct (ph_opened_of_row r (PH.s_id sec) Ho) as (_ & H1 & _ & H3 & H4 & _).
    rewrite <- Hb in H1, H3, H4.
    split; [exact H1|]. split; [exact H3 | exact H4].
Qed.

Lemma C5_witness :
  exists st' sec,
    Mongo.step Mongo.init [JS.VNull; JS.VStr " 18 A. "; JS.VStr "AIR VALVES"]
    = JS.Ok st' /\
    Mongo.sections st' = [sec] /\
    Mongo.item_no sec = JS.VStr "18 A." /\
    Mongo.item_key sec = Some "18a".
Proof.
  destruct (proj1 (proj2 (proj2 C5_item_key_canonical)) Mongo.init
              [JS.VNull; JS.VStr " 18 A. "; JS.VStr "AIR VALVES"] eq_refl)
    as (st' & sec & H1 & H2 & H3 & _ & _ & H4).
  exists st', sec. split; [exact H1|]. split; [exact H2|].
  split; [exact H3 | exact H4].
Defined.

(** C8. A row that opens a section appends one section to the output,
    and that section has a category: the name the table has for the
    canonical key of the item number of the row, else the name it has
    for the item number as a string, else ["General"]; never absent and
    never empty. So has every section of the output of either parser,
    each for the row that opened it. *)
Theorem C8_category_never_absent :
  (forall (st : Mongo.State) (r : JS.row),
     Rows.opens (Mongo.normalise r) = true ->
     exists st' sec k c,
       Mongo.step st r = JS.Ok st' /\
       Mongo.sections st' = (Mongo.sections st ++ [sec])%list /\
       Spec.canonicalKey (JS.cell r 1) = Some k /\
       Mongo.category sec = Some c /\ c <> EmptyString /\
       c = Spec.resolve Mongo.CATEGORY_MAP k
             (JS.to_string (Mongo.sno (Mongo.normalise r)))) /\
  (forall (rows : list JS.row) (secs : list Mongo.Section),
     Mongo.parseExcel rows = JS.Ok secs ->
     Forall2
       (fun sec r =>
          exists k c,
            Spec.canonicalKey (JS.cell r 1) = Some k /\
            Mongo.category sec = Some c /\ c <> EmptyString /\
            c = Spec.resolve Mongo.CATEGORY_MAP k
                  (JS.to_string (Mongo.sno (Mongo.normalise r))))
       secs
       (List.filter (fun r => Rows.opens (Mongo.normalise r)) (drop 2 rows))) /\
  (forall (st : PH.State) (r : JS.row),
     PHRows.opens (PH.normalise r) = true ->
     exists st' sec k c,
       PH.step st r = JS.Ok st' /\
       PH.sections st' = (PH.sections st ++ [sec])%list /\
       Spec.canonicalKey (JS.cell r 1) = Some k /\
       PH.category sec = Some c /\ c <> EmptyString /\
       c = Spec.resolve PH.SECTION_CATEGORIES k
             (JS.to_string (PH.sno (PH.normalise r)))) /\
  (forall (path now : string) (rows : list JS.row) (res : PH.Result),
     PH.parsePublicHealthXLSX path now rows = JS.Ok res ->
     Forall2
       (fun sec r =>
          exists k c,
            Spec.canonicalKey (JS.cell r 1) = Some k /\
            PH.category sec = Some c /\ c <> EmptyString /\
            c = Spec.resolve PH.SECTION_CATEGORIES k
                  (JS.to_string (PH.sno (PH.normalise r))))
       (PH.r_sections res)
       (List.filter (fun r => PHRows.opens (PH.normalise r)) (drop 2 rows))).
Proof.
  split; [|split; [|split]].
  - intros st r Ho.
    destruct (mongo_opened_of_row r Ho) as (_ & _ & _ & _ & k & Hk & Hc).
    exists (Mongo.open_section st (Rows.opened (Mongo.normalise r))),
      (Rows.opened (Mongo.normalise r)), k. eexists.
    split; [apply mongo_step_opens, Ho|]. split; [reflexivity|].
    split; [exact Hk|]. split; [exact Hc|]. split; [|reflexivity].
    apply resolve_nonempty, CATEGORY_MAP_values.
  - intros rows secs Hparse.
    apply (Forall2_impl _ _ _ _ (mongo_sections_of_rows rows secs Hparse)).
    intros sec r [Hb Ho].
    destruct (mongo_opened_of_row r Ho) as (_ & _ & _ & _ & k & Hk & Hc).
    rewrite <- Hb in Hc.
    exists k. eexists. split; [exact Hk|]. split; [exact Hc|].
    split; [|reflexivity]. apply resolve_nonempty, CATEGORY_MAP_values.
  - intros st r Ho.
    destruct (ph_opened_of_row r (S (PH.sectionIdCounter st)) Ho)
      as (_ & _ & _ & _ & Hk & Hc).
    exists (PH.open_section st (PHRows.opened (PH.normalise r))),
      (PHRows.opened (PH.normalise r) (S (PH.sectionIdCounter st))).
    eexists. eexists.
    split; [apply ph_step_opens, Ho|]. split; [reflexivity|].
    split; [symmetry; exact Hk|]. split; [exact Hc|]. split; [|reflexivity].
    apply resolve_nonempty, SECTION_CATEGORIES_values.
  - intros path now rows res Hparse.
    apply (Forall2_impl _ _ _ _ (ph_sections_of_rows path now rows res Hparse)).
    intros sec r [Hb Ho].
    destruct (ph_opened_of_row r (PH.s_id sec) Ho) as (_ & _ & _ & _ & Hk & Hc).
    rewrite <- Hb in Hk, Hc.
    eexists. eexists. split; [symmetry; exact Hk|]. split; [exact Hc|].
    split; [|reflexivity]. apply resolve_nonempty, SECTION_CATEGORIES_values.
Qed.

Lemma C8_witness :
  exists st' sec,
    PH.step PH.init [JS.VNull; JS.VStr "11. a."; JS.VStr "RCC PIPES"]
    = JS.Ok st' /\
    PH.sections st' = [sec] /\
    PH.category sec = Some "RCC Pipe Laying".
Proof.
  destruct (proj1 (proj2 (proj2 C8_category_never_absent)) PH.init
              [JS.VNull; JS.VStr "11. a."; JS.VStr "RCC PIPES"] eq_refl)
    as (st' & sec & k & c & H1 & H2 & Hk & Hc & _ & Hr).
  exists st', sec. split; [exact H1|]. split; [exact H2|].
  rewrite Hc, Hr. injection Hk as <-. reflexivity.
Defined.

(* ================================================================== *)
(** * The items and the rows that add them *)
(* ================================================================== *)

Section MongoPushes.
Import JS Mongo Rows Meta.

(** [target.push(it)] with a section open: the array the cursors name
    gets [it] at its end, and the tree has one item more. *)
Lemma push_item_effect st it :
  wf st -> not_null (currentSection st) = true ->
  exists l st',
    target st = Ok l /\ push_item st it = Ok st'
    /\ target st' = Ok (l ++ [it])%list
    /\ currentSection st' = currentSection st
    /\ currentSubSection st' = currentSubSection st
    /\ wf st'
    /\ total_items (sections st') = S (total_items (sections st)).
Proof.
  intros Hwf Hc.
  destruct (target_ok st Hwf Hc) as [l Ht].
  destruct (set_target_ok st (l ++ [it]) Hwf Hc) as (st' & Hset & Hwf' & Ht' & Hcs & Hcss).
  assert (Hp : push_item st it = Ok st').
  { unfold push_item. rewrite Ht. exact Hset. }
  exists l, st'. split; [exact Ht|]. split; [exact Hp|]. split; [exact Ht'|].
  split; [exact Hcs|]. split; [exact Hcss|]. split; [exact Hwf'|].
  rewrite !total_items_sum.
  apply push_item_shape in Hp
    as (i & sec & _ & Hsec & _ & _ & [(_ & Hsecs)|(j & ss & _ & Hss & Hsecs)]);
    rewrite Hsecs.
  - pose proof (list_sum_insert items_in (sections st) i sec
      (with_items sec (s_items sec ++ [it])) Hsec) as H1.
    rewrite items_in_push in H1. lia.
  - pose proof (list_sum_insert items_in (sections st) i sec
      (with_sub_sections sec
         (<[j := with_ss_items ss (ss_items ss ++ [it])]> (sub_sections sec)))
      Hsec) as H1.
    rewrite (items_in_push_sub sec j ss it Hss) in H1. lia.
Qed.

(** A row that comes to the rate-only rule has a rate, and the rule
    pushes. *)
Lemma reaches_rate_only_step st r :
  all_rated st -> reaches_rate_only st (normalise r) = true ->
  not_null (currentSection st) = true
  /\ c_rate (normalise r) <> VNull
  /\ step st r
     = push_item st
         (buildRateItem (desc (normalise r)) None (c_rate (normalise r))).
Proof.
  intros Hall. unfold reaches_rate_only, step.
  generalize (normalise r). intros c. cbv zeta.
  destruct (is_blank c); [discriminate|].
  destruct (is_compound c); [discriminate|].
  destruct (is_header c); [discriminate|].
  destruct (is_sub st c); [discriminate|].
  destruct (is_auto_sub st c); [discriminate|].
  destruct (is_rate_item st c); [discriminate|].
  destruct (is_rate_only st c) eqn:E; [|discriminate].
  intros _. unfold is_rate_only in E.
  destruct (not_null (currentSection st)); [|discriminate].
  split; [reflexivity|]. split; [|apply rate_only_pushes, Hall].
  intros Hr. rewrite Hr in E. discriminate.
Qed.

(** Inside a section, a row of the two rules for rates pushes one item
    with the rate of the row. *)
Lemma step_adds_item st r :
  all_rated st -> wf st -> not_null (currentSection st) = true ->
  adds_item (normalise r) = true ->
  exists u l st',
    target st = Ok l /\ step st r = Ok st'
    /\ target st'
       = Ok (l ++ [buildRateItem (desc (normalise r)) u (c_rate (normalise r))])%list
    /\ c_rate (normalise r) <> VNull
    /\ currentSection st' = currentSection st
    /\ currentSubSection st' = currentSubSection st
    /\ total_items (sections st') = S (total_items (sections st)).
Proof.
  intros Hall Hwf Hc Ha.
  destruct (step_ok st r Hwf) as (st' & Hstep & _).
  destruct (step_cases st r st' Hall Hstep)
    as [(Ho & _)|[(_ & _ & [Hn|(_ & Hf)])|[(_ & _ & Hf & _)
       |(_ & _ & _ & Hr & u & Hp)]]].
  - rewrite (proj1 (opens_not_others _ Ho)) in Ha. discriminate.
  - rewrite Hn in Hc. discriminate.
  - rewrite Hf in Ha. discriminate.
  - rewrite Hf in Ha. discriminate.
  - destruct (push_item_effect st
                (buildRateItem (desc (normalise r)) u (c_rate (normalise r)))
                Hwf Hc) as (l & st1 & Ht & Hp1 & Ht1 & Hcs & Hcss & _ & Hn).
    rewrite Hp in Hp1. injection Hp1 as <-.
    exists u, l, st'. repeat (split; [assumption|]). exact Hn.
Qed.

Lemma run_wf rows st : run init rows = Ok st -> wf st.
Proof.
  intros Hrun. destruct (run_ok rows init wf_init) as (st' & Hrun' & Hwf).
  rewrite Hrun in Hrun'. injection Hrun' as <-. exact Hwf.
Qed.

End MongoPushes.

(** C9. In [parseExcel] every item is created with a rate, so every item
    of a state the loop reaches has one, and the items are as many as
    the rows that came to one of the two rules for rates; line 219,
    which assigns the rate of the last item, never runs; a row that
    comes to the rate-only rule pushes a new item at the end of the
    array the cursors name, with the rate of the row, which is not
    null, and no unit; and a step leaves every item there was in place,
    as it was. *)
Theorem C9_backfill_unreachable (rows : list JS.row) (st : Mongo.State) :
  Mongo.run Mongo.init rows = JS.Ok st ->
  Mongo.all_rated st /\
  Meta.total_items (Mongo.sections st)
  = length (List.filter Rows.adds_item
              (Rows.from_first Rows.opens (map Mongo.normalise rows))) /\
  forall r : JS.row,
    Mongo.backfills st r = false /\
    (Mongo.reaches_rate_only st (Mongo.normalise r) = true ->
       exists l st',
         Mongo.target st = JS.Ok l /\
         Mongo.step st r = JS.Ok st' /\
         Mongo.target st'
         = JS.Ok (l ++ [Mongo.buildRateItem (Mongo.desc (Mongo.normalise r))
                          None (Mongo.parseRate (JS.cell r 4))])%list /\
         Mongo.rate (Mongo.buildRateItem (Mongo.desc (Mongo.normalise r))
                       None (Mongo.parseRate (JS.cell r 4)))
         = Mongo.parseRate (JS.cell r 4) /\
         Mongo.unit (Mongo.buildRateItem (Mongo.desc (Mongo.normalise r))
                       None (Mongo.parseRate (JS.cell r 4))) = None /\
         Mongo.parseRate (JS.cell r 4) <> JS.VNull /\
         Mongo.currentSection st' = Mongo.currentSection st /\
         Mongo.currentSubSection st' = Mongo.currentSubSection st /\
         Meta.total_items (Mongo.sections st')
         = S (Meta.total_items (Mongo.sections st))) /\
    (Rows.adds_item (Mongo.normalise r) = true ->
     Mongo.currentSection st <> None ->
       exists u l st',
         Mongo.target st = JS.Ok l /\
         Mongo.step st r = JS.Ok st' /\
         Mongo.target st'
         = JS.Ok (l ++ [Mongo.buildRateItem (Mongo.desc (Mongo.normalise r))
                          u (Mongo.parseRate (JS.cell r 4))])%list /\
         Mongo.parseRate (JS.cell r 4) <> JS.VNull /\
         Meta.total_items (Mongo.sections st')
         = S (Meta.total_items (Mongo.sections st))) /\
    (forall st', Mongo.step st r = JS.Ok st' ->
       Mongo.items_kept st st' /\ Mongo.all_rated st').
Proof.
  intros Hrun. pose proof (run_rated rows st Hrun) as Hall.
  pose proof (run_wf rows st Hrun) as Hwf.
  split; [exact Hall|].
  split; [exact (proj1 (run_counts_init rows st Hrun))|].
  intros r. split; [|split; [|split]].
  - unfold Mongo.backfills.
    destruct (Mongo.reaches_rate_only _ _); [|reflexivity]. simpl.
    destruct (Mongo.target st) as [l|] eqn:Ht; [|reflexivity].
    destruct (l !! (length l - 1)%nat) as [it|] eqn:Hit;
      [|rewrite andb_false_r; reflexivity].
    pose proof (proj1 (Forall_lookup _ _) (target_rated st l Hall Ht) _ _ Hit) as Hr.
    unfold Mongo.rated in Hr.
    destruct (Mongo.rate it); [contradiction | |]; rewrite andb_false_r; reflexivity.
  - intros Hreach.
    destruct (reaches_rate_only_step st r Hall Hreach) as (Hc & Hr & Hstep).
    destruct (push_item_effect st
                (Mongo.buildRateItem (Mongo.desc (Mongo.normalise r)) None
                   (Mongo.c_rate (Mongo.normalise r))) Hwf Hc)
      as (l & st' & Ht & Hp & Ht' & Hcs & Hcss & _ & Hn).
    exists l, st'. split; [exact Ht|]. split; [rewrite Hstep; exact Hp|].
    split; [exact Ht'|]. split; [reflexivity|]. split; [reflexivity|].
    split; [exact Hr|]. split; [exact Hcs|]. split; [exact Hcss | exact Hn].
  - intros Ha Hc.
    assert (Hc' : JS.not_null (Mongo.currentSection st) = true).
    { destruct (Mongo.currentSection st); [reflexivity | contradiction]. }
    destruct (step_adds_item st r Hall Hwf Hc' Ha)
      as (u & l & st' & Ht & Hstep & Ht' & Hr & _ & _ & Hn).
    exists u, l, st'. split; [exact Ht|]. split; [exact Hstep|].
    split; [exact Ht'|]. split; [exact Hr | exact Hn].
  - intros st' Hst. destruct (step_rated st r st' Hall Hst). split; assumption.
Qed.

Lemma C9_witness :
  exists st l st',
    Mongo.run Mongo.init
      [[JS.VNull; JS.VNum (JS.of_Z 33); JS.VStr "CENTERING"];
       [JS.VNull; JS.VNull; JS.VStr "80 mm"; JS.VStr "rm"; JS.VNum (JS.of_Z 120)]]
    = JS.Ok st /\ Mongo.all_rated st /\
    Meta.total_items (Mongo.sections st) = 1 /\
    Mongo.target st = JS.Ok l /\
    Mongo.step st [JS.VNull; JS.VNull; JS.VNull; JS.VNull; JS.VStr "245.50"]
    = JS.Ok st' /\
    Mongo.target st'
    = JS.Ok (l ++ [{| Mongo.dimension := None; Mongo.unit := None;
                      Mongo.rate := JS.VNum (JS.Fin false 2455 1);
                      Mongo.rate_type := "numeric" |}])%list /\
    Meta.total_items (Mongo.sections st') = 2.
Proof.
  edestruct (C9_backfill_unreachable
      [[JS.VNull; JS.VNum (JS.of_Z 33); JS.VStr "CENTERING"];
       [JS.VNull; JS.VNull; JS.VStr "80 mm"; JS.VStr "rm"; JS.VNum (JS.of_Z 120)]])
    as (Hall & Hn & Hr); [vm_compute; reflexivity|].
  destruct (Hr [JS.VNull; JS.VNull; JS.VNull; JS.VNull; JS.VStr "245.50"])
    as (_ & Hpush & _).
  destruct (Hpush eq_refl) as (l & st' & Ht & Hs & Ht' & _ & _ & _ & _ & _ & Hn').
  eexists. exists l, st'. split; [vm_compute; reflexivity|]. split; [exact Hall|].
  split; [exact Hn|]. split; [exact Ht|]. split; [exact Hs|].
  split; [exact Ht'|]. rewrite Hn', Hn. reflexivity.
Defined.

(* ================================================================== *)
(** * A rate, once in the tree, stays *)
(* ================================================================== *)

Section MongoKept.
Import JS Mongo Rows.

Lemma items_kept_trans st1 st2 st3 :
  items_kept st1 st2 -> items_kept st2 st3 -> items_kept st1 st3.
Proof.
  intros H12 H23 i sec Hs.
  destruct (H12 i sec Hs) as (sec2 & Hs2 & Hp2 & Hsub2).
  destruct (H23 i sec2 Hs2) as (sec3 & Hs3 & Hp3 & Hsub3).
  exists sec3. split; [exact Hs3|]. split; [etransitivity; eassumption|].
  intros j ss Hss.
  destruct (Hsub2 j ss Hss) as (ss2 & Hss2 & Hq2).
  destruct (Hsub3 j ss2 Hss2) as (ss3 & Hss3 & Hq3).
  exists ss3. split; [exact Hss3 | etransitivity; eassumption].
Qed.

Lemma run_items_kept rows : forall st st',
  all_rated st -> run st rows = Ok st' -> items_kept st st'.
Proof.
  induction rows as [|r rows IH]; intros st st' Hall; simpl.
  - intros [= <-]. apply items_kept_refl.
  - destruct (step st r) as [st1|] eqn:E; simpl; [|discriminate].
    intros Hrun. destruct (step_rated st r st1 Hall E) as [Hall1 Hk].
    exact (items_kept_trans _ _ _ Hk (IH st1 st' Hall1 Hrun)).
Qed.

Lemma elem_items_of sec it :
  it ∈ items_of sec
  <-> it ∈ s_items sec
      \/ exists j ss, sub_sections sec !! j = Some ss /\ it ∈ ss_items ss.
Proof.
  unfold items_of. rewrite elem_of_app, !list_elem_of_In, in_concat.
  split; (intros [H|H]; [left; exact H | right]).
  - destruct H as (l & Hl & Hit). apply in_map_iff in Hl as (ss & <- & Hss).
    apply list_elem_of_In, list_elem_of_lookup in Hss as [j Hj].
    exists j, ss. split; [exact Hj | apply list_elem_of_In, Hit].
  - destruct H as (j & ss & Hj & Hit). exists (ss_items ss).
    split; [|apply list_elem_of_In, Hit].
    apply in_map, list_elem_of_In. eapply list_elem_of_lookup_2, Hj.
Qed.

Lemma elem_all_items secs it :
  it ∈ all_items secs
  <-> exists i sec, secs !! i = Some sec /\ it ∈ items_of sec.
Proof.
  unfold all_items. rewrite list_elem_of_In, in_concat. split.
  - intros (l & Hl & Hit). apply in_map_iff in Hl as (sec & <- & Hsec).
    apply list_elem_of_In, list_elem_of_lookup in Hsec as [i Hi].
    exists i, sec. split; [exact Hi | apply list_elem_of_In, Hit].
  - intros (i & sec & Hi & Hit). exists (items_of sec).
    split; [|apply list_elem_of_In, Hit].
    apply in_map, list_elem_of_In. eapply list_elem_of_lookup_2, Hi.
Qed.

(** What is in the array the cursors name is in the tree. *)
Lemma target_elem st l it :
  target st = Ok l -> it ∈ l -> it ∈ all_items (sections st).
Proof.
  destruct st as [secs [i|] cs];
    unfold target, the_sub_section, the_section; simpl;
    [|destruct cs; discriminate].
  destruct (secs !! i) as [sec|] eqn:Hs; simpl; [|destruct cs; discriminate].
  intros Ht Hit. apply elem_all_items. exists i, sec. split; [exact Hs|].
  apply elem_items_of. destruct cs as [j|]; simpl in Ht.
  - destruct (sub_sections sec !! j) as [ss|] eqn:Hss; simpl in Ht; [|discriminate].
    injection Ht as <-. right. exists j, ss. split; [exact Hss | exact Hit].
  - injection Ht as <-. left. exact Hit.
Qed.

Lemma prefix_elem {A : Type} (l l' : list A) x : l `prefix_of` l' -> x ∈ l -> x ∈ l'.
Proof. intros [k ->] H. apply elem_of_app. left. exact H. Qed.

(** An item of the tree is in every tree that keeps the items. *)
Lemma items_kept_elem st st' it :
  items_kept st st' ->
  it ∈ all_items (sections st) -> it ∈ all_items (sections st').
Proof.
  intros Hk Hit. apply elem_all_items in Hit as (i & sec & Hi & Hit).
  destruct (Hk i sec Hi) as (sec' & Hi' & Hp & Hsub).
  apply elem_all_items. exists i, sec'. split; [exact Hi'|].
  apply elem_items_of. apply elem_items_of in Hit as [Hit|(j & ss & Hj & Hit)].
  - left. exact (prefix_elem _ _ _ Hp Hit).
  - right. destruct (Hsub j ss Hj) as (ss' & Hj' & Hq).
    exists j, ss'. split; [exact Hj' | exact (prefix_elem _ _ _ Hq Hit)].
Qed.

(** A section stays at its place, with what it was opened with. *)
Lemma bare_kept_of_maps (l : list Section) : forall l' X i sec,
  map bare l' = (map bare l ++ X)%list -> l !! i = Some sec ->
  exists sec', l' !! i = Some sec' /\ bare sec' = bare sec.
Proof.
  induction l as [|x l IH]; intros [|x' l'] X [|i] sec; simpl; try discriminate.
  - intros H [= <-]. exists x'. split; [reflexivity|].
    exact (f_equal (fun k => match k with y :: _ => y | [] => bare x end) H).
  - intros H Hi. exact (IH l' X i sec (f_equal (@tail _) H) Hi).
Qed.

Lemma run_section_kept rows st st' i sec :
  all_rated st -> run st rows = Ok st' -> sections st !! i = Some sec ->
  exists sec', sections st' !! i = Some sec' /\ bare sec' = bare sec.
Proof.
  intros Hall Hrun Hi.
  exact (bare_kept_of_maps _ _ _ i sec (run_bare rows st st' Hall Hrun) Hi).
Qed.

(** The rate of a row whose cell is a text that is no number. *)
Lemma mongo_rate_of_text r s :
  cell r 4 = VStr s -> trim s <> EmptyString ->
  isNaN (parseFloat (trim s)) = true ->
  c_rate (normalise r) = VStr (trim s).
Proof.
  intros Hc Hne Hnan. unfold normalise. cbn [c_rate]. rewrite Hc.
  apply mongo_parseRate_text; assumption.
Qed.

End MongoKept.

Section PHKept.
Import JS PH PHRows.

Lemma keeps_refl l : keeps l l.
Proof. intros k it H _. exact H. Qed.

Lemma keeps_trans l1 l2 l3 : keeps l1 l2 -> keeps l2 l3 -> keeps l1 l3.
Proof. intros H12 H23 k it H Ht. exact (H23 k it (H12 k it H Ht) Ht). Qed.

Lemma keeps_app l x : keeps l (l ++ x).
Proof. intros k it H _. apply lookup_app_l_Some. exact H. Qed.

(** Line 251 changes an item whose rate is falsy, and no other. *)
Lemma keeps_overwrite l k0 it0 it' :
  l !! k0 = Some it0 -> truthy (rate it0) = false ->
  keeps l (<[k0 := it']> l).
Proof.
  intros H0 Hf k it H Ht. destruct (decide (k0 = k)) as [<-|Hne].
  - rewrite H0 in H. injection H as <-. rewrite Hf in Ht. discriminate.
  - rewrite list_lookup_insert_ne by assumption. exact H.
Qed.

Lemma rates_kept_refl st : rates_kept st st.
Proof.
  intros i sec H. exists sec. split; [exact H|]. split; [reflexivity|].
  split; [apply keeps_refl|]. intros j ss Hj. exists ss.
  split; [exact Hj | apply keeps_refl].
Qed.

Lemma rates_kept_trans st1 st2 st3 :
  rates_kept st1 st2 -> rates_kept st2 st3 -> rates_kept st1 st3.
Proof.
  intros H12 H23 i sec Hs.
  destruct (H12 i sec Hs) as (sec2 & Hs2 & Hb2 & Hp2 & Hsub2).
  destruct (H23 i sec2 Hs2) as (sec3 & Hs3 & Hb3 & Hp3 & Hsub3).
  exists sec3. split; [exact Hs3|]. split; [rewrite Hb3; exact Hb2|].
  split; [exact (keeps_trans _ _ _ Hp2 Hp3)|].
  intros j ss Hss.
  destruct (Hsub2 j ss Hss) as (ss2 & Hss2 & Hq2).
  destruct (Hsub3 j ss2 Hss2) as (ss3 & Hss3 & Hq3).
  exists ss3. split; [exact Hss3 | exact (keeps_trans _ _ _ Hq2 Hq3)].
Qed.

Lemma rates_kept_open_section st mk : rates_kept st (open_section st mk).
Proof.
  intros i sec H. exists sec. split; [apply lookup_app_l_Some; exact H|].
  split; [reflexivity|]. split; [apply keeps_refl|].
  intros j ss Hj. exists ss. split; [exact Hj | apply keeps_refl].
Qed.

Lemma rates_kept_insert st st' i sec sec' :
  sections st !! i = Some sec ->
  sections st' = <[i := sec']> (sections st) ->
  bare sec' = bare sec ->
  keeps (s_items sec) (s_items sec') ->
  (forall j ss, sub_sections sec !! j = Some ss ->
     exists ss', sub_sections sec' !! j = Some ss' /\
       keeps (ss_items ss) (ss_items ss')) ->
  rates_kept st st'.
Proof.
  intros Hs Heq Hb Hit Hsub k s Hk. rewrite Heq.
  destruct (decide (i = k)) as [<-|Hne].
  - rewrite Hs in Hk. injection Hk as <-. exists sec'.
    split; [|split; [exact Hb | split; assumption]].
    apply list_lookup_insert_eq. eapply lookup_lt_Some; eassumption.
  - exists s. rewrite list_lookup_insert_ne by assumption.
    split; [exact Hk|]. split; [reflexivity|]. split; [apply keeps_refl|].
    intros j ss Hj. exists ss. split; [exact Hj | apply keeps_refl].
Qed.

Lemma subs_kept_refl (l : list SubSection) :
  forall j ss, l !! j = Some ss ->
    exists ss', l !! j = Some ss' /\ keeps (ss_items ss) (ss_items ss').
Proof. intros j ss Hj. exists ss. split; [exact Hj | apply keeps_refl]. Qed.

Lemma rates_kept_open_sub st ss st' :
  open_sub_section st ss = Ok st' -> rates_kept st st'.
Proof.
  intros H. apply ph_open_sub_shape in H as (i & sec & Hi & Hs & ->).
  eapply rates_kept_insert;
    [exact Hs | reflexivity | reflexivity | apply keeps_refl|].
  cbn [with_sub_sections sub_sections]. intros j s Hj. exists s.
  split; [apply lookup_app_l_Some; exact Hj | apply keeps_refl].
Qed.

Lemma rates_kept_push_item st it st' :
  push_item st it = Ok st' -> rates_kept st st'.
Proof.
  destruct st as [secs [i|] cs n m];
    unfold push_item, the_section, set_section; simpl; [|discriminate].
  destruct (secs !! i) as [sec|] eqn:Hs; simpl; [|discriminate].
  destruct cs as [j|]; simpl.
  - destruct (sub_sections sec !! j) as [ss|] eqn:Hss; simpl; [|discriminate].
    intros [= <-].
    eapply rates_kept_insert;
      [exact Hs | reflexivity | reflexivity | apply keeps_refl|].
    cbn [with_sub_sections sub_sections]. intros k s Hk.
    destruct (decide (j = k)) as [<-|Hne].
    + rewrite Hss in Hk. injection Hk as <-.
      exists (with_ss_items ss (ss_items ss ++ [it])).
      split; [|apply keeps_app].
      apply list_lookup_insert_eq. eapply lookup_lt_Some; eassumption.
    + exists s. split; [|apply keeps_refl].
      rewrite list_lookup_insert_ne by assumption. exact Hk.
  - intros [= <-].
    eapply rates_kept_insert;
      [exact Hs | reflexivity | reflexivity | apply keeps_app
      | apply subs_kept_refl].
Qed.

(** A row changes no section, no sub-section and no item whose rate is
    not falsy. *)
Lemma ph_step_rates_kept st r st' : step st r = Ok st' -> rates_kept st st'.
Proof.
  unfold step. generalize (normalise r). intros c. cbv zeta.
  destruct (is_blank c); [intros [= <-]; apply rates_kept_refl|].
  destruct (is_note c); [intros [= <-]; apply rates_kept_refl|].
  destruct (is_continuation c); [intros [= <-]; apply rates_kept_refl|].
  destruct (is_header c); [intros [= <-]; apply rates_kept_open_section|].
  destruct (is_sub st c); [apply rates_kept_open_sub|].
  destruct (is_simple_item c); [intros [= <-]; apply rates_kept_open_section|].
  destruct (is_rate_item st c).
  { destruct (the_section (next_item st)) as [sec|]; simpl; [|discriminate].
    destruct (c_unit c) as [u|]; simpl; [|discriminate].
    intros H. exact (rates_kept_push_item (next_item st) _ st' H). }
  destruct (is_rate_only st c).
  { destruct (the_section st) as [sec|] eqn:Hsec; simpl; [|discriminate].
    apply ph_the_section_inv in Hsec as (i & Hi & Hs).
    destruct (s_items sec !! (length (s_items sec) - 1)%nat) as [it|] eqn:Hit.
    - destruct (negb (truthy (rate it))) eqn:Hf.
      + unfold set_section. rewrite Hi. simpl. intros [= <-].
        eapply rates_kept_insert;
          [exact Hs | reflexivity | reflexivity | | apply subs_kept_refl].
        cbn [with_items s_items].
        apply (keeps_overwrite _ _ it); [exact Hit|].
        destruct (truthy (rate it)); [discriminate | reflexivity].
      + unfold set_section. cbn [next_item currentSection]. rewrite Hi. simpl.
        intros [= <-].
        eapply rates_kept_insert;
          [exact Hs | reflexivity | reflexivity | apply keeps_app
          | apply subs_kept_refl].
    - unfold set_section. cbn [next_item currentSection]. rewrite Hi. simpl.
      intros [= <-].
      eapply rates_kept_insert;
        [exact Hs | reflexivity | reflexivity | apply keeps_app
        | apply subs_kept_refl]. }
  destruct (is_descriptive st c); [|intros [= <-]; apply rates_kept_refl].
  destruct (desc c) as [d|]; simpl; [|discriminate].
  destruct (is_diameter_header d); [intros [= <-]; apply rates_kept_refl|].
  destruct (is_pipes_header d); [|intros [= <-]; apply rates_kept_refl].
  destruct (the_section st); simpl; [apply rates_kept_open_sub | discriminate].
Qed.

Lemma ph_run_rates_kept rows : forall st st',
  run st rows = Ok st' -> rates_kept st st'.
Proof.
  induction rows as [|r rows IH]; intros st st'; simpl.
  - intros [= <-]. apply rates_kept_refl.
  - destruct (step st r) as [st1|] eqn:E; simpl; [|discriminate].
    intros Hrun.
    exact (rates_kept_trans _ _ _ (ph_step_rates_kept st r st1 E) (IH st1 st' Hrun)).
Qed.

Lemma ph_elem_items_of sec it :
  it ∈ items_of sec
  <-> (exists k, s_items sec !! k = Some it)
      \/ exists j ss k, sub_sections sec !! j = Some ss /\ ss_items ss !! k = Some it.
Proof.
  unfold items_of. rewrite elem_of_app, list_elem_of_lookup, list_elem_of_In, in_concat.
  split; (intros [H|H]; [left; exact H | right]).
  - destruct H as (l & Hl & Hit). apply in_map_iff in Hl as (ss & <- & Hss).
    apply list_elem_of_In, list_elem_of_lookup in Hss as [j Hj].
    apply list_elem_of_In, list_elem_of_lookup in Hit as [k Hk].
    exists j, ss, k. split; assumption.
  - destruct H as (j & ss & k & Hj & Hk). exists (ss_items ss).
    split; [|eapply list_elem_of_In, list_elem_of_lookup_2, Hk].
    apply in_map, list_elem_of_In. eapply list_elem_of_lookup_2, Hj.
Qed.

Lemma ph_elem_all_items secs it :
  it ∈ all_items secs
  <-> exists i sec, secs !! i = Some sec /\ it ∈ items_of sec.
Proof.
  unfold all_items. rewrite list_elem_of_In, in_concat. split.
  - intros (l & Hl & Hit). apply in_map_iff in Hl as (sec & <- & Hsec).
    apply list_elem_of_In, list_elem_of_lookup in Hsec as [i Hi].
    exists i, sec. split; [exact Hi | apply list_elem_of_In, Hit].
  - intros (i & sec & Hi & Hit). exists (items_of sec).
    split; [|apply list_elem_of_In, Hit].
    apply in_map, list_elem_of_In. eapply list_elem_of_lookup_2, Hi.
Qed.

(** An item whose rate is not falsy is in every later tree. *)
Lemma rates_kept_elem st st' it :
  rates_kept st st' -> truthy (rate it) = true ->
  it ∈ all_items (sections st) -> it ∈ all_items (sections st').
Proof.
  intros Hk Ht Hit. apply ph_elem_all_items in Hit as (i & sec & Hi & Hit).
  destruct (Hk i sec Hi) as (sec' & Hi' & _ & Hp & Hsub).
  apply ph_elem_all_items. exists i, sec'. split; [exact Hi'|].
  apply ph_elem_items_of.
  apply ph_elem_items_of in Hit as [[k Hit]|(j & ss & k & Hj & Hit)].
  - left. exists k. exact (Hp k it Hit Ht).
  - right. destruct (Hsub j ss Hj) as (ss' & Hj' & Hq).
    exists j, ss', k. split; [exact Hj' | exact (Hq k it Hit Ht)].
Qed.

Lemma all_items_insert secs i sec sec' added :
  secs !! i = Some sec ->
  Permutation (items_of sec') (added ++ items_of sec) ->
  Permutation (all_items (<[i := sec']> secs)) (added ++ all_items secs).
Proof.
  intros Hs Hp. revert i Hs.
  induction secs as [|y l IH]; intros [|i]; simpl; try discriminate.
  - intros [= ->]. rewrite !all_items_cons, Hp, app_assoc. reflexivity.
  - intros Hl. rewrite !all_items_cons, (IH i Hl).
    apply Permutation_app_swap_app.
Qed.

(** The item of a row with a unit and a rate, lines 229-237. *)
Lemma ph_step_rate_item st r st' :
  currentSection st <> None ->
  rate_item_row (normalise r) = true ->
  step st r = Ok st' ->
  exists it,
    Permutation (all_items (sections st')) (it :: all_items (sections st))
    /\ id it = S (itemIdCounter st)
    /\ rate it = c_rate (normalise r)
    /\ rate_type it
       = (if is_number (c_rate (normalise r)) then "numeric" else "formula")
    /\ unit it <> None.
Proof.
  intros Hc. unfold rate_item_row, step, is_sub, is_rate_item.
  generalize (normalise r). intros c. cbv zeta.
  destruct (is_blank c); [discriminate|].
  destruct (is_note c); [discriminate|].
  destruct (is_continuation c); [discriminate|].
  destruct (is_header c); [discriminate|].
  destruct (isSubHeader _ _ _ _); [discriminate|].
  destruct (is_simple_item c); [discriminate|].
  destruct (currentSection st) as [i|] eqn:Hi; [|contradiction].
  cbn [negb andb not_null].
  destruct (truthy_s (c_unit c)); [|discriminate].
  destruct (is_null (c_rate c)); [discriminate|]. intros _.
  cbn [negb andb].
  destruct (the_section (next_item st)) as [sec|] eqn:Hsec; simpl; [|discriminate].
  destruct (c_unit c) as [u|]; simpl; [|discriminate].
  intros H.
  apply ph_push_item_shape in H as (i0 & sec0 & sec' & Hi0 & Hs0 & -> & _ & Hp).
  cbn [next_item currentSection sections itemIdCounter] in *.
  eexists. split.
  { cbn [sections]. exact (all_items_insert _ i0 sec0 sec' [_] Hs0 Hp). }
  cbn [id rate rate_type unit].
  split; [reflexivity|]. split; [reflexivity|]. split; [reflexivity | discriminate].
Qed.

(** The item of a row with a rate and no unit, lines 254-261, when
    line 251 does not run. *)
Lemma ph_step_rate_only_push st r st' :
  currentSection st <> None ->
  rate_only_row (normalise r) = true ->
  overwrites st = false ->
  step st r = Ok st' ->
  exists it,
    Permutation (all_items (sections st')) (it :: all_items (sections st))
    /\ id it = S (itemIdCounter st)
    /\ rate it = c_rate (normalise r)
    /\ rate_type it
       = (if is_number (c_rate (normalise r)) then "numeric" else "formula")
    /\ unit it = None.
Proof.
  intros Hc. unfold rate_only_row, overwrites, step, is_sub, is_rate_item, is_rate_only.
  generalize (normalise r). intros c. cbv zeta.
  destruct (is_blank c); [discriminate|].
  destruct (is_note c); [discriminate|].
  destruct (is_continuation c); [discriminate|].
  destruct (is_header c); [discriminate|].
  destruct (isSubHeader _ _ _ _); [discriminate|].
  destruct (is_simple_item c); [discriminate|].
  destruct (currentSection st) as [i|] eqn:Hi; [|contradiction].
  cbn [negb andb not_null].
  destruct (truthy_s (c_unit c)); [discriminate|].
  destruct (is_null (c_rate c)); [discriminate|]. intros _.
  cbn [negb andb].
  destruct (the_section st) as [sec|] eqn:Hsec; simpl; [|discriminate].
  apply ph_the_section_inv in Hsec as (i0 & Hi0 & Hs).
  rewrite Hi in Hi0. injection Hi0 as <-.
  assert (Hpush : forall st1,
    set_section (next_item st)
      (with_items sec (s_items sec ++ [flat_item c sec (itemIdCounter (next_item st))]))
    = Ok st1 ->
    exists it,
      Permutation (all_items (sections st1)) (it :: all_items (sections st))
      /\ id it = S (itemIdCounter st)
      /\ rate it = c_rate c
      /\ rate_type it = (if is_number (c_rate c) then "numeric" else "formula")
      /\ unit it = None).
  { intros st1. unfold set_section. cbn [next_item currentSection]. rewrite Hi.
    simpl. intros [= <-]. cbn [sections].
    exists (flat_item c sec (S (itemIdCounter st))).
    split; [|repeat split].
    apply (all_items_insert _ i sec _ [flat_item c sec (S (itemIdCounter st))] Hs).
    unfold items_of. cbn [with_items s_items sub_sections].
    rewrite <- app_assoc. simpl. rewrite <- Permutation_middle. reflexivity. }
  destruct (s_items sec !! (length (s_items sec) - 1)%nat) as [it|].
  - intros Hf. rewrite Hf. apply Hpush.
  - intros _. apply Hpush.
Qed.

Lemma ph_run_wf rows st : run init rows = Ok st -> wf st.
Proof.
  intros Hrun. destruct (ph_run_ok rows init ph_wf_init) as (st' & Hrun' & Hwf).
  rewrite Hrun in Hrun'. injection Hrun' as <-. exact Hwf.
Qed.

(** The rate of a row whose cell is a text that is no number and not
    the dash. *)
Lemma ph_rate_of_text r s :
  cell r 4 = VStr s -> trim s <> EmptyString -> trim s <> "-" ->
  isNaN (parseFloat (trim s)) = true ->
  c_rate (normalise r) = VStr (trim s).
Proof.
  intros Hc Hne Hd Hnan. unfold normalise. cbn [c_rate]. rewrite Hc.
  apply ph_parseRate_text; assumption.
Qed.

End PHKept.

(** The clause of C4 on the texts that are not numbers fails for the
    [parseRate] of publichealth.js: the dash is such a text, and it
    yields [null] (line 30). *)
Lemma C4_dash_counterexample :
  JS.trim "-" = "-" /\ "-" <> EmptyString /\ JS.isNaN (JS.parseFloat "-") = true /\
  PH.parseRate (JS.VStr "-") = JS.VNull /\
  ~ (forall s : string,
       JS.trim s <> EmptyString -> JS.isNaN (JS.parseFloat (JS.trim s)) = true ->
       PH.parseRate (JS.VStr s) = JS.VStr (JS.trim s)).
Proof.
  split; [reflexivity|]. split; [discriminate|]. split; [reflexivity|].
  split; [reflexivity|].
  intros H. specialize (H "-" ltac:(discriminate) eq_refl). discriminate H.
Qed.

(** C4, amended. Both [parseRate] return a number as it is; for a text
    whose trimmed form starts with a digit they return the binary64
    number that [parseFloat] reads at its start (["100 approx"] gives
    100); for a text whose trimmed form is not empty and is not read as
    a number they return the trimmed text itself, except that the
    [parseRate] of publichealth.js returns [null] for the dash; [null]
    and texts that are empty once trimmed give [null].

    Such a text stays in the tree. In [parseExcel], a row that comes,
    in a section, to one of the two rules for rates pushes an item with
    the text as rate and the rate type ["formula"], and a row of the
    compound numbers opens a section with them; in
    [parsePublicHealthXLSX], a row that comes to the rule for the rows
    with unit and rate, or to the rule for the rows with a rate and no
    unit when line 251 does not run, adds an item with the text as rate
    and the rate type ["formula"], and a row of the simple items opens
    a section with the text as rate. Whatever rows follow, the item is
    in the tree as it was made, and so is the rate of the section. *)
Theorem C4_parseRate :
  (forall n, Mongo.parseRate (JS.VNum n) = JS.VNum n
             /\ PH.parseRate (JS.VNum n) = JS.VNum n) /\
  (forall s c t,
     JS.trim s = String c t -> JS.is_digit c = true ->
     JS.isNaN (JS.parseFloat (JS.trim s)) = false
     /\ Mongo.parseRate (JS.VStr s) = JS.VNum (JS.parseFloat (JS.trim s))
     /\ PH.parseRate (JS.VStr s) = JS.VNum (JS.parseFloat (JS.trim s))) /\
  (Mongo.parseRate (JS.VStr "100 approx") = JS.VNum (JS.of_Z 100)
   /\ PH.parseRate (JS.VStr "100 approx") = JS.VNum (JS.of_Z 100)
   /\ Mongo.parseRate (JS.VStr "9007199254740993")
      = JS.VNum (JS.of_Z 9007199254740992)
   /\ PH.parseRate (JS.VStr "1e400") = JS.VNum (JS.Inf false)
   /\ PH.parseRate (JS.VStr "0.1e-400") = JS.VNum (JS.of_Z 0)) /\
  (forall s,
     JS.trim s <> EmptyString -> JS.isNaN (JS.parseFloat (JS.trim s)) = true ->
     Mongo.parseRate (JS.VStr s) = JS.VStr (JS.trim s)
     /\ (JS.trim s <> "-" -> PH.parseRate (JS.VStr s) = JS.VStr (JS.trim s))) /\
  (Mongo.parseRate (JS.VStr "-") = JS.VStr "-"
   /\ PH.parseRate (JS.VStr "-") = JS.VNull) /\
  (Mongo.parseRate (JS.VStr "As per Common SSR") = JS.VStr "As per Common SSR"
   /\ PH.parseRate (JS.VStr "As per Common SSR") = JS.VStr "As per Common SSR") /\
  (Mongo.parseRate JS.VNull = JS.VNull /\ PH.parseRate JS.VNull = JS.VNull) /\
  (forall s, JS.trim s = EmptyString ->
     Mongo.parseRate (JS.VStr s) = JS.VNull
     /\ PH.parseRate (JS.VStr s) = JS.VNull) /\
  (* the items of parseExcel *)
  (forall (pre : list JS.row) (st : Mongo.State) (r : JS.row) (s : string),
     Mongo.run Mongo.init pre = JS.Ok st ->
     Mongo.currentSection st <> None ->
     Rows.adds_item (Mongo.normalise r) = true ->
     JS.cell r 4 = JS.VStr s ->
     JS.trim s <> EmptyString -> JS.isNaN (JS.parseFloat (JS.trim s)) = true ->
     exists l st1 it,
       Mongo.target st = JS.Ok l /\
       Mongo.step st r = JS.Ok st1 /\
       Mongo.target st1 = JS.Ok (l ++ [it])%list /\
       Mongo.rate it = JS.VStr (JS.trim s) /\
       Mongo.rate_type it = "formula" /\
       forall (post : list JS.row) (st2 : Mongo.State),
         Mongo.run st1 post = JS.Ok st2 ->
         Mongo.items_kept st1 st2 /\
         it ∈ Rows.all_items (Mongo.sections st2)) /\
  (* the sections of parseExcel *)
  (forall (pre : list JS.row) (st : Mongo.State) (r : JS.row) (s : string),
     Mongo.run Mongo.init pre = JS.Ok st ->
     Rows.opens (Mongo.normalise r) = true ->
     JS.cell r 4 = JS.VStr s ->
     JS.trim s <> EmptyString -> JS.isNaN (JS.parseFloat (JS.trim s)) = true ->
     exists st1 sec,
       Mongo.step st r = JS.Ok st1 /\
       Mongo.sections st1 = (Mongo.sections st ++ [sec])%list /\
       Mongo.s_rate sec = JS.VStr (JS.trim s) /\
       Mongo.s_rate_type sec = Some "formula" /\
       forall (post : list JS.row) (st2 : Mongo.State),
         Mongo.run st1 post = JS.Ok st2 ->
         exists sec2,
           Mongo.sections st2 !! length (Mongo.sections st) = Some sec2 /\
           Mongo.s_rate sec2 = JS.VStr (JS.trim s) /\
           Mongo.s_rate_type sec2 = Some "formula") /\
  (* the items of parsePublicHealthXLSX *)
  (forall (pre : list JS.row) (st : PH.State) (r : JS.row) (s : string),
     PH.run PH.init pre = JS.Ok st ->
     PH.currentSection st <> None ->
     PHRows.rate_item_row (PH.normalise r) = true
     \/ (PHRows.rate_only_row (PH.normalise r) = true
         /\ PHRows.overwrites st = false) ->
     JS.cell r 4 = JS.VStr s ->
     JS.trim s <> EmptyString -> JS.trim s <> "-" ->
     JS.isNaN (JS.parseFloat (JS.trim s)) = true ->
     exists st1 it,
       PH.step st r = JS.Ok st1 /\
       Permutation (PHRows.all_items (PH.sections st1))
         (it :: PHRows.all_items (PH.sections st)) /\
       PH.id it = S (PH.itemIdCounter st) /\
       PH.rate it = JS.VStr (JS.trim s) /\
       PH.rate_type it = "formula" /\
       forall (post : list JS.row) (st2 : PH.State),
         PH.run st1 post = JS.Ok st2 ->
         PHRows.rates_kept st1 st2 /\
         it ∈ PHRows.all_items (PH.sections st2)) /\
  (* the sections of parsePublicHealthXLSX *)
  (forall (st : PH.State) (r : JS.row) (s : string),
     PHRows.opens (PH.normalise r) = true ->
     JS.cell r 4 = JS.VStr s ->
     JS.trim s <> EmptyString -> JS.trim s <> "-" ->
     JS.isNaN (JS.parseFloat (JS.trim s)) = true ->
     exists st1 sec,
       PH.step st r = JS.Ok st1 /\
       PH.sections st1 = (PH.sections st ++ [sec])%list /\
       PH.s_rate sec = JS.VStr (JS.trim s) /\
       forall (post : list JS.row) (st2 : PH.State),
         PH.run st1 post = JS.Ok st2 ->
         exists sec2,
           PH.sections st2 !! length (PH.sections st) = Some sec2 /\
           PH.s_rate sec2 = JS.VStr (JS.trim s)).
Proof.
  split; [intros n; split; reflexivity|].
  split.
  { intros s c t Ht Hd. destruct (mongo_parseRate_digit s c t Ht Hd) as [H1 H2].
    split; [exact H2|]. split; [exact H1 | exact (ph_parseRate_digit s c t Ht Hd)]. }
  split; [repeat split; vm_compute; reflexivity|].
  split.
  { intros s Hne Hnan. split; [apply mongo_parseRate_text; assumption|].
    intros Hdash. apply ph_parseRate_text; assumption. }
  split; [split; reflexivity|].
  split; [split; vm_compute; reflexivity|].
  split; [split; reflexivity|].
  split; [exact parseRate_empty|].
  split; [|split; [|split]].
  - intros pre st r s Hrun Hc Ha Hcell Hne Hnan.
    pose proof (run_rated pre st Hrun) as Hall.
    pose proof (run_wf pre st Hrun) as Hwf.
    assert (Hc' : JS.not_null (Mongo.currentSection st) = true).
    { destruct (Mongo.currentSection st); [reflexivity | contradiction]. }
    destruct (step_adds_item st r Hall Hwf Hc' Ha)
      as (u & l & st1 & Ht & Hstep & Ht1 & _ & _ & _ & _).
    rewrite (mongo_rate_of_text r s Hcell Hne Hnan) in Ht1.
    eexists l, st1, _. split; [exact Ht|]. split; [exact Hstep|].
    split; [exact Ht1|]. split; [reflexivity|]. split; [reflexivity|].
    intros post st2 Hpost.
    destruct (step_rated st r st1 Hall Hstep) as [Hall1 _].
    pose proof (run_items_kept post st1 st2 Hall1 Hpost) as Hk.
    split; [exact Hk|]. apply (items_kept_elem st1 st2 _ Hk).
    apply (target_elem st1 _ _ Ht1). apply elem_of_app. right. left.
  - intros pre st r s Hrun Ho Hcell Hne Hnan.
    pose proof (run_rated pre st Hrun) as Hall.
    pose proof (mongo_step_opens st r Ho) as Hstep.
    pose proof (mongo_rate_of_text r s Hcell Hne Hnan) as Hr.
    assert (H1 : Mongo.s_rate (Rows.opened (Mongo.normalise r)) = JS.VStr (JS.trim s)).
    { unfold Rows.opened. cbn [Mongo.buildSection Mongo.s_rate]. exact Hr. }
    assert (H2 : Mongo.s_rate_type (Rows.opened (Mongo.normalise r)) = Some "formula").
    { unfold Rows.opened. cbn [Mongo.buildSection Mongo.s_rate_type].
      rewrite Hr. reflexivity. }
    eexists _, _. split; [exact Hstep|]. split; [reflexivity|].
    split; [exact H1|]. split; [exact H2|].
    intros post st2 Hpost.
    destruct (step_rated st r _ Hall Hstep) as [Hall1 _].
    destruct (run_section_kept post _ st2 (length (Mongo.sections st))
                (Rows.opened (Mongo.normalise r)) Hall1 Hpost)
      as (sec2 & Hs2 & Hb).
    { cbn [Mongo.open_section Mongo.sections]. apply list_lookup_middle. reflexivity. }
    exists sec2. split; [exact Hs2|].
    rewrite <- H1, <- H2.
    split; [exact (f_equal Mongo.s_rate Hb) | exact (f_equal Mongo.s_rate_type Hb)].
  - intros pre st r s Hrun Hc Hrow Hcell Hne Hd Hnan.
    pose proof (ph_run_wf pre st Hrun) as Hwf.
    destruct (ph_step_ok st r Hwf) as (st1 & Hstep & _).
    pose proof (ph_rate_of_text r s Hcell Hne Hd Hnan) as Hr.
    assert (Hit : exists it,
      Permutation (PHRows.all_items (PH.sections st1))
        (it :: PHRows.all_items (PH.sections st))
      /\ PH.id it = S (PH.itemIdCounter st)
      /\ PH.rate it = PH.c_rate (PH.normalise r)
      /\ PH.rate_type it
         = (if JS.is_number (PH.c_rate (PH.normalise r))
            then "numeric" else "formula")).
    { destruct Hrow as [Hrow|[Hrow Hov]].
      - destruct (ph_step_rate_item st r st1 Hc Hrow Hstep)
          as (it & H1 & H2 & H3 & H4 & _).
        exists it. repeat (split; [assumption|]). assumption.
      - destruct (ph_step_rate_only_push st r st1 Hc Hrow Hov Hstep)
          as (it & H1 & H2 & H3 & H4 & _).
        exists it. repeat (split; [assumption|]). assumption. }
    destruct Hit as (it & H1 & H2 & H3 & H4). rewrite Hr in H3, H4.
    exists st1, it. split; [exact Hstep|]. split; [exact H1|].
    split; [exact H2|]. split; [exact H3|]. split; [exact H4|].
    intros post st2 Hpost.
    pose proof (ph_run_rates_kept post st1 st2 Hpost) as Hk.
    split; [exact Hk|]. apply (rates_kept_elem st1 st2 it Hk).
    + rewrite H3. cbn [JS.truthy]. destruct (JS.trim s); [contradiction | reflexivity].
    + rewrite H1. left.
  - intros st r s Ho Hcell Hne Hd Hnan.
    pose proof (ph_step_opens st r Ho) as Hstep.
    pose proof (ph_rate_of_text r s Hcell Hne Hd Hnan) as Hr.
    assert (H1 : PH.s_rate (PHRows.opened (PH.normalise r) (S (PH.sectionIdCounter st)))
                 = JS.VStr (JS.trim s)).
    { unfold PHRows.opened. destruct (PH.is_header _); exact Hr. }
    eexists _, _. split; [exact Hstep|]. split; [reflexivity|].
    split; [exact H1|].
    intros post st2 Hpost.
    destruct (ph_run_rates_kept post _ st2 Hpost (length (PH.sections st))
                (PHRows.opened (PH.normalise r) (S (PH.sectionIdCounter st))))
      as (sec2 & Hs2 & Hb & _).
    { cbn [PH.open_section PH.sections]. apply list_lookup_middle. reflexivity. }
    exists sec2. split; [exact Hs2|].
    rewrite <- H1. exact (f_equal PH.s_rate Hb).
Qed.

Lemma C4_witness :
  exists st st1 it,
    PH.run PH.init [[JS.VNull; JS.VNum (JS.of_Z 33); JS.VStr "CENTERING"]]
    = JS.Ok st /\
    PH.step st
      [JS.VNull; JS.VNull; JS.VStr "80 mm"; JS.VStr "rm";
       JS.VStr " As per Common SSR "] = JS.Ok st1 /\
    Permutation (PHRows.all_items (PH.sections st1))
      (it :: PHRows.all_items (PH.sections st)) /\
    PH.rate it = JS.VStr "As per Common SSR" /\
    PH.rate_type it = "formula".
Proof.
  destruct C4_parseRate as (_ & _ & _ & _ & _ & _ & _ & _ & _ & _ & H & _).
  edestruct (H [[JS.VNull; JS.VNum (JS.of_Z 33); JS.VStr "CENTERING"]])
    with (r := [JS.VNull; JS.VNull; JS.VStr "80 mm"; JS.VStr "rm";
                JS.VStr " As per Common SSR "])
         (s := " As per Common SSR ")
    as (st1 & it & Hstep & Hperm & _ & Hrate & Htype & _).
  - vm_compute. reflexivity.
  - vm_compute. discriminate.
  - left. vm_compute. reflexivity.
  - reflexivity.
  - vm_compute. discriminate.
  - vm_compute. discriminate.
  - vm_compute. reflexivity.
  - eexists. exists st1, it. split; [vm_compute; reflexivity|].
    split; [exact Hstep|]. split; [exact Hperm|].
    split; [exact Hrate | exact Htype].
Defined.
